(** * Hono-OpenApi: schema inference and incremental document synthesis

    A shallow embedding of the core package of Hono-OpenApi
    (packages/core/src/index.ts, utils.ts, typesystem.ts, typeboxUtils.ts)
    and proofs about it.

    JavaScript values are modelled as a first-order tree [JValue]; objects
    keep their string-keyed fields in insertion order together with the two
    symbol slots TypeBox uses ([Kind] and [OptionalKind]).  Functions that
    throw return a [result]; functions that mutate an object or the OpenAPI
    document return the new contents (explicit state passing). *)

From Stdlib Require Import List String Ascii ZArith QArith Bool Arith Lia.
From Stdlib Require Import DecimalString.
From Stdlib Require DecimalNat DecimalFacts.
Import ListNotations.
Open Scope string_scope.
Open Scope list_scope.
Open Scope nat_scope.

Infix "+++" := String.append (right associativity, at level 60).

(* ====================================================================== *)
(** * JavaScript values *)
(* ====================================================================== *)

Module JS.

(** Symbol-keyed properties of an object.  [Object.keys], [JSON.stringify]
    and the object spread of string keys never see them. *)
Record Symbols : Type := mkSym {
  symKind : option string;      (* [Kind] *)
  symOptional : bool            (* [OptionalKind] === 'Optional' *)
}.

Definition noSym : Symbols := mkSym None false.

(** Numbers that occur inside documents and schemas are integers or NaN in
    this model; the sampling interval and the random draw, which are
    fractions, are rationals (see [Sampler]). *)
#[warnings="-register-all"]
Inductive JValue : Type :=
| JUndefined
| JNull
| JBool (b : bool)
| JNum (z : Z)
| JNaN
| JStr (s : string)
| JArr (xs : list JValue)
| JObj (sy : Symbols) (fs : list (string * JValue)).

Definition Fields : Type := list (string * JValue).

(** A plain object literal [{ k1: v1, ... }]. *)
Definition obj (fs : Fields) : JValue := JObj noSym fs.

(** The double nearest to the integer [x], ties to the even significand:
    the value of a sum whose exact result is [x].  Integers below [2^53]
    in magnitude are doubles; above, the 53 leading bits are kept.  (The
    range of the exponent is not modelled: no sum below reaches it.) *)
Definition toDouble (x : Z) : Z :=
  let a := Z.abs x in
  if (a <? 2 ^ 53)%Z then x
  else
    let e := (Z.log2 a - 52)%Z in
    let q := Z.shiftr a e in
    let r := (a - Z.shiftl q e)%Z in
    let half := Z.shiftl 1 (e - 1) in
    let q' := if (r <? half)%Z then q
              else if (half <? r)%Z then (q + 1)%Z
              else if Z.even q then q else (q + 1)%Z in
    (Z.sgn x * Z.shiftl q' e)%Z.

Definition string_of_nat (n : nat) : string :=
  NilZero.string_of_uint (Nat.to_uint n).

(** ** Property access *)

Fixpoint lookup (k : string) (fs : Fields) : option JValue :=
  match fs with
  | [] => None
  | (k', v) :: rest => if String.eqb k k' then Some v else lookup k rest
  end.

Definition hasField (k : string) (fs : Fields) : bool :=
  match lookup k fs with Some _ => true | None => false end.

(** [fs[k] = v]: an existing key keeps its position, a new key is appended. *)
Fixpoint setField (k : string) (v : JValue) (fs : Fields) : Fields :=
  match fs with
  | [] => [(k, v)]
  | (k', v') :: rest =>
      if String.eqb k k' then (k, v) :: rest else (k', v') :: setField k v rest
  end.

(** [delete fs[k]]. *)
Fixpoint deleteField (k : string) (fs : Fields) : Fields :=
  match fs with
  | [] => []
  | (k', v') :: rest =>
      if String.eqb k k' then deleteField k rest else (k', v') :: deleteField k rest
  end.

(** [{ ...a, ...b }] on string keys. *)
Definition spread (a b : Fields) : Fields :=
  fold_left (fun acc kv => setField (fst kv) (snd kv) acc) b a.

(** Characters of a string as one-character strings. *)
Fixpoint chars (s : string) : list string :=
  match s with
  | EmptyString => []
  | String c rest => String c EmptyString :: chars rest
  end.

Definition indexKeys (n : nat) : list string := map string_of_nat (seq 0 n).

(** Position of the canonical index key [k] below [n], if it is one. *)
Definition indexOfKey (k : string) (n : nat) : option nat :=
  find (fun i => String.eqb (string_of_nat i) k) (seq 0 n).

(** [Object.keys(v)]: own enumerable string keys. *)
Definition ownKeys (v : JValue) : list string :=
  match v with
  | JObj _ fs => map fst fs
  | JArr xs => indexKeys (List.length xs)
  | JStr s => indexKeys (String.length s)
  | _ => []
  end.

(** [v[k]] for an own enumerable key; anything else reads as [undefined].
    (Inherited properties such as [length] are not modelled.) *)
Definition getProp (v : JValue) (k : string) : JValue :=
  match v with
  | JObj _ fs => match lookup k fs with Some x => x | None => JUndefined end
  | JArr xs =>
      match indexOfKey k (List.length xs) with
      | Some i => nth i xs JUndefined
      | None => JUndefined
      end
  | JStr s =>
      match indexOfKey k (String.length s) with
      | Some i => nth i (map JStr (chars s)) JUndefined
      | None => JUndefined
      end
  | _ => JUndefined
  end.

(** [k in v] for an object. *)
Definition hasProp (v : JValue) (k : string) : bool :=
  match v with
  | JObj _ fs => hasField k fs
  | _ => false
  end.

(** [v[k] = x] on an object; other values are left as they are. *)
Definition setProp (v : JValue) (k : string) (x : JValue) : JValue :=
  match v with
  | JObj sy fs => JObj sy (setField k x fs)
  | _ => v
  end.

(** Update of the value found by following [path] from [v]:
    [v[p1][p2]...[pn] = x]. *)
Fixpoint setPath (path : list string) (x : JValue) (v : JValue) : JValue :=
  match path with
  | [] => x
  | k :: rest => setProp v k (setPath rest x (getProp v k))
  end.

Fixpoint getPath (path : list string) (v : JValue) : JValue :=
  match path with
  | [] => v
  | k :: rest => getPath rest (getProp v k)
  end.

(** ** Classification *)

Definition isNullish (v : JValue) : bool :=
  match v with JUndefined | JNull => true | _ => false end.

Definition isObjectLike (v : JValue) : bool :=
  match v with JArr _ | JObj _ _ => true | _ => false end.

Definition isArray (v : JValue) : bool :=
  match v with JArr _ => true | _ => false end.

Definition isNaN (v : JValue) : bool :=
  match v with JNaN => true | _ => false end.

(** [v !== undefined]. *)
Definition defined (v : JValue) : bool :=
  match v with JUndefined => false | _ => true end.

(** Truthiness. *)
Definition truthy (v : JValue) : bool :=
  match v with
  | JUndefined | JNull | JNaN => false
  | JBool b => b
  | JNum z => negb (Z.eqb z 0)
  | JStr s => negb (String.eqb s "")
  | JArr _ | JObj _ _ => true
  end.

(** [a ?? b]. *)
Definition nullish (a b : JValue) : JValue := if isNullish a then b else a.

(** [a === b] on primitives.  Two objects are [===] only when they are the
    same object; object identity is not part of a [JValue], so objects are
    never [===] here.  Wherever the source tests [===] on objects
    ([isDeepEqual]) it goes on to compare them structurally. *)
Definition strictEq (a b : JValue) : bool :=
  match a, b with
  | JUndefined, JUndefined => true
  | JNull, JNull => true
  | JBool x, JBool y => Bool.eqb x y
  | JNum x, JNum y => Z.eqb x y
  | JStr x, JStr y => String.eqb x y
  | _, _ => false
  end.

(** Nesting depth, the measure of the recursive traversals below. *)
Fixpoint height (v : JValue) : nat :=
  match v with
  | JArr xs => S (fold_right (fun x acc => Nat.max (height x) acc) 0 xs)
  | JObj _ fs => S (fold_right (fun kv acc => Nat.max (height (snd kv)) acc) 0 fs)
  | _ => 0
  end.

(** Conversion of a value inside a template literal or a property key. *)
Fixpoint templ (v : JValue) : string :=
  match v with
  | JUndefined => "undefined"
  | JNull => "null"
  | JBool true => "true"
  | JBool false => "false"
  | JNum z =>
      match z with
      | Zneg p => "-" +++ string_of_nat (Pos.to_nat p)
      | _ => string_of_nat (Z.to_nat z)
      end
  | JNaN => "NaN"
  | JStr s => s
  | JArr xs =>
      String.concat "," (map (fun x => if isNullish x then "" else templ x) xs)
  | JObj _ _ => "[object Object]"
  end.

(** [JSON.parse(JSON.stringify(v))]: symbols and [undefined]-valued fields
    are dropped, [undefined] and [NaN] inside arrays become [null]. *)
Fixpoint jsonClone (v : JValue) : JValue :=
  match v with
  | JNaN => JNull
  | JArr xs =>
      JArr (map (fun x => match x with
                          | JUndefined => JNull
                          | _ => jsonClone x
                          end) xs)
  | JObj _ fs =>
      JObj noSym
        ((fix go (l : Fields) : Fields :=
            match l with
            | [] => []
            | (k, JUndefined) :: rest => go rest
            | (k, x) :: rest => (k, jsonClone x) :: go rest
            end) fs)
  | _ => v
  end.

End JS.
Import JS.

(* ====================================================================== *)
(** * utils.ts *)
(* ====================================================================== *)

Module Utils.

(** [isDeepEqual(obj1, obj2, propsToIgnore)].  The recursion descends into
    [obj1[key]] and [obj2[key]]; [fuel] bounds its depth. *)
Fixpoint isDeepEqual_fuel (fuel : nat) (obj1 obj2 : JValue)
    (propsToIgnore : list string) : bool :=
  match fuel with
  | O => false
  | S n =>
      if strictEq obj1 obj2 then true
      else if isNullish obj1 || isNullish obj2
              || (negb (isObjectLike obj1) && negb (isObjectLike obj2))
      then isNaN obj1 && isNaN obj2
      else if negb (Bool.eqb (isArray obj1) (isArray obj2)) then false
      else
        match obj1, obj2 with
        | JArr xs, JArr ys =>
            if negb (Nat.eqb (List.length xs) (List.length ys)) then false
            else forallb (fun xy => isDeepEqual_fuel n (fst xy) (snd xy) propsToIgnore)
                         (combine xs ys)
        | _, _ =>
            let notIgnored k := negb (existsb (String.eqb k) propsToIgnore) in
            let keys1 := filter notIgnored (ownKeys obj1) in
            let keys2 := filter notIgnored (ownKeys obj2) in
            if negb (Nat.eqb (List.length keys1) (List.length keys2)) then false
            else if negb (forallb (fun k => existsb (String.eqb k) keys2) keys1)
            then false
            else forallb (fun key =>
                            isDeepEqual_fuel n (getProp obj1 key) (getProp obj2 key)
                                             propsToIgnore)
                         keys1
        end
  end.

(** Every recursive call is on values of smaller total height, so this
    much fuel is never used up. *)
Definition isDeepEqual (obj1 obj2 : JValue) (propsToIgnore : list string) : bool :=
  isDeepEqual_fuel (S (height obj1 + height obj2)) obj1 obj2 propsToIgnore.

End Utils.
Import Utils.

(* ====================================================================== *)
(** * Exceptions *)
(* ====================================================================== *)

Inductive Error : Type :=
| TypeError                    (* property access or call on a value that has none *)
| SyntaxError                  (* JSON.parse *)
| ErrorMsg (msg : string)      (* throw new Error(msg) *)
| ErrorJson (msg : string) (v : JValue)
                               (* throw new Error(msg + JSON.stringify(v)) *)
| OutOfFuel.                   (* recursion bound of the model, never reached *)

Inductive result (A : Type) : Type :=
| Ok (a : A)
| Throw (e : Error).
Arguments Ok {A} a.
Arguments Throw {A} e.

Definition bind {A B : Type} (c : result A) (k : A -> result B) : result B :=
  match c with
  | Ok a => k a
  | Throw e => Throw e
  end.

Notation "x <- c1 ;; c2" := (bind c1 (fun x => c2))
  (at level 61, c1 at next level, right associativity).

(** [xs.map(f)] for an [f] that may throw. *)
Fixpoint mapM {A B : Type} (f : A -> result B) (xs : list A) : result (list B) :=
  match xs with
  | [] => Ok []
  | x :: rest => y <- f x ;; ys <- mapM f rest ;; Ok (y :: ys)
  end.

(** A value used as an array: [v.map], [v.forEach], [v.every]. *)
Definition asArray (v : JValue) : result (list JValue) :=
  match v with
  | JArr xs => Ok xs
  | _ => Throw TypeError
  end.

(** [Object.entries(v)]; it throws on [undefined] and [null]. *)
Definition entries (v : JValue) : result Fields :=
  if isNullish v then Throw TypeError
  else Ok (map (fun k => (k, getProp v k)) (ownKeys v)).

(** [arr?.includes(name)]: [undefined] when [arr] is nullish. *)
Definition optIncludes (arr : JValue) (name : string) : result bool :=
  match arr with
  | JUndefined | JNull => Ok false
  | JArr xs => Ok (existsb (strictEq (JStr name)) xs)
  | _ => Throw TypeError
  end.

(* ====================================================================== *)
(** * TypeBox (the part of @sinclair/typebox the package calls) *)
(* ====================================================================== *)

Module TypeBox.

(** [{ ...options, [Kind]: kind, ...fs }]: every [Type.X] constructor has
    this shape.  Spreading copies the symbol slots of [options] as well. *)
Definition create (options : JValue) (kind : string) (fs : Fields) : JValue :=
  match options with
  | JObj sy ofs => JObj (mkSym (Some kind) (symOptional sy)) (spread ofs fs)
  | _ => JObj (mkSym (Some kind) false) fs
  end.

Definition noOptions : JValue := obj [].

Definition String_ (options : JValue) : JValue :=
  create options "String" [("type", JStr "string")].
Definition Number (options : JValue) : JValue :=
  create options "Number" [("type", JStr "number")].
Definition Boolean (options : JValue) : JValue :=
  create options "Boolean" [("type", JStr "boolean")].
Definition Null (options : JValue) : JValue :=
  create options "Null" [("type", JStr "null")].
Definition Unknown (options : JValue) : JValue :=
  create options "Unknown" [].
Definition Never (options : JValue) : JValue :=
  create options "Never" [("not", obj [])].
Definition Not (schema options : JValue) : JValue :=
  create options "Not" [("not", schema)].
(** [Type.Array(schema, options)].  The library stores a clone of
    [schema], of the same contents; given no schema at all, as for the
    empty array of [revive], the clone is [{}]. *)
Definition Array (schema options : JValue) : JValue :=
  create options "Array"
    [("type", JStr "array");
     ("items", match schema with JUndefined => obj [] | _ => schema end)].

Definition typeof (v : JValue) : string :=
  match v with
  | JUndefined => "undefined"
  | JBool _ => "boolean"
  | JNum _ | JNaN => "number"
  | JStr _ => "string"
  | JNull | JArr _ | JObj _ _ => "object"
  end.

Definition Literal (value options : JValue) : JValue :=
  create options "Literal" [("const", value); ("type", JStr (typeof value))].

(** [{ ...schema, [OptionalKind]: 'Optional' }]. *)
Definition Optional (schema : JValue) : JValue :=
  match schema with
  | JObj sy fs => JObj (mkSym (symKind sy) true) fs
  | _ => JObj (mkSym None true) []
  end.

Definition IsOptional (v : JValue) : bool :=
  match v with
  | JObj sy _ => symOptional sy
  | _ => false
  end.

(** [CloneType(schema, options)] = [{ ...schema, ...options }]. *)
Definition CloneType (schema options : JValue) : JValue :=
  match schema, options with
  | JObj sy fs, JObj osy ofs =>
      JObj (mkSym (match symKind osy with Some k => Some k | None => symKind sy end)
                  (symOptional sy || symOptional osy))
           (spread fs ofs)
  | _, _ => schema
  end.

(** [Type.Object(properties, options)]: the keys whose schema is not
    optional are listed under [required], which is left out when empty. *)
Definition Object (properties : Fields) (options : JValue) : JValue :=
  let requiredKeys :=
    filter (fun k => negb (IsOptional (getProp (obj properties) k)))
           (map fst properties) in
  create options "Object"
    ([("type", JStr "object"); ("properties", obj properties)]
     ++ match requiredKeys with
        | [] => []
        | _ => [("required", JArr (map JStr requiredKeys))]
        end).

Definition Union (T : list JValue) (options : JValue) : JValue :=
  match T with
  | [] => Never options
  | [t] => CloneType t options
  | _ => create options "Union" [("anyOf", JArr T)]
  end.

Definition hasKind (k : string) (v : JValue) : bool :=
  match v with
  | JObj sy _ => match symKind sy with
                 | Some k' => String.eqb k k'
                 | None => false
                 end
  | _ => false
  end.

Definition IsSchema (v : JValue) : bool :=
  match v with
  | JObj sy _ => match symKind sy with Some _ => true | None => false end
  | _ => false
  end.

(** The guards test the kind tag and the [type] keyword.  The library also
    validates the remaining keywords of the node; those checks hold for
    every schema built by the constructors above from well-typed options. *)
Definition IsString (v : JValue) : bool :=
  hasKind "String" v && strictEq (getProp v "type") (JStr "string").
Definition IsNumber (v : JValue) : bool :=
  hasKind "Number" v && strictEq (getProp v "type") (JStr "number").
Definition IsBoolean (v : JValue) : bool :=
  hasKind "Boolean" v && strictEq (getProp v "type") (JStr "boolean").
Definition IsNull (v : JValue) : bool :=
  hasKind "Null" v && strictEq (getProp v "type") (JStr "null").
Definition IsArray (v : JValue) : bool :=
  hasKind "Array" v && strictEq (getProp v "type") (JStr "array")
  && IsSchema (getProp v "items").
Definition IsObject (v : JValue) : bool :=
  hasKind "Object" v && strictEq (getProp v "type") (JStr "object")
  && match getProp v "properties" with
     | JObj _ ps => forallb (fun kv => IsSchema (snd kv)) ps
     | _ => false
     end.
Definition IsUnion (v : JValue) : bool :=
  hasKind "Union" v
  && match getProp v "anyOf" with
     | JArr xs => forallb IsSchema xs
     | _ => false
     end.
Definition IsIntersect (v : JValue) : bool :=
  hasKind "Intersect" v
  && match getProp v "type" with
     | JStr t => String.eqb t "object"
     | _ => true
     end
  && match getProp v "allOf" with
     | JArr xs => forallb IsSchema xs
     | _ => false
     end.

(** [Type.Intersect(T, options)]; with two or more members the node gets
    [type: 'object'] when all members are objects or [options] constrains
    [unevaluatedProperties]. *)
Definition Intersect (T : list JValue) (options : JValue) : JValue :=
  match T with
  | [] => Never options
  | [t] => CloneType t options
  | _ =>
      let u := getProp options "unevaluatedProperties" in
      if strictEq u (JBool false) || IsSchema u || forallb IsObject T
      then create options "Intersect" [("type", JStr "object"); ("allOf", JArr T)]
      else create options "Intersect" [("allOf", JArr T)]
  end.

(** [Type.Tuple(items, options)]. *)
Definition Tuple (items : list JValue) (options : JValue) : JValue :=
  let n := JNum (Z.of_nat (List.length items)) in
  match items with
  | [] => create options "Tuple"
            [("type", JStr "array"); ("minItems", n); ("maxItems", n)]
  | _ => create options "Tuple"
            [("type", JStr "array"); ("items", JArr items);
             ("additionalItems", JBool false); ("minItems", n); ("maxItems", n)]
  end.

(** [Type.Strict(schema)] = [JSON.parse(JSON.stringify(schema))]. *)
Definition Strict (schema : JValue) : JValue := jsonClone schema.

End TypeBox.

(* ====================================================================== *)
(** * typesystem.ts *)
(* ====================================================================== *)

Module TypeSystem.
Import TypeBox.

(** Custom kind registered for [oneOf]:
    [Type.Unsafe({ ...options, [Kind]: 'ExtendedOneOf', oneOf })]. *)
Definition OneOf (oneOf : list JValue) (options : JValue) : JValue :=
  create options "ExtendedOneOf" [("oneOf", JArr oneOf)].

Definition structuralKeys : list string :=
  ["title"; "type"; "items"; "allOf"; "anyOf"; "oneOf"; "not";
   "properties"; "required"; "const"; "enum"].

(** [parseSchemaOptions]: the non-structural keywords of a fragment, or
    [undefined] ([None]) when there are none. *)
Definition parseSchemaOptions (schema : JValue) : result (option JValue) :=
  es <- entries schema ;;
  let properties :=
    filter (fun kv => negb (existsb (String.eqb (fst kv)) structuralKeys)) es in
  match properties with
  | [] => Ok None
  | _ => Ok (Some (obj (fold_left (fun acc kv => setField (fst kv) (snd kv) acc)
                                  properties [])))
  end.

Definition orNoOptions (o : option JValue) : JValue :=
  match o with Some x => x | None => noOptions end.

Definition isString (v : JValue) : bool :=
  match v with JStr _ => true | _ => false end.
Definition isNumber (v : JValue) : bool :=
  match v with JNum _ | JNaN => true | _ => false end.
Definition isBoolean (v : JValue) : bool :=
  match v with JBool _ => true | _ => false end.
Definition isNullType (v : JValue) : bool :=
  match v with JNull => true | _ => false end.

Definition isObjectSchema (schema : JValue) : bool :=
  defined (getProp schema "type") && strictEq (getProp schema "type") (JStr "object").
Definition isEnumSchema (schema : JValue) : bool := defined (getProp schema "enum").
Definition isAnyOfSchema (schema : JValue) : bool := defined (getProp schema "anyOf").
Definition isAllOfSchema (schema : JValue) : bool := defined (getProp schema "allOf").
Definition isOneOfSchema (schema : JValue) : bool := defined (getProp schema "oneOf").
Definition isNotSchema (schema : JValue) : bool := defined (getProp schema "not").
Definition isArraySchema (schema : JValue) : bool :=
  strictEq (getProp schema "type") (JStr "array") && defined (getProp schema "items").
Definition isConstSchema (schema : JValue) : bool := defined (getProp schema "const").
Definition isSchemaWithMultipleTypes (schema : JValue) : bool :=
  isArray (getProp schema "type").

(** [parseType]: a JSON value of an [enum] or [const] list as a type. *)
Fixpoint parseType (type : JValue) : result JValue :=
  match type with
  | JStr _ => Ok (Literal type noOptions)
  | JNull => Ok (Null noOptions)
  | JNum _ | JNaN | JBool _ => Ok (Literal type noOptions)
  | JArr xs =>
      match xs with
      | x :: _ => t <- parseType x ;; Ok (Array t noOptions)
      | [] => Throw TypeError          (* parseType(undefined) *)
      end
  | JObj _ fs =>
      childSchema <-
        (fix go (l : Fields) (acc : Fields) : result Fields :=
           match l with
           | [] => Ok acc
           | (key, value) :: rest =>
               t <- parseType value ;; go rest (setField key t acc)
           end) fs [] ;;
      Ok (Object childSchema noOptions)
  | JUndefined => Throw TypeError      (* Object.entries(undefined) *)
  end.

Definition parsePrimitive (type : JValue) (schema : JValue) : result JValue :=
  schemaOptions <- parseSchemaOptions schema ;;
  if strictEq type (JStr "number") || strictEq type (JStr "integer")
  then Ok (Number (orNoOptions schemaOptions))
  else if strictEq type (JStr "string") then Ok (String_ (orNoOptions schemaOptions))
  else if strictEq type (JStr "boolean") then Ok (Boolean (orNoOptions schemaOptions))
  else if strictEq type (JStr "null") then Ok (Null (orNoOptions schemaOptions))
  else Throw (ErrorMsg ("Should never happen..? parseType got type: " +++ templ type)).

Definition parseEnum (schema : JValue) : result JValue :=
  schemaOptions <- parseSchemaOptions schema ;;
  values <- asArray (getProp schema "enum") ;;
  primitiveTypes <- mapM parseType values ;;
  Ok (Union primitiveTypes (orNoOptions schemaOptions)).

Definition parseConst (schema : JValue) : result JValue :=
  schemaOptions <- parseSchemaOptions schema ;;
  let c := getProp schema "const" in
  match c with
  | JArr xs =>
      childSchema <- mapM parseType xs ;;
      Ok (Union childSchema (orNoOptions schemaOptions))
  | JObj _ _ | JNull => Throw (ErrorMsg "Const object not yet supported")
  | _ => Ok (Literal c (orNoOptions schemaOptions))
  end.

Definition parseWithMultipleTypes (schema : JValue) : result JValue :=
  names <- asArray (getProp schema "type") ;;
  children <- mapM (fun typeName => parsePrimitive typeName (obj [])) names ;;
  Ok (Union children noOptions).

Section Compiler.
(** The recursive calls of the parsers go back to [jsonSchemaToTypebox]. *)
Variable compile : JValue -> result JValue.

Definition parseObject (schema : JValue) : result JValue :=
  schemaOptions <- parseSchemaOptions schema ;;
  let properties := getProp schema "properties" in
  let requiredProperties := getProp schema "required" in
  if negb (defined properties) then Ok (Unknown noOptions)
  else
    attributes <- entries properties ;;
    objectProperties <-
      fold_left
        (fun acc kv =>
           ps <- acc ;;
           req <- optIncludes requiredProperties (fst kv) ;;
           t <- compile (snd kv) ;;
           Ok (setField (fst kv) (if req then t else Optional t) ps))
        attributes (Ok []) ;;
    match schemaOptions with
    | None => Ok (Object objectProperties (obj [("additionalProperties", JBool false)]))
    | Some o => Ok (Object objectProperties o)
    end.

Definition parseAnyOf (schema : JValue) : result JValue :=
  schemaOptions <- parseSchemaOptions schema ;;
  members <- asArray (getProp schema "anyOf") ;;
  childSchemas <- mapM compile members ;;
  Ok (Union childSchemas (orNoOptions schemaOptions)).

Definition parseAllOf (schema : JValue) : result JValue :=
  schemaOptions <- parseSchemaOptions schema ;;
  members <- asArray (getProp schema "allOf") ;;
  childSchema <- mapM compile members ;;
  Ok (Intersect childSchema (orNoOptions schemaOptions)).

Definition parseOneOf (schema : JValue) : result JValue :=
  schemaOptions <- parseSchemaOptions schema ;;
  members <- asArray (getProp schema "oneOf") ;;
  childSchema <- mapM compile members ;;
  Ok (OneOf childSchema (orNoOptions schemaOptions)).

Definition parseNot (schema : JValue) : result JValue :=
  schemaOptions <- parseSchemaOptions schema ;;
  childSchema <- compile (getProp schema "not") ;;
  Ok (Not childSchema (orNoOptions schemaOptions)).

Definition parseArray (schema : JValue) : result JValue :=
  schemaOptions <- parseSchemaOptions schema ;;
  match getProp schema "items" with
  | JArr items =>
      childSchema <- mapM compile items ;;
      Ok (Array (Union childSchema noOptions) (orNoOptions schemaOptions))
  | items =>
      t <- compile items ;;
      Ok (Array t (orNoOptions schemaOptions))
  end.

(** One step of [jsonSchemaToTypebox]: shape detection, first match wins. *)
Definition jsonSchemaToTypebox_step (schema : JValue) : result JValue :=
  if isBoolean schema then Ok (Boolean noOptions)
  else if isNullish schema then Throw TypeError      (* schema['type'] *)
  else if isObjectSchema schema then parseObject schema
  else if isEnumSchema schema then parseEnum schema
  else if isAnyOfSchema schema then parseAnyOf schema
  else if isAllOfSchema schema then parseAllOf schema
  else if isOneOfSchema schema then parseOneOf schema
  else if isNotSchema schema then parseNot schema
  else if isArraySchema schema then parseArray schema
  else if isSchemaWithMultipleTypes schema then parseWithMultipleTypes schema
  else if isConstSchema schema then parseConst schema
  else if defined (getProp schema "type") && negb (isArray (getProp schema "type"))
  then parsePrimitive (getProp schema "type") schema
  else Throw (ErrorJson
                "Unsupported schema. Did not match any type of the parsers. Schema was: "
                schema).
End Compiler.

Fixpoint jsonSchemaToTypebox_fuel (fuel : nat) (schema : JValue) : result JValue :=
  match fuel with
  | O => Throw OutOfFuel
  | S n => jsonSchemaToTypebox_step (jsonSchemaToTypebox_fuel n) schema
  end.

(** Each recursive call is on a value nested inside [schema]. *)
Definition jsonSchemaToTypebox (schema : JValue) : result JValue :=
  jsonSchemaToTypebox_fuel (S (height schema)) schema.

(** The [required] names of a schema node ([required?: string[]]). *)
Definition requiredOf (schema : JValue) : list string :=
  match getProp schema "required" with
  | JArr xs =>
      flat_map (fun x => match x with JStr s => [s] | _ => [] end) xs
  | _ => []
  end.

(** Insertion into a [Set<string>]: kept in insertion order, no repeats. *)
Definition setAdd (x : string) (s : list string) : list string :=
  if existsb (String.eqb x) s then s else s ++ [x].

(** The [forEach] over [x.required] that fills the set [existsInBoth],
    starting from [acc]: a name is added when [y.required] includes it. *)
Definition collect (yRequired xRequired acc : list string) : list string :=
  fold_left
    (fun acc name =>
       let presentInBoth := existsb (String.eqb name) yRequired in
       if presentInBoth then setAdd name acc else acc)
    xRequired acc.

Section Merge.
(** [Type.Composite] of the library, which returns an object type. *)
Variable Composite : list JValue -> JValue -> Symbols * Fields.

Definition mergeObjectSchemas (x y : JValue) (options : JValue) : JValue :=
  let existsInBoth := collect (requiredOf y) (requiredOf x) [] in
  let merged := Composite [x; y] options in
  JObj (fst merged) (setField "required" (JArr (map JStr existsInBoth)) (snd merged)).
End Merge.

Definition buildObjectOptions (schema : JValue) : option JValue :=
  let copy k (options : Fields) :=
    if truthy (getProp schema k) then setField k (getProp schema k) options
    else options in
  let options :=
    copy "title" (copy "maxProperties" (copy "minProperties" (copy "examples"
      (copy "description" (copy "default" (copy "additionalProperties"
        (copy "$id" []))))))) in
  match options with
  | [] => None
  | _ => Some (obj options)
  end.

Definition unsupportedByFlatten (v : JValue) : Error :=
  ErrorMsg ("Type " +++ templ (getProp v "type")
            +++ " Not yet supported by flattening operation").

Fixpoint flattenIntersections_fuel (fuel : nat) (schema : JValue) : result JValue :=
  match fuel with
  | O => Throw OutOfFuel
  | S n =>
      if IsIntersect schema then
        allOf <- asArray (getProp schema "allOf") ;;
        deduplicatedSchemas <-
          fold_left
            (fun acc v =>
               dedup <- acc ;;
               flattenedType <-
                 (if TypeBox.IsArray v || IsObject v
                  then flattenIntersections_fuel n v
                  else if IsString v || IsBoolean v || IsNumber v || IsNull v
                  then Ok v
                  else Throw (unsupportedByFlatten v)) ;;
               let similarExists :=
                 existsb (fun s => isDeepEqual s v ["example"]) dedup in
               if negb similarExists then Ok (dedup ++ [v]) else Ok dedup)
            allOf (Ok []) ;;
        if 1 <? List.length deduplicatedSchemas
        then Ok (Intersect deduplicatedSchemas schema)
        else Ok (nth 0 deduplicatedSchemas JUndefined)
      else if TypeBox.IsArray schema then
        children <- flattenIntersections_fuel n (getProp schema "items") ;;
        Ok (Array children noOptions)
      else if IsObject schema then
        if defined (getProp schema "properties") then
          props <- entries (getProp schema "properties") ;;
          flattened <-
            fold_left
              (fun acc kv =>
                 ps <- acc ;;
                 inReq <- optIncludes (getProp schema "required") (fst kv) ;;
                 let needsOptional := negb inReq && negb (IsOptional (snd kv)) in
                 flattenedSchema <- flattenIntersections_fuel n (snd kv) ;;
                 Ok (setField (fst kv)
                       (if needsOptional then Optional flattenedSchema
                        else flattenedSchema) ps))
              props (Ok []) ;;
          Ok (Object flattened (orNoOptions (buildObjectOptions schema)))
        else Ok (Object [] noOptions)
      else Ok schema
  end.

Definition flattenIntersections (schema : JValue) : result JValue :=
  flattenIntersections_fuel (S (height schema)) schema.

End TypeSystem.

(* ====================================================================== *)
(** * typeboxUtils.ts *)
(* ====================================================================== *)

Module TypeboxUtils.
Import TypeBox.

(** The [every] callback of the array case: [arrItemType] starts as [null]
    and takes the [type] of the first element it sees. *)
Definition haveSameType (value : list JValue) : bool :=
  snd (fold_left
         (fun st v =>
            let '(arrItemType, ok) := st in
            if negb ok then st                      (* every stopped *)
            else if strictEq arrItemType JNull then (getProp v "type", true)
            else if negb (strictEq arrItemType (getProp v "type"))
            then (arrItemType, false)
            else (arrItemType, true))
         value (JNull, true)).

(** The reviver of [jsonStringToTypeboxSchema]; [JSON.parse] applies it
    bottom-up, children before their parent. *)
Fixpoint revive (value : JValue) : JValue :=
  match value with
  | JNull => Null noOptions
  | JBool _ => Boolean (obj [("example", value)])
  | JNum _ | JNaN => Number (obj [("example", value)])
  | JStr _ => String_ (obj [("example", value)])
  | JArr xs =>
      let revived := map revive xs in
      if haveSameType revived
      then Array (nth 0 revived JUndefined) noOptions
      else Tuple revived (obj [("minItems", JNum 0); ("maxItems", JNum 1000)])
  | JObj _ fs =>
      Object (map (fun kv => (fst kv, revive (snd kv))) fs)
             (obj [("additionalProperties", JBool false)])
  | JUndefined => JUndefined
  end.

Section Parse.
(** [JSON.parse] of the runtime; [None] stands for a [SyntaxError]. *)
Variable JSON_parse : string -> option JValue.

Definition jsonStringToTypeboxSchema (jsonAsString : string) : result JValue :=
  match JSON_parse jsonAsString with
  | Some v => Ok (revive v)
  | None => Throw SyntaxError
  end.
End Parse.

Definition textStringToTypeboxSchema (text : string) : JValue :=
  String_ (obj [("example", JStr text)]).

End TypeboxUtils.

(* ====================================================================== *)
(** * types.ts: path and option helpers *)
(* ====================================================================== *)

Module Helpers.
Import TypeBox.

Section Methods.
(** [METHODS] of hono/router, the lower-case method names. *)
Variable METHODS : list string.

(** [isValidHttpMethod(method)]. *)
Definition isValidHttpMethod (method : string) : bool :=
  String.eqb method "all" || existsb (String.eqb method) METHODS.
End Methods.

(** [p[p.length - 1]]; [None] is [undefined]. *)
Fixpoint lastChar (s : string) : option ascii :=
  match s with
  | EmptyString => None
  | String c EmptyString => Some c
  | String _ rest => lastChar rest
  end.

(** [p.slice(0, -1)]. *)
Fixpoint dropLast (s : string) : string :=
  match s with
  | EmptyString => EmptyString
  | String c EmptyString => EmptyString
  | String c rest => String c (dropLast rest)
  end.

(** [path[0]]. *)
Definition firstChar (s : string) : option ascii :=
  match s with
  | EmptyString => None
  | String c _ => Some c
  end.

Definition isSlash (c : option ascii) : bool :=
  match c with
  | Some c => Ascii.eqb c "/"
  | None => false
  end.

(** One round of the loop of [mergePath]; the state is [(p, endsWithSlash)]. *)
Definition mergePath_step (st : string * bool) (path : string) : string * bool :=
  let '(p, endsWithSlash) := st in
  let '(p, endsWithSlash) :=
    if isSlash (lastChar p) then (dropLast p, true) else (p, endsWithSlash) in
  let path := if negb (isSlash (firstChar path)) then "/" +++ path else path in
  let p :=
    if String.eqb path "/" && endsWithSlash then p +++ "/"
    else if negb (String.eqb path "/") then p +++ path
    else p in
  let p := if String.eqb path "/" && String.eqb p "" then "/" else p in
  (p, endsWithSlash).

(** [mergePath(...paths)]. *)
Definition mergePath (paths : list string) : string :=
  fst (fold_left mergePath_step paths ("", false)).

(** [handleArrayMerge(o, o1, path)]; [undefined] when [o] is no array. *)
Definition handleArrayMerge (o o1 path : JValue) : result JValue :=
  match o with
  | JArr xs =>
      match o1 with
      | JArr ys => Ok (JArr (xs ++ ys))
      | JUndefined | JNull => Ok (JArr xs)
      | _ => Throw (ErrorMsg ("Can not deep merge array and object. path: "
                              +++ templ path))
      end
  | _ => Ok JUndefined
  end.

(** [deepCloneAndMerge(o, o1, path)].  The recursion descends into
    [o[key]] and [o1[key]] of two objects; [fuel] bounds its depth.  The
    two are read as own properties: this is [o[key]] for every key that
    is not a name objects inherit, such as [constructor]. *)
Fixpoint deepCloneAndMerge_fuel (fuel : nat) (o o1 path : JValue) : result JValue :=
  match fuel with
  | O => Throw OutOfFuel
  | S n =>
      if String.eqb (typeof o) "object" && String.eqb (typeof o1) "object" then
        r <- handleArrayMerge o o1 path ;;
        if defined r then Ok r
        else
          r <- handleArrayMerge o1 o path ;;
          if defined r then Ok r
          else
            match o, o1 with
            | JNull, JNull => Ok JNull
            | JNull, _ => Ok o1                  (* { ...o1 } *)
            | _, JNull => Ok o                   (* { ...o } *)
            | _, _ =>
                let keys := ownKeys o ++ ownKeys o1 in
                newObj <-
                  fold_left
                    (fun acc key =>
                       newObj <- acc ;;
                       v <- deepCloneAndMerge_fuel n (getProp o key) (getProp o1 key)
                              (JStr (templ path +++ "/" +++ key)) ;;
                       Ok (setField key v newObj))
                    keys (Ok []) ;;
                Ok (obj newObj)
            end
      else if defined o1 then Ok o1
      else Ok o
  end.

Definition deepCloneAndMerge (o o1 path : JValue) : result JValue :=
  deepCloneAndMerge_fuel (S (height o)) o o1 path.

(** A value of type [T | T[] | undefined]. *)
Inductive OneOrMany (A : Type) : Type :=
| Missing
| One (a : A)
| Many (l : list A).
Arguments Missing {A}.
Arguments One {A} a.
Arguments Many {A} l.

(** [arrayify(potentialArray)]. *)
Definition arrayify {A : Type} (potentialArray : OneOrMany A) : OneOrMany A :=
  match potentialArray with
  | Many _ | Missing => potentialArray
  | One a => Many [a]
  end.

End Helpers.

(* ====================================================================== *)
(** * index.ts: the reference store *)
(* ====================================================================== *)

Module OpenApi.
Import TypeBox TypeSystem TypeboxUtils.

(** [a?.[k]]. *)
Definition optGet (a : JValue) (k : string) : JValue :=
  if isNullish a then JUndefined else getProp a k.

(** [a.k] where [a] must not be nullish. *)
Definition mustGet (a : JValue) (k : string) : result JValue :=
  if isNullish a then Throw TypeError else Ok (getProp a k).

(** ** OpenApiBuilder (openapi3-ts) on the root document *)

(** [rootDoc.components = rootDoc.components || {}]. *)
Definition ensure (k : string) (v : JValue) : JValue :=
  if truthy (getProp v k) then v else setProp v k (obj []).

Definition addSchema (name : string) (schema : JValue) (rootDoc : JValue) : JValue :=
  let d1 := ensure "components" rootDoc in
  let d2 := setProp d1 "components" (ensure "schemas" (getProp d1 "components")) in
  setPath ["components"; "schemas"; name] schema d2.

Definition addParameter (name : string) (parameter : JValue) (rootDoc : JValue) : JValue :=
  let d1 := ensure "components" rootDoc in
  let d2 := setProp d1 "components" (ensure "parameters" (getProp d1 "components")) in
  setPath ["components"; "parameters"; name] parameter d2.

(** [addPath]: [paths[path] = { ...(paths[path] || {}), ...pathItem }]. *)
Definition addPath (path : string) (pathItem : Fields) (rootDoc : JValue) : JValue :=
  let d1 := ensure "paths" rootDoc in
  let old := getProp (getProp d1 "paths") path in
  let oldFields := match old with JObj _ fs => fs | _ => [] end in
  setPath ["paths"; path] (obj (spread oldFields pathItem)) d1.

(** ** addParameterToSchema *)

Inductive Probe : Type :=
| Reuse (curName : string)     (* an equal entry exists under this name *)
| Fresh (name : string)        (* this name is free *)
| Exhausted.                   (* the loop ran out after 2000 rounds *)

(** The [for (let i = 0; i < 2000; i++)] loop; [rounds] is the number of
    iterations left. *)
Fixpoint probe (parameter parameters : JValue) (base : string)
    (rounds i : nat) (curName : string) : Probe :=
  match rounds with
  | O => Exhausted
  | S r =>
      if truthy (getProp parameters curName) then
        if isDeepEqual parameter (getProp parameters curName) ["open_api_ref"]
        then Reuse curName
        else probe parameter parameters base r (S i) (base +++ string_of_nat i)
      else Fresh curName
  end.

Definition parameterRef (name : string) : string :=
  "#/components/parameters/" +++ name.

(** The outcome of a registration: the returned reference, the contents of
    the schema node after the call, and the document after the call. *)
Record Registered : Type := mkRegistered {
  reference : JValue;
  node : JValue;
  rootDoc : JValue
}.

(** [schema.open_api_ref[loc] = ref], creating the map when it is falsy. *)
Definition writeRef (schema : JValue) (loc : string) (ref : string) : JValue :=
  let s1 := if truthy (getProp schema "open_api_ref") then schema
            else setProp schema "open_api_ref" (obj []) in
  setPath ["open_api_ref"; loc] (JStr ref) s1.

(** The entry stored for a parameter: [{ ...parameter, schema: { ...Type.Strict(schema) } }]
    with [open_api_ref] deleted from the copied schema. *)
Definition parameterCopy (parameter schema : JValue) : JValue :=
  let strict := Strict schema in
  setProp (setProp parameter "schema" strict) "schema"
          (match strict with
           | JObj _ fs => obj (deleteField "open_api_ref" fs)
           | _ => obj []
           end).

(** [schema.open_api_ref?.[loc]]. *)
Definition knownReference (schema : JValue) (loc : string) : result JValue :=
  open_api_ref <- mustGet schema "open_api_ref" ;;
  Ok (optGet open_api_ref loc).

(** The test of the first [if]: the node already carries a reference for
    the location of [parameter], and the call returns it at once. *)
Definition takesFastPath (parameter schema : JValue) : bool :=
  match knownReference schema (templ (getProp parameter "in")) with
  | Ok known => defined known
  | Throw _ => false
  end.

Definition addParameterToSchema (parameter schema doc : JValue) : result Registered :=
  let loc := templ (getProp parameter "in") in
  known <- knownReference schema loc ;;
  if defined known
  then Ok (mkRegistered known schema doc)
  else
    components <- mustGet doc "components" ;;
    parameters0 <- mustGet components "parameters" ;;
    (* if (parameters === undefined) { parameters = {}; components.parameters = parameters } *)
    let doc1 := if defined parameters0 then doc
                else setPath ["components"; "parameters"] (obj []) doc in
    let parameters := if defined parameters0 then parameters0 else obj [] in
    if isNullish parameters then Throw TypeError        (* parameters[curName] *)
    else
      let base := templ (getProp parameter "name") +++ "_" +++ loc in
      match probe parameter parameters base 2000 0 base with
      | Reuse curName => Ok (mkRegistered (JStr (parameterRef curName)) schema doc1)
      | Exhausted =>
          Throw (ErrorMsg
            "Should never happen. 2000 Parameters with same name and no duplicate registered?")
      | Fresh name =>
          let doc2 := addParameter name (parameterCopy parameter schema) doc1 in
          Ok (mkRegistered (JStr (parameterRef name))
                           (writeRef schema loc (parameterRef name)) doc2)
      end.

(** ** addBodyTypeToSchema *)

Definition addBodyTypeToSchema (name : string) (schema doc : JValue) : result Registered :=
  known <- knownReference schema "body" ;;
  if defined known
  then Ok (mkRegistered known schema doc)
  else
    let doc1 := addSchema name (Strict schema) doc in
    Ok (mkRegistered (JStr ("#/components/schemas/" +++ name))
                     (writeRef schema "body" ("#/components/schema/" +++ name)) doc1).

(** ** Schema nodes as shared objects

    The schema passed to a registration is an object that the caller keeps
    and may pass again.  A [Store] holds the document and the contents of
    every such object by address; registering the node at address [a]
    rewrites that cell, so a later registration of the same address sees
    the reference map the earlier one wrote. *)
Record Store : Type := mkStore {
  document : JValue;
  nodes : nat -> JValue
}.

Definition updateNode (a : nat) (v : JValue) (h : nat -> JValue) : nat -> JValue :=
  fun b => if Nat.eqb a b then v else h b.

Definition commit (a : nat) (st : Store) (r : Registered) : JValue * Store :=
  (reference r, mkStore (rootDoc r) (updateNode a (node r) (nodes st))).

(** [addParameterToSchema(parameter, schema)] where [schema] is the object
    at address [a] and [parameter.schema] is that same object. *)
Definition asPassed (parameter schema : JValue) : JValue :=
  setProp parameter "schema" schema.

Definition addParameterToSchemaAt (parameter : JValue) (a : nat) (st : Store)
    : result (JValue * Store) :=
  r <- addParameterToSchema (asPassed parameter (nodes st a))
                            (nodes st a) (document st) ;;
  Ok (commit a st r).

(** [addBodyTypeToSchema(name, schema)] where [schema] is the object at
    address [a]. *)
Definition addBodyTypeToSchemaAt (name : string) (a : nat) (st : Store)
    : result (JValue * Store) :=
  r <- addBodyTypeToSchema name (nodes st a) (document st) ;;
  Ok (commit a st r).

(* ---------------------------------------------------------------------- *)
(** ** snoopOnResponseHandler: the sampler *)
(* ---------------------------------------------------------------------- *)

(** Numbers of the sampling options and of the gate. *)
Inductive Num : Type :=
| Fin (q : Q)
| Infinity
| NaN.

(** [a >= b]. *)
Definition geN (a b : Num) : bool :=
  match a, b with
  | NaN, _ | _, NaN => false
  | _, Fin _ => match a with Fin x => match b with Fin y => Qle_bool y x | _ => false end
                           | _ => true end
  | Infinity, Infinity => true
  | Fin _, Infinity => false
  end.

(** [a > b]. *)
Definition gtN (a b : Num) : bool :=
  match a, b with
  | NaN, _ | _, NaN => false
  | Fin x, Fin y => negb (Qle_bool x y)
  | Infinity, Fin _ => true
  | _, Infinity => false
  end.

Inductive SamplingMode : Type := combine | individual.

Record SampleResponseOptions : Type := mkOptions {
  samplingMode : option SamplingMode;
  samplingInterval : option Num;
  samplingMaxCount : option Num
}.

(** [handler?.field ?? global?.field ?? default]. *)
Definition effective {A : Type} (field : SampleResponseOptions -> option A)
    (handlerSampleOptions gSampleOptions : option SampleResponseOptions)
    (default : A) : A :=
  match match handlerSampleOptions with Some h => field h | None => None end with
  | Some x => x
  | None =>
      match match gSampleOptions with Some g => field g | None => None end with
      | Some x => x
      | None => default
      end
  end.

(** What the handler reads from the Hono context after [await next()]. *)
Record Context : Type := mkContext {
  routePath : string;                 (* c.req.routePath *)
  method : string;                    (* c.req.method.toLowerCase() *)
  contentTypeHeader : option string;  (* c.res.headers.get('content-type') *)
  status : nat;                       (* c.res.status *)
  body : option string                (* text of c.res.clone().body; None when null *)
}.

(** The result of one run of the handler: it returns, or it throws; either
    way the document is the one the run left behind. *)
Inductive Outcome : Type :=
| Returned (doc : JValue)
| Thrown (e : Error) (doc : JValue).

Definition STATUS_CODE_MAP (statusCode : nat) : string :=
  match statusCode with
  | 200 => "Success"
  | 400 => "Validation Error"
  | 403 => "Forbidden"
  | 404 => "Not Found"
  | 418 => "I'm a teampot"
  | 500 => "Internal Server Error"
  | 504 => "Gateway Timeout"
  | _ => ""
  end.

Definition upperAscii (c : ascii) : ascii :=
  let n := nat_of_ascii c in
  if (97 <=? n) && (n <=? 122) then ascii_of_nat (n - 32) else c.

(** [s.charAt(1).toUpperCase() + s.substring(2)] of an ASCII path: a
    character of the source is a character here, and on these
    [toUpperCase] is [upperAscii]. *)
Definition capitalizedRoute (path : string) : string :=
  match path with
  | String _ (String c rest) => String (upperAscii c) rest
  | _ => ""
  end.

(** [s.replaceAll(/\//g, '_')]. *)
Fixpoint replaceSlashes (s : string) : string :=
  match s with
  | EmptyString => EmptyString
  | String c rest =>
      String (if Ascii.eqb c "/" then "_"%char else c) (replaceSlashes rest)
  end.

(** The media type without its parameters: the header up to the first [;]
    when that is not the first character; a missing header is [text/html]. *)
Definition contentTypeOf (header : option string) : string :=
  match header with
  | None => "text/html"
  | Some h =>
      match index 0 ";" h with
      | Some (S n) => substring 0 (S n) h
      | _ => h
      end
  end.

Definition prettyNameOf (path method contentType : string) (statusCode : nat) : string :=
  replaceSlashes (capitalizedRoute path +++ "Response_" +++ method +++ "_"
                  +++ contentType +++ "_" +++ string_of_nat statusCode).

Definition countKey : string := "x-openapi-sample-count".

(** The cell that holds the schema reference and the sample count of one
    (path, method, status, content type). *)
Definition schemaCell (path method : string) (statusCode : nat) (contentType : string)
    : list string :=
  ["paths"; path; method; "responses"; string_of_nat statusCode;
   "content"; contentType; "schema"].

(** [rootDoc.paths?.[path]?.[method]?.responses?.[status]?.content?.[ct]
      ?.schema?.['x-openapi-sample-count'] ?? null]. *)
Definition sampledCountOf (rootDoc : JValue) (path method : string)
    (statusCode : nat) (contentType : string) : JValue :=
  nullish
    (fold_left optGet (schemaCell path method statusCode contentType ++ [countKey])
               rootDoc)
    JNull.

(** A count read from the document as a number ([sampledCount: number | null]). *)
Definition toNum (v : JValue) : Num :=
  match v with
  | JNum z => Fin (inject_Z z)
  | _ => NaN
  end.

(** The sampling gate: [true] when the handler bails out. *)
Definition gateSkips (sampledCount : JValue) (maxResponsesToSample sampleInterval random : Num)
    : bool :=
  negb (strictEq sampledCount JNull)
  && (geN (toNum sampledCount) maxResponsesToSample || gtN random sampleInterval).

(** [(count as number) + 1]: the sum of two doubles, and what [+] makes
    of a value that is no number. *)
Definition plusOne (v : JValue) : JValue :=
  match v with
  | JNum z => JNum (toDouble (z + 1))
  | JNull => JNum 1
  | JBool true => JNum 2
  | JBool false => JNum 1
  | JStr s => JStr (s +++ "1")
  | JArr _ | JObj _ _ => JStr (templ v +++ "1")
  | JUndefined | JNaN => JNaN
  end.

(** [isReferenceObject(obj)]: [hasOwnProperty.call(obj, '$ref')]. *)
Definition isReferenceObject (o : JValue) : result bool :=
  if isNullish o then Throw TypeError else Ok (hasProp o "$ref").

(** [ref.substring('#/components/schemas/'.length)]. *)
Definition refIdOf (ref : JValue) : result string :=
  match ref with
  | JStr s => Ok (substring 21 (String.length s - 21) s)
  | _ => Throw TypeError
  end.

Definition lift (doc : JValue) (r : result JValue) (k : JValue -> Outcome) : Outcome :=
  match r with
  | Ok v => k v
  | Throw e => Thrown e doc
  end.

Section Sampler.
Variable JSON_parse : string -> option JValue.
(** [Value.Check(schema, value)] of the library. *)
Variable Check : JValue -> JValue -> bool.
Variable Composite : list JValue -> JValue -> Symbols * Fields.

(** The body of the response as the handler reads it: the inferred schema
    ([None] when the content type is not one it handles) and the value
    later given to [Value.Check]. *)
Definition readResponse (contentType : string) (text : string)
    : result (option JValue * JValue) :=
  if String.eqb contentType "application/json" then
    inferredSchema <- jsonStringToTypeboxSchema JSON_parse text ;;
    match JSON_parse text with
    | Some responseData => Ok (Some inferredSchema, responseData)
    | None => Throw SyntaxError
    end
  else if String.eqb contentType "text/html" || String.eqb contentType "text/plain"
  then Ok (Some (textStringToTypeboxSchema text), JStr text)
  else Ok (None, JStr text).

(** [c.res.clone().body] read as text, when it is not [null]. *)
Definition readBody (c : Context) (contentType : string)
    : result (option JValue * JValue) :=
  match body c with
  | Some text => readResponse contentType text
  | None => Ok (None, JStr "")
  end.

(** The branch taken when the stored schema is a reference object. *)
Definition mergeIntoReference (mode : SamplingMode)
    (cell : list string) (schemaObj inferredSchema responseData : JValue)
    (rootDoc : JValue) : Outcome :=
  match refIdOf (getProp schemaObj "$ref") with
  | Throw e => Thrown e rootDoc
  | Ok refId =>
  let refSchema := optGet (getProp rootDoc "components") "schemas" in
  match (stored <- mustGet refSchema refId ;; jsonSchemaToTypebox stored) with
  | Throw e => Thrown e rootDoc
  | Ok typeboxRefSchema =>
  let responsesEqual := isDeepEqual typeboxRefSchema inferredSchema ["example"] in
  let doc1 :=
    if hasProp schemaObj countKey
    then setPath (cell ++ [countKey]) (plusOne (getProp schemaObj countKey)) rootDoc
    else setPath (cell ++ [countKey]) (JNum 1) rootDoc in
  if responsesEqual then Returned doc1
  else
    let valueMatch := Check typeboxRefSchema responseData in
    if valueMatch then Returned doc1
    else
      match mode with
      | combine =>
          match flattenIntersections
                  (mergeObjectSchemas Composite typeboxRefSchema inferredSchema
                                      JUndefined) with
          | Throw e => Thrown e doc1
          | Ok mergedSchema =>
              Returned (setPath ["components"; "schemas"; refId]
                                (Strict mergedSchema) doc1)
          end
      | individual =>
          let mergedSchema :=
            if IsUnion typeboxRefSchema
            then setProp typeboxRefSchema "anyOf"
                   (match getProp typeboxRefSchema "anyOf" with
                    | JArr xs => JArr (xs ++ [inferredSchema])
                    | other => other
                    end)
            else Union [typeboxRefSchema; inferredSchema] noOptions in
          Returned (setPath ["components"; "schemas"; refId]
                            (Strict mergedSchema) doc1)
      end
  end
  end.

Definition newResponseSchema (ref : JValue) : JValue :=
  obj [("schema", obj [("$ref", ref); (countKey, JNum 1)])].

Definition snoopOnResponseHandler
    (handlerSampleOptions gSampleOptions : option SampleResponseOptions)
    (c : Context) (random : Num) (rootDoc : JValue) : Outcome :=
  let path := routePath c in
  let method := method c in
  let contentType := contentTypeOf (contentTypeHeader c) in
  let statusCode := status c in
  let pathObject := optGet (getProp rootDoc "paths") path in
  let prettyName := prettyNameOf path method contentType statusCode in
  let sampleInterval :=
    effective samplingInterval handlerSampleOptions gSampleOptions (Fin 1) in
  let maxResponsesToSample :=
    effective samplingMaxCount handlerSampleOptions gSampleOptions Infinity in
  let sampledCount := sampledCountOf rootDoc path method statusCode contentType in
  if gateSkips sampledCount maxResponsesToSample sampleInterval random
  then Returned rootDoc
  else
    match readBody c contentType with
    | Throw e => Thrown e rootDoc
    | Ok (None, _) => Returned rootDoc
    | Ok (Some inferredSchema, responseData) =>
      if negb (truthy pathObject && truthy (JStr contentType)) then Returned rootDoc
      else
        let methodObj := optGet (getProp pathObject method) "responses" in
        if negb (truthy methodObj) then Returned rootDoc
        else
          let statusKey := string_of_nat statusCode in
          let statusCodeObj := getProp methodObj statusKey in
          let responsesPath := ["paths"; path; method; "responses"] in
          if truthy statusCodeObj then
            if negb (isObjectLike statusCodeObj) then Thrown TypeError rootDoc
            else if negb (hasProp statusCodeObj "content") then Returned rootDoc
            else
              let content := getProp statusCodeObj "content" in
              if isNullish content then Thrown TypeError rootDoc
              else
                let contentTypeObj := getProp content contentType in
                if negb (defined contentTypeObj) then
                  match addBodyTypeToSchema prettyName inferredSchema rootDoc with
                  | Throw e => Thrown e rootDoc
                  | Ok r =>
                      Returned
                        (setPath (responsesPath ++ [statusKey; "content"; contentType])
                                 (newResponseSchema (reference r)) (OpenApi.rootDoc r))
                  end
                else
                  match (s <- mustGet contentTypeObj "schema" ;;
                         isRef <- isReferenceObject s ;; Ok (s, isRef)) with
                  | Throw e => Thrown e rootDoc
                  | Ok (schemaObj, true) =>
                      mergeIntoReference
                        (effective samplingMode handlerSampleOptions gSampleOptions
                                   individual)
                        (schemaCell path method statusCode contentType)
                        schemaObj inferredSchema responseData rootDoc
                  | Ok (_, false) => Returned rootDoc
                  end
          else
            match addBodyTypeToSchema prettyName inferredSchema rootDoc with
            | Throw e => Thrown e rootDoc
            | Ok r =>
                Returned
                  (setPath (responsesPath ++ [statusKey])
                     (obj [("description", JStr (STATUS_CODE_MAP statusCode));
                           ("content",
                            obj [(contentType, newResponseSchema (reference r))])])
                     (OpenApi.rootDoc r))
            end
    end.
End Sampler.

(* ---------------------------------------------------------------------- *)
(** ** addOrAugmentOpenApiRoute: route registration *)
(* ---------------------------------------------------------------------- *)

(** [\w] of a regular expression without the unicode flag. *)
Definition isWordChar (c : ascii) : bool :=
  let n := nat_of_ascii c in
  ((48 <=? n) && (n <=? 57)) || ((65 <=? n) && (n <=? 90))
  || ((97 <=? n) && (n <=? 122)) || (n =? 95).

(** State of a left-to-right scan for the matches of [/\/:\w*/g]: nothing
    pending, a [/] just read, or inside a match whose text so far is kept. *)
Inductive Scan : Type :=
| Idle
| Slash
| InMatch (text : string).

(** [path.match(/\/:\w*/g)]: all matches, left to right ([null] is the
    empty list).  A match starts at [/:] and takes every following word
    character; the search goes on after the end of the match. *)
Fixpoint matchAll (st : Scan) (s : string) : list string :=
  match s with
  | EmptyString =>
      match st with
      | InMatch text => [text]
      | _ => []
      end
  | String c rest =>
      match st with
      | Idle => matchAll (if Ascii.eqb c "/" then Slash else Idle) rest
      | Slash =>
          if Ascii.eqb c ":" then matchAll (InMatch "/:") rest
          else matchAll (if Ascii.eqb c "/" then Slash else Idle) rest
      | InMatch text =>
          if isWordChar c then matchAll (InMatch (text +++ String c EmptyString)) rest
          else text :: matchAll (if Ascii.eqb c "/" then Slash else Idle) rest
      end
  end.

Definition matchPathParams (path : string) : list string := matchAll Idle path.

(** The inline parameter pushed for a match [p]. *)
Definition inferredPathParameter (p : string) : JValue :=
  obj [("in", JStr "path");
       ("name", JStr (substring 2 (String.length p - 2) p));
       ("schema", String_ noOptions);
       ("required", JBool true)].

(** A declared validation schema for one location: a [TObject] whose
    property schemas are objects of the store. *)
Record ObjectSchema : Type := mkObjectSchema {
  properties : list (string * nat);
  required : JValue                       (* definition.required *)
}.

(** [OpenApiMiddlewareFunction['inferred']]. *)
Record ValidationSchemas : Type := mkValidation {
  v_json : option nat;
  v_query : option ObjectSchema;
  v_cookie : option ObjectSchema;
  v_header : option ObjectSchema;
  v_param : option ObjectSchema
}.

Definition noValidation : ValidationSchemas := mkValidation None None None None None.

(** The parameter object built for the property [name] of a declared schema. *)
Definition parameterObject (type name : string) (definitionRequired schema : JValue)
    : result JValue :=
  req <- optIncludes definitionRequired name ;;
  let examples := getProp schema "examples" in
  let exampleIsArray := isArray examples in
  Ok (obj [("in", JStr type);
           ("name", JStr name);
           ("schema", schema);
           ("required", JBool req);
           ("examples", if exampleIsArray then examples else JUndefined);
           ("example", if exampleIsArray then JUndefined else examples)]).

(** [addParameter(type, typeSchema)]: one reference per declared property,
    appended to [parameters]. *)
Definition addParameterFor (type : string) (typeSchema : option ObjectSchema)
    (acc : list JValue * Store) : result (list JValue * Store) :=
  match typeSchema with
  | None => Ok acc
  | Some definition =>
      fold_left
        (fun state entry =>
           ps_st <- state ;;
           let '(parameters, st) := ps_st in
           let '(name, a) := entry in
           parameterObj <- parameterObject type name (required definition) (nodes st a) ;;
           ref_st <- addParameterToSchemaAt parameterObj a st ;;
           Ok (parameters ++ [obj [("$ref", fst ref_st)]], snd ref_st))
        (properties definition) (Ok acc)
  end.

(** The references of the declared query, cookie and header parameters. *)
Definition declaredParameters (validationSchema : ValidationSchemas) (st : Store)
    : result (list JValue * Store) :=
  s1 <- addParameterFor "query" (v_query validationSchema) ([], st) ;;
  s2 <- addParameterFor "cookie" (v_cookie validationSchema) s1 ;;
  addParameterFor "header" (v_header validationSchema) s2.

(** The [parameters] array of the operation. *)
Definition routeParameters (validationSchema : ValidationSchemas) (path : string)
    (st : Store) : result (list JValue * Store) :=
  s3 <- declaredParameters validationSchema st ;;
  match v_param validationSchema with
  | Some param => addParameterFor "path" (Some param) s3
  | None =>
      if truthy (JStr path)
      then Ok (fst s3 ++ map inferredPathParameter (matchPathParams path), snd s3)
      else Ok s3
  end.

Definition addOrAugmentOpenApiRoute (defaultTag : JValue)
    (method path : string) (routeDefinition : JValue)
    (validationSchema : ValidationSchemas) (st : Store) : result Store :=
  let rd := nullish routeDefinition (obj []) in
  let operationId :=
    nullish (optGet routeDefinition "operationId")
            (JStr (method +++ capitalizedRoute path)) in
  let openApiRootDoc := document st in
  let existingSpec := optGet (optGet (getProp openApiRootDoc "paths") path) method in
  if negb (defined routeDefinition) && defined existingSpec then Ok st
  else
    body <- match v_json validationSchema with
            | None => Ok (JUndefined, st)
            | Some a =>
                r <- addBodyTypeToSchemaAt
                       (capitalizedRoute path +++ "Request_" +++ method) a st ;;
                Ok (obj [("content",
                          obj [("application/json",
                                obj [("schema", obj [("$ref", fst r)])])])],
                    snd r)
            end ;;
    ps <- routeParameters validationSchema path (snd body) ;;
    let keep k := nullish (getProp rd k) (optGet existingSpec k) in
    let operation :=
      obj [("summary", keep "summary");
           ("description", keep "description");
           ("deprecated", keep "deprecated");
           ("tags", if truthy (nullish (getProp rd "tags") defaultTag)
                    then JArr [defaultTag] else JUndefined);
           ("externalDocs", keep "externalDocs");
           ("operationId", operationId);
           ("requestBody", fst body);
           ("parameters", JArr (fst ps));
           ("security", keep "security");
           ("responses", nullish (optGet existingSpec "responses") (obj []))] in
    let pathInfo :=
      setField method operation
        [("$ref", getProp rd "$ref"); ("servers", keep "servers")] in
    Ok (mkStore (addPath path pathInfo (document (snd ps))) (nodes (snd ps))).

End OpenApi.

(* ====================================================================== *)
(** * index.ts: which routes are documented *)
(* ====================================================================== *)

Module Routing.
Import TypeBox TypeSystem OpenApi Helpers.

(** An entry of [excludePaths]: a string, or a regular expression given by
    its [test] (one without the [g] and [y] flags, whose [test] keeps no
    state). *)
Inductive PathSpec : Type :=
| Str (s : string)
| Reg (test : string -> bool).

(** The options of the instance that route registration reads. *)
Record RouteOptions : Type := mkRouteOptions {
  excludePaths : OneOrMany PathSpec;
  excludeMethod : OneOrMany string;
  defaultTag : JValue;                  (* openApi?.defaultTag *)
  basePath : string                     (* this._basePath *)
}.

(** What the constructor stores: both exclusion options go through
    [arrayify]. *)
Definition storedOptions (options : RouteOptions) : RouteOptions :=
  mkRouteOptions (arrayify (excludePaths options)) (arrayify (excludeMethod options))
                 (defaultTag options) (basePath options).

Definition neverHappens : Error :=
  ErrorMsg "Excluded paths should be an array. This behavior is enforced in the constructor. Code path should never happen.".

(** [isExcludedRoute(path, method)]; [None] is [undefined], the value of
    [excludePaths?.some(...)] when no paths are excluded. *)
Definition isExcludedRoute (openApiOptions : RouteOptions) (path method : string)
    : result (option bool) :=
  let byMethod :=
    match excludeMethod openApiOptions with
    | Many methods => existsb (String.eqb method) methods
    | _ => false
    end in
  if byMethod then Ok (Some true)
  else
    match excludePaths openApiOptions with
    | Many specs =>
        Ok (Some (existsb (fun strOrReg =>
                             match strOrReg with
                             | Str s => String.eqb path s
                             | Reg test => test path
                             end) specs))
    | Missing => Ok None
    | One _ => Throw neverHappens
    end.

Definition lowerAscii (c : ascii) : ascii :=
  let n := nat_of_ascii c in
  if (65 <=? n) && (n <=? 90) then ascii_of_nat (n + 32) else c.

(** [method.toLowerCase()] of a method name, which is ASCII. *)
Fixpoint toLowerCase (s : string) : string :=
  match s with
  | EmptyString => EmptyString
  | String c rest => String (lowerAscii c) (toLowerCase rest)
  end.

(** A handler given to a route: an [openApi(...)] middleware with its
    [openApiData] and [inferred] schemas, or any other function. *)
Inductive Handler : Type :=
| OpenApiMiddleware (openApiData : JValue) (inferred : ValidationSchemas)
| Plain.

Section AddRoute.
Variable METHODS : list string.

(** What [addRoute(method, path, handler)] does to the document and the
    schema objects (the route is also handed to the router of hono). *)
Definition addRoute (openApiOptions : RouteOptions) (method path : string)
    (handler : Handler) (st : Store) : result Store :=
  let method := toLowerCase method in
  let path := mergePath [basePath openApiOptions; path] in
  if isValidHttpMethod METHODS method && negb (String.eqb method "all") then
    excluded <- isExcludedRoute openApiOptions path method ;;
    match excluded with
    | Some true => Ok st
    | _ =>
        match handler with
        | OpenApiMiddleware openApiData inferred =>
            addOrAugmentOpenApiRoute (defaultTag openApiOptions) method path
                                     openApiData inferred st
        | Plain =>
            addOrAugmentOpenApiRoute (defaultTag openApiOptions) method path
                                     JUndefined noValidation st
        end
    end
  else Ok st.
End AddRoute.

End Routing.

(* ====================================================================== *)
(** * Notions used in the statements *)
(* ====================================================================== *)

Module Notions.
Import OpenApi.

Definition isObj (v : JValue) : bool :=
  match v with JObj _ _ => true | _ => false end.

(** Every value met when following [path] from [v], the last included, is
    an object. *)
Fixpoint isObjectPath (path : list string) (v : JValue) : bool :=
  match v with
  | JObj _ _ =>
      match path with
      | [] => true
      | k :: rest => isObjectPath rest (getProp v k)
      end
  | _ => false
  end.

(** Two access paths that part at some key: neither leads into the other. *)
Inductive diverges : list string -> list string -> Prop :=
| diverges_here k k' p q : k <> k' -> diverges (k :: p) (k' :: q)
| diverges_later k p q : diverges p q -> diverges (k :: p) (k :: q).

(** A schema node as the registrations expect it: an object whose
    [open_api_ref], when set, is an object (the declared type of the
    field). *)
Definition nodeOk (schema : JValue) : bool :=
  isObj schema
  && (isObj (getProp schema "open_api_ref")
      || negb (truthy (getProp schema "open_api_ref"))).

(** The parameters registered so far: [components.parameters]. *)
Definition parametersOf (doc : JValue) : JValue :=
  getProp (getProp doc "components") "parameters".

(** A document whose [components] is an object and whose
    [components.parameters] is an object or not there yet. *)
Definition docOk (doc : JValue) : bool :=
  isObj doc && isObj (getProp doc "components")
  && (isObj (parametersOf doc) || negb (defined (parametersOf doc))).

(** The table the probe looks names up in: [components.parameters], or
    the empty object put there when it is [undefined]. *)
Definition parametersTable (doc : JValue) : JValue :=
  if defined (parametersOf doc) then parametersOf doc else obj [].

(** The document once the table is in place:
    [if (parameters === undefined) components.parameters = {}]. *)
Definition withTable (doc : JValue) : JValue :=
  if defined (parametersOf doc) then doc
  else setPath ["components"; "parameters"] (obj []) doc.

(** [p], whose schema is the node [n], compared by the probe with the entry
    stored for [q], whose schema is the node [m]: structural equality that
    ignores the reference map. *)
Definition equalsStored (p n q m : JValue) : bool :=
  isDeepEqual (asPassed p n) (parameterCopy (asPassed q m) m) ["open_api_ref"].

(** A parameter object named [lang] for the location [query], with a
    schema node that carries no reference for that location yet. *)
Definition freshLangQuery (p n : JValue) : bool :=
  isObj p
  && strictEq (getProp p "in") (JStr "query")
  && strictEq (getProp p "name") (JStr "lang")
  && nodeOk n
  && negb (takesFastPath (asPassed p n) n).

(** ** The recursion bound of the model *)

(** A computation that ends within the bound: it returns or throws what
    the source throws. *)
Definition finishes {A : Type} (c : result A) : Prop := c <> Throw OutOfFuel.

Definition isDigit (c : ascii) : bool :=
  let n := nat_of_ascii c in (48 <=? n) && (n <=? 57).

(** A property key that is no array index: it does not start with a digit. *)
Definition isName (k : string) : bool :=
  match k with
  | EmptyString => true
  | String c _ => negb (isDigit c)
  end.

(** A document that routes can be added to: an object whose [paths], when
    set, is an object. *)
Definition routeDocOk (doc : JValue) : bool :=
  isObj doc
  && (isObj (getProp doc "paths") || negb (truthy (getProp doc "paths"))).

(** ** Route paths as lists of segments *)

Inductive Segment : Type :=
| Static (text : string)               (* /text *)
| Param (name suffix : string).        (* /:name followed by suffix *)

Definition render (seg : Segment) : string :=
  match seg with
  | Static text => "/" +++ text
  | Param name suffix => "/:" +++ name +++ suffix
  end.

Definition pathOf (segs : list Segment) : string :=
  fold_right (fun seg rest => render seg +++ rest) "" segs.

Fixpoint allChars (p : ascii -> bool) (s : string) : bool :=
  match s with
  | EmptyString => true
  | String c rest => p c && allChars p rest
  end.

Definition notSlash (c : ascii) : bool := negb (Ascii.eqb c "/").

Definition startsWith (p : ascii -> bool) (s : string) : bool :=
  match s with
  | EmptyString => false
  | String c _ => p c
  end.

(** A static segment holds no [/] and does not start with [:]; the name of
    a parameter is made of word characters, and what follows it in the
    segment (an optional marker, a pattern in braces) holds no [/] and does
    not start with a word character. *)
Definition segmentOk (seg : Segment) : bool :=
  match seg with
  | Static text =>
      allChars notSlash text && negb (startsWith (fun c => Ascii.eqb c ":") text)
  | Param name suffix =>
      allChars isWordChar name && allChars notSlash suffix
      && negb (startsWith isWordChar suffix)
  end.

(** The match a scan still has to report when the text ends. *)
Definition pending (st : Scan) : list string :=
  match st with
  | InMatch text => [text]
  | _ => []
  end.

Definition paramNames (segs : list Segment) : list string :=
  flat_map (fun seg => match seg with
                       | Static _ => []
                       | Param name _ => [name]
                       end) segs.

(** The inline path parameter named [name]. *)
Definition inlinePathParameter (name : string) : JValue :=
  obj [("in", JStr "path");
       ("name", JStr name);
       ("schema", TypeBox.String_ TypeBox.noOptions);
       ("required", JBool true)].

Definition isReference (v : JValue) : bool :=
  match v with
  | JObj _ [("$ref", _)] => true
  | _ => false
  end.

End Notions.
Import Notions.

(* ====================================================================== *)
(** * Sample documents and requests *)
(* ====================================================================== *)

Module Examples.
Import TypeBox OpenApi Notions.

(** Instances of the library functions for the sample runs below, none of
    which reaches them: a [JSON.parse] that rejects its input, a
    [Value.Check] that rejects every value, a [Type.Composite] of no
    property. *)
Definition parseNothing : string -> option JValue := fun _ => None.
Definition checkNothing : JValue -> JValue -> bool := fun _ _ => false.
Definition compositeNothing : list JValue -> JValue -> Symbols * Fields :=
  fun _ _ => (mkSym (Some "Object") false, [("type", JStr "object")]).

(** A document with one route, [GET /t], one response (200, text/plain)
    whose schema refers to [components.schemas[name]], sampled [count]
    times. *)
Definition responseDoc (name : string) (stored : JValue) (count : Z) : JValue :=
  obj [("openapi", JStr "3.1.0");
       ("info", obj [("title", JStr "OpenApi Spec"); ("version", JStr "0.0.0")]);
       ("components", obj [("schemas", obj [(name, stored)])]);
       ("paths",
        obj [("/t",
          obj [("get",
            obj [("operationId", JStr "getT");
                 ("parameters", JArr []);
                 ("responses",
                  obj [("200",
                    obj [("description", JStr "Success");
                         ("content",
                          obj [("text/plain",
                            obj [("schema",
                              obj [("$ref", JStr ("#/components/schemas/" +++ name));
                                   (countKey, JNum count)])])])])])])])])].

(** [c.text('OK')] answered on [GET /t]. *)
Definition textOK : Context :=
  mkContext "/t" "get" (Some "text/plain; charset=UTF-8") 200 (Some "OK").

(** The document after one observation of [textOK]. *)
Definition sampledOnce : JValue :=
  responseDoc "TResponse_get_text_plain_200"
              (obj [("example", JStr "OK"); ("type", JStr "string")]) 1.

(** The same document after [2^53] observations. *)
Definition sampledOften : JValue :=
  responseDoc "TResponse_get_text_plain_200"
              (obj [("example", JStr "OK"); ("type", JStr "string")]) (2 ^ 53).

(** A hand-written document whose referenced schema is the empty schema
    [{}], which accepts anything. *)
Definition emptySchemaDoc : JValue := responseDoc "Anything" (obj []) 1.

(** ** Schemas *)

Definition exampleString (e : string) : JValue :=
  String_ (obj [("example", JStr e)]).

(** An object type whose property [a] is an intersection of two string
    types that differ by their example only. *)
Definition nestedObject : JValue :=
  Object [("a", Intersect [exampleString "x"; exampleString "y"] noOptions)]
         noOptions.

(** What flattening makes of [nestedObject]. *)
Definition flatObject : JValue := Object [("a", exampleString "x")] noOptions.

(** [nestedObject] intersected with a number type. *)
Definition mixedIntersection : JValue :=
  Intersect [nestedObject; Number noOptions] noOptions.

(** [nestedObject] intersected with itself. *)
Definition twinIntersection : JValue :=
  Intersect [nestedObject; nestedObject] noOptions.

(** ** Parameters *)

(** [Type.String({ examples: e })], a property schema of a declared query. *)
Definition languageCode (e : string) : JValue :=
  String_ (obj [("examples", JStr e)]).

(** The parameter object of the property [lang] of a declared query. *)
Definition langQuery (schema : JValue) : JValue :=
  obj [("in", JStr "query"); ("name", JStr "lang"); ("schema", schema);
       ("required", JBool true); ("examples", JUndefined);
       ("example", getProp schema "examples")].

(** [Type.String({ examples: e })] for any value [e]. *)
Definition examplesNode (e : JValue) : JValue :=
  String_ (obj [("examples", e)]).

(** A fresh instance: nothing registered yet. *)
Definition emptyDoc : JValue :=
  obj [("openapi", JStr "3.1.0");
       ("info", obj [("title", JStr "OpenApi Spec"); ("version", JStr "0.0.0")]);
       ("components", obj [])].

(** Three schema objects: [de] at address 0, [en] at addresses 1 and 2. *)
Definition threeNodes : nat -> JValue :=
  fun a => match a with
           | 0 => languageCode "de"
           | _ => languageCode "en"
           end.

Definition freshStore : Store := mkStore emptyDoc threeNodes.

(** Three schema objects whose examples are a number, an object without
    keys and a boolean, at the addresses 0, 1 and 2, on a fresh instance. *)
Definition mixedNodes : nat -> JValue :=
  fun a => match a with
           | 0 => examplesNode (JNum 5)
           | 1 => examplesNode (obj [])
           | _ => examplesNode (JBool true)
           end.

Definition mixedStore : Store := mkStore emptyDoc mixedNodes.

(** The route of the test [pathsInferred]: [/foo/:bar/bas/:baz]. *)
Definition fooBarSegments : list Segment :=
  [Static "foo"; Param "bar" ""; Static "bas"; Param "baz" ""].

(** A response that announces JSON and carries text that is not JSON. *)
Definition brokenJson : Context :=
  mkContext "/t" "get" (Some "application/json") 200 (Some "oops").

End Examples.

(* ====================================================================== *)
(** * Further notions used in the statements *)
(* ====================================================================== *)

Module MoreNotions.
Import TypeBox TypeSystem TypeboxUtils Helpers OpenApi Routing Examples.

(** ** Paths and options *)

(** The path of one round, with its leading slash. *)
Definition rooted (path : string) : string :=
  if negb (isSlash (firstChar path)) then "/" +++ path else path.

(** The one error of [deepCloneAndMerge]. *)
Definition mergeConflict (path : string) : Error :=
  ErrorMsg ("Can not deep merge array and object. path: " +++ path).

(** The property names every object inherits from [Object.prototype]. *)
Definition inheritedNames : list string :=
  ["constructor"; "__proto__"; "hasOwnProperty"; "isPrototypeOf";
   "propertyIsEnumerable"; "toLocaleString"; "toString"; "valueOf";
   "__defineGetter__"; "__defineSetter__"; "__lookupGetter__"; "__lookupSetter__"].

(** No object inside [v] has a key of a name it also inherits: [o[key]]
    for a key of such objects is the own property of [o], or [undefined]. *)
Fixpoint plainKeys (v : JValue) : bool :=
  match v with
  | JArr xs => forallb plainKeys xs
  | JObj _ fs =>
      forallb (fun kv => negb (existsb (String.eqb (fst kv)) inheritedNames)
                         && plainKeys (snd kv)) fs
  | _ => true
  end.

(** The values an option of type [T | T[] | undefined] lists. *)
Definition entriesOf {A : Type} (x : OneOrMany A) : list A :=
  match x with
  | Missing => []
  | One a => [a]
  | Many l => l
  end.

(** A path is matched by an entry of [excludePaths]. *)
Definition matchesSpec (path : string) (spec : PathSpec) : bool :=
  match spec with
  | Str s => String.eqb path s
  | Reg test => test path
  end.

(** The methods of hono's router. *)
Definition honoMethods : list string :=
  ["get"; "post"; "put"; "delete"; "options"; "patch"].

(** The options of the test [ignore routes string]. *)
Definition excludeFoo : RouteOptions :=
  mkRouteOptions (One (Str "/foo")) Missing JUndefined "/".

(** ** JSON values and the schemas inferred from them *)

(** No key occurs twice. *)
Fixpoint uniqueKeys (ks : list string) : bool :=
  match ks with
  | [] => true
  | k :: rest => negb (existsb (String.eqb k) rest) && uniqueKeys rest
  end.

(** A value of a JSON text whose inferred schema is stored and read back
    as it is: objects with distinct keys, arrays that are not empty and
    whose elements are inferred to one type. *)
Fixpoint regular (v : JValue) : bool :=
  match v with
  | JUndefined | JNaN => false
  | JNull | JBool _ | JNum _ | JStr _ => true
  | JArr xs =>
      match xs with
      | [] => false
      | x :: _ => regular x
      end && haveSameType (map revive xs)
  | JObj _ fs =>
      uniqueKeys (map fst fs) && forallb (fun kv => regular (snd kv)) fs
  end.


Section SameFields.
Variable same : JValue -> JValue -> bool.

(** The same keys in the same order, with values that are pairwise [same]. *)
Fixpoint sameFields (fs gs : Fields) : bool :=
  match fs, gs with
  | [], [] => true
  | (k, a) :: fs', (k', b) :: gs' => String.eqb k k' && same a b && sameFields fs' gs'
  | _, _ => false
  end.
End SameFields.

(** Two JSON values of one shape: they differ by their numbers, strings
    and booleans, and by what follows the first element of an array. *)
Fixpoint sameShape (v w : JValue) : bool :=
  match v, w with
  | JNull, JNull | JBool _, JBool _ | JNum _, JNum _ | JStr _, JStr _ => true
  | JArr (x :: _), JArr (y :: _) => sameShape x y
  | JObj _ fs, JObj _ gs => sameFields sameShape fs gs
  | _, _ => false
  end.

(** ** Registered schemas *)

(** The schemas registered so far: [components.schemas]. *)
Definition schemasOf (doc : JValue) : JValue :=
  getProp (getProp doc "components") "schemas".

(** A document whose [components] is an object and whose
    [components.schemas] is an object or not there yet. *)
Definition schemasOk (doc : JValue) : bool :=
  isObj doc && isObj (getProp doc "components")
  && (isObj (schemasOf doc) || negb (truthy (schemasOf doc))).

(** ** Observed responses and registered routes *)

(** A registered route, [GET /t], that has no response yet. *)
Definition registeredDoc : JValue :=
  obj [("openapi", JStr "3.1.0");
       ("info", obj [("title", JStr "OpenApi Spec"); ("version", JStr "0.0.0")]);
       ("components", obj []);
       ("paths",
        obj [("/t",
          obj [("get",
            obj [("operationId", JStr "getT");
                 ("parameters", JArr []);
                 ("responses", obj [])])])])].

(** Another [c.text(...)] answered on [GET /t]. *)
Definition textFine : Context :=
  mkContext "/t" "get" (Some "text/plain; charset=UTF-8") 200 (Some "fine").

(** A string of ASCII characters: on these a character of the source is a
    character here, and [toUpperCase] is [upperAscii]. *)
Fixpoint asciiOnly (s : string) : bool :=
  match s with
  | EmptyString => true
  | String c rest => (nat_of_ascii c <? 128) && asciiOnly rest
  end.

(** The document a run of the handler leaves behind. *)
Definition documentOf (o : Outcome) : JValue :=
  match o with
  | Returned doc => doc
  | Thrown _ doc => doc
  end.

(** The operation stored for [method] on [path]. *)
Definition operationOf (doc : JValue) (path method : string) : JValue :=
  getPath ["paths"; path; method] doc.

(** A route definition that names a tag, and one that gives a summary. *)
Definition taggedRoute : JValue := obj [("tags", JArr [JStr "users"])].
Definition describedRoute : JValue := obj [("summary", JStr "Says OK")].

(** An instance whose route [GET /t] has been observed once. *)
Definition sampledStore : Store := mkStore sampledOnce threeNodes.

(** ** Values without some properties *)

(** [v] with the properties named in [propsToIgnore] removed from every
    object inside it. *)
Fixpoint without (propsToIgnore : list string) (v : JValue) : JValue :=
  match v with
  | JArr xs => JArr (map (without propsToIgnore) xs)
  | JObj sy fs =>
      JObj sy
        ((fix go (l : Fields) : Fields :=
            match l with
            | [] => []
            | (k, x) :: rest =>
                if existsb (String.eqb k) propsToIgnore then go rest
                else (k, without propsToIgnore x) :: go rest
            end) fs)
  | _ => v
  end.

Fixpoint withoutFields (propsToIgnore : list string) (l : Fields) : Fields :=
  match l with
  | [] => []
  | (k, x) :: rest =>
      if existsb (String.eqb k) propsToIgnore then withoutFields propsToIgnore rest
      else (k, without propsToIgnore x) :: withoutFields propsToIgnore rest
  end.

(** Every object inside [v] has distinct keys, as every object of the
    language has. *)
Fixpoint distinctKeys (v : JValue) : bool :=
  match v with
  | JArr xs => forallb distinctKeys xs
  | JObj _ fs =>
      uniqueKeys (map fst fs) && forallb (fun kv => distinctKeys (snd kv)) fs
  | _ => true
  end.

(** Every key of [fs] is among [propsToIgnore]. *)
Definition allIgnored (propsToIgnore : list string) (fs : Fields) : bool :=
  forallb (fun k => existsb (String.eqb k) propsToIgnore) (map fst fs).

(** ** Members of an intersection *)

(** The members [flattenIntersections] takes as they are. *)
Definition isPrimitiveType (v : JValue) : bool :=
  IsString v || IsBoolean v || IsNumber v || IsNull v.

(** Two schemas that differ by examples at most. *)
Definition similar (s v : JValue) : bool := isDeepEqual s v ["example"].

(** What an intersection is flattened to when [kept] are the members left. *)
Definition consolidated (kept : list JValue) (schema : JValue) : JValue :=
  if 1 <? List.length kept then Intersect kept schema else nth 0 kept JUndefined.

(** Two strings that differ by their example, with a number between them;
    two such strings alone; a string and a union. *)
Definition stringNumberString : JValue :=
  Intersect [Examples.exampleString "x"; Number noOptions; Examples.exampleString "y"]
            noOptions.
Definition twoStrings : JValue :=
  Intersect [Examples.exampleString "x"; Examples.exampleString "y"] noOptions.
Definition stringOrNumber : JValue :=
  Union [String_ noOptions; Number noOptions] noOptions.
Definition stringAndUnion : JValue :=
  Intersect [String_ noOptions; stringOrNumber] noOptions.

(** One round of the [forEach] over the members of an intersection, on
    the members kept so far; [n] bounds the recursion into a member. *)
Definition consolidateStep (n : nat) (acc : result (list JValue)) (v : JValue)
    : result (list JValue) :=
  dedup <- acc ;;
  flattenedType <-
    (if TypeBox.IsArray v || IsObject v
     then flattenIntersections_fuel n v
     else if IsString v || IsBoolean v || IsNumber v || IsNull v
     then Ok v
     else Throw (unsupportedByFlatten v)) ;;
  let similarExists :=
    existsb (fun s => isDeepEqual s v ["example"]) dedup in
  if negb similarExists then Ok (dedup ++ [v]) else Ok dedup.

(** ** Names *)

(** [s.includes(c)] for a character [c]. *)
Fixpoint hasChar (c : ascii) (s : string) : bool :=
  match s with
  | EmptyString => false
  | String d rest => Ascii.eqb d c || hasChar c rest
  end.

(** The name under which the request body of a route is registered. *)
Definition requestNameOf (path method : string) : string :=
  capitalizedRoute path +++ "Request_" +++ method.

End MoreNotions.
Import MoreNotions.

(* ====================================================================== *)
(** * Facts about objects and access paths *)
(* ====================================================================== *)

Module JSFacts.

Lemma lookup_setField_same (k : string) (v : JValue) (fs : Fields) :
  lookup k (setField k v fs) = Some v.
Proof.
  induction fs as [|[k' v'] fs IH]; simpl.
  - now rewrite String.eqb_refl.
  - destruct (String.eqb k k') eqn:E; simpl.
    + now rewrite String.eqb_refl.
    + now rewrite E.
Qed.

Lemma lookup_setField_other (k k' : string) (v : JValue) (fs : Fields) :
  k <> k' -> lookup k' (setField k v fs) = lookup k' fs.
Proof.
  intros Hne. induction fs as [|[k0 v0] fs IH]; simpl.
  - destruct (String.eqb k' k) eqn:E; [|reflexivity].
    apply String.eqb_eq in E. congruence.
  - destruct (String.eqb k k0) eqn:E; simpl.
    + apply String.eqb_eq in E. subst k0.
      destruct (String.eqb k' k) eqn:E'; [|reflexivity].
      apply String.eqb_eq in E'. congruence.
    + now rewrite IH.
Qed.

Lemma getProp_setProp_same (sy : Symbols) (fs : Fields) (k : string) (x : JValue) :
  getProp (setProp (JObj sy fs) k x) k = x.
Proof. simpl. now rewrite lookup_setField_same. Qed.

Lemma getProp_setProp_other (v : JValue) (k k' : string) (x : JValue) :
  k <> k' -> getProp (setProp v k x) k' = getProp v k'.
Proof.
  intros Hne. destruct v; try reflexivity.
  simpl. now rewrite lookup_setField_other.
Qed.

Lemma isObj_inv (v : JValue) : isObj v = true -> exists sy fs, v = JObj sy fs.
Proof. destruct v; try discriminate. intros _. eauto. Qed.

Lemma isObj_setProp (v : JValue) (k : string) (x : JValue) :
  isObj (setProp v k x) = isObj v.
Proof. now destruct v. Qed.

Lemma isObj_setPath (p : list string) (x v : JValue) :
  p <> [] -> isObj (setPath p x v) = isObj v.
Proof. destruct p; [congruence|]. intros _. simpl. apply isObj_setProp. Qed.

Lemma getProp_isObj_hasProp (sy : Symbols) (fs : Fields) (k : string) :
  isObj (getProp (JObj sy fs) k) = true -> hasProp (JObj sy fs) k = true.
Proof.
  simpl. unfold hasField. destruct (lookup k fs); [reflexivity | discriminate].
Qed.

Lemma getPath_app (p q : list string) (v : JValue) :
  getPath (p ++ q) v = getPath q (getPath p v).
Proof. revert v. induction p as [|k p IH]; intros v; simpl; auto. Qed.

(** Writing at [p] does not change what is read at a path that parts from [p]. *)
Lemma getPath_setPath_diverges (p q : list string) (x v : JValue) :
  diverges p q -> getPath q (setPath p x v) = getPath q v.
Proof.
  intros D. revert v. induction D as [k k' p q Hne | k p q D IH]; intros v; simpl.
  - now rewrite getProp_setProp_other.
  - destruct v; try reflexivity.
    rewrite getProp_setProp_same. apply IH.
Qed.

Lemma isObjectPath_isObj (p : list string) (v : JValue) :
  isObjectPath p v = true -> isObj v = true.
Proof. destruct p, v; simpl; auto; discriminate. Qed.

Lemma isObjectPath_cons (k : string) (p : list string) (v : JValue) :
  isObjectPath (k :: p) v = true ->
  isObj v = true /\ isObjectPath p (getProp v k) = true.
Proof. destruct v; simpl; try discriminate. auto. Qed.

Lemma isObjectPath_app (p q : list string) (v : JValue) :
  isObjectPath (p ++ q) v = true ->
  isObjectPath p v = true /\ isObjectPath q (getPath p v) = true.
Proof.
  revert v. induction p as [|k p IH]; intros v H; simpl in *.
  - split; [|assumption]. destruct v, q; simpl in *; congruence.
  - destruct v; try discriminate. apply IH in H. exact H.
Qed.

(** Reading back the cell just written, when the way to it exists. *)
Lemma getPath_setPath_same (p : list string) (k : string) (x v : JValue) :
  isObjectPath p v = true ->
  getPath (p ++ [k]) (setPath (p ++ [k]) x v) = x.
Proof.
  revert v. induction p as [|k0 p IH]; intros v H.
  - destruct v; try discriminate. simpl. now rewrite lookup_setField_same.
  - apply isObjectPath_cons in H. destruct H as [Hv Hp].
    apply isObj_inv in Hv. destruct Hv as (sy & fs & ->).
    change (getPath ((k0 :: p) ++ [k]) (setPath ((k0 :: p) ++ [k]) x (JObj sy fs)))
      with (getPath (p ++ [k])
              (getProp (setProp (JObj sy fs) k0
                          (setPath (p ++ [k]) x (getProp (JObj sy fs) k0))) k0)).
    rewrite getProp_setProp_same. now apply IH.
Qed.

Lemma isObj_truthy (v : JValue) : isObj v = true -> truthy v = true.
Proof. now destruct v. Qed.

Lemma isObj_not_nullish (v : JValue) : isObj v = true -> isNullish v = false.
Proof. now destruct v. Qed.

Lemma isObj_defined (v : JValue) : isObj v = true -> defined v = true.
Proof. now destruct v. Qed.

Lemma isObj_objectLike (v : JValue) : isObj v = true -> isObjectLike v = true.
Proof. now destruct v. Qed.

Lemma getProp_defined_hasProp (v : JValue) (k : string) :
  isObj v = true -> defined (getProp v k) = true -> hasProp v k = true.
Proof.
  destruct v; try discriminate. intros _. simpl. unfold hasField.
  destruct (lookup k fs); [reflexivity | discriminate].
Qed.

Lemma optGet_obj (v : JValue) (k : string) :
  isObj v = true -> OpenApi.optGet v k = getProp v k.
Proof. intros H. unfold OpenApi.optGet. now rewrite (isObj_not_nullish v H). Qed.

End JSFacts.
Import JSFacts.

(* ====================================================================== *)
(** * isDeepEqual: the recursion bound *)
(* ====================================================================== *)

Module EqualFacts.

Lemma forallb_ext_in {A : Type} (f g : A -> bool) (l : list A) :
  (forall x, In x l -> f x = g x) -> forallb f l = forallb g l.
Proof.
  induction l as [|x l IH]; intros H; [reflexivity|].
  cbn [forallb]. rewrite (H x (or_introl eq_refl)), IH; [reflexivity|].
  intros y Hy. apply H. now right.
Qed.

Lemma height_element (x : JValue) (xs : list JValue) :
  In x xs -> height x < height (JArr xs).
Proof.
  cbn [height]. induction xs as [|y xs IH]; intros H; [destruct H|].
  cbn [fold_right]. destruct H as [-> | H]; [lia|]. apply IH in H. lia.
Qed.

Lemma height_field (k : string) (x : JValue) (sy : Symbols) (fs : Fields) :
  lookup k fs = Some x -> height x < height (JObj sy fs).
Proof.
  cbn [height]. induction fs as [|[k' y] fs IH]; intros H; [discriminate|].
  cbn [lookup] in H. cbn [fold_right snd].
  destruct (String.eqb k k').
  - injection H as ->. lia.
  - apply IH in H. lia.
Qed.

(** A property is less nested than its holder. *)
Lemma height_getProp (v : JValue) (k : string) :
  height (getProp v k) <= pred (height v).
Proof.
  destruct v as [ | | b | z | | s | xs | sy fs ]; cbn [getProp height]; try lia.
  - destruct (indexOfKey k (String.length s)) as [i|]; cbn [height]; [|lia].
    destruct (nth_in_or_default i (map JStr (chars s)) JUndefined) as [H | ->];
      [|cbn [height]; lia].
    apply in_map_iff in H. destruct H as (c & <- & _). cbn [height]. lia.
  - destruct (indexOfKey k (List.length xs)) as [i|]; cbn [height]; [|lia].
    destruct (nth_in_or_default i xs JUndefined) as [H | ->]; [|cbn [height]; lia].
    apply height_element in H. cbn [height] in H. cbn [pred]. lia.
  - destruct (lookup k fs) as [x|] eqn:E; cbn [height]; [|lia].
    apply (height_field _ _ sy) in E. cbn [height] in E. cbn [pred]. lia.
Qed.

(** The answer of [isDeepEqual_fuel] does not depend on the fuel once it
    exceeds the total height of the two values. *)
Lemma isDeepEqual_fuel_stable (n : nat) :
  forall (m : nat) (obj1 obj2 : JValue) (propsToIgnore : list string),
    height obj1 + height obj2 < n ->
    height obj1 + height obj2 < m ->
    isDeepEqual_fuel n obj1 obj2 propsToIgnore
    = isDeepEqual_fuel m obj1 obj2 propsToIgnore.
Proof.
  induction n as [|n IH]; intros m obj1 obj2 propsToIgnore Hn Hm; [lia|].
  destruct m as [|m]; [lia|]. cbn [isDeepEqual_fuel].
  destruct (strictEq obj1 obj2); [reflexivity|].
  destruct (isNullish obj1 || isNullish obj2
            || negb (isObjectLike obj1) && negb (isObjectLike obj2)) eqn:G;
    [reflexivity|].
  destruct (negb (Bool.eqb (isArray obj1) (isArray obj2))) eqn:A; [reflexivity|].
  assert (K : forall key : string,
             isDeepEqual_fuel n (getProp obj1 key) (getProp obj2 key) propsToIgnore
             = isDeepEqual_fuel m (getProp obj1 key) (getProp obj2 key) propsToIgnore).
  { intros key.
    pose proof (height_getProp obj1 key). pose proof (height_getProp obj2 key).
    assert (0 < height obj1 + height obj2)
      by (destruct obj1, obj2; cbn in G; try discriminate; cbn [height]; lia).
    apply IH; lia. }
  destruct obj1, obj2; cbn in G, A; try discriminate;
    try (cbv zeta; repeat (match goal with
                           | |- (if ?c then _ else _) = _ => destruct c; [reflexivity|]
                           end);
         apply forallb_ext_in; intros key _; apply K).
  destruct (negb (Nat.eqb _ _)); [reflexivity|].
  apply forallb_ext_in. intros [x y] H. cbn [fst snd].
  pose proof (in_combine_l _ _ _ _ H) as Hx. pose proof (in_combine_r _ _ _ _ H) as Hy.
  apply height_element in Hx, Hy. apply IH; lia.
Qed.

(** [isDeepEqual] with any larger bound. *)
Lemma isDeepEqual_fuel_enough (fuel : nat) (obj1 obj2 : JValue)
    (propsToIgnore : list string) :
  height obj1 + height obj2 < fuel ->
  isDeepEqual_fuel fuel obj1 obj2 propsToIgnore = isDeepEqual obj1 obj2 propsToIgnore.
Proof. intros H. unfold isDeepEqual. apply isDeepEqual_fuel_stable; lia. Qed.

(** One more unfolding of the source's recursion: [isDeepEqual] satisfies
    the equation of the function it embeds. *)
Lemma isDeepEqual_unfold (obj1 obj2 : JValue) (propsToIgnore : list string) :
  isDeepEqual obj1 obj2 propsToIgnore
  = if strictEq obj1 obj2 then true
    else if isNullish obj1 || isNullish obj2
            || (negb (isObjectLike obj1) && negb (isObjectLike obj2))
    then isNaN obj1 && isNaN obj2
    else if negb (Bool.eqb (isArray obj1) (isArray obj2)) then false
    else
      match obj1, obj2 with
      | JArr xs, JArr ys =>
          if negb (Nat.eqb (List.length xs) (List.length ys)) then false
          else forallb (fun xy => isDeepEqual (fst xy) (snd xy) propsToIgnore)
                       (combine xs ys)
      | _, _ =>
          let notIgnored k := negb (existsb (String.eqb k) propsToIgnore) in
          let keys1 := filter notIgnored (ownKeys obj1) in
          let keys2 := filter notIgnored (ownKeys obj2) in
          if negb (Nat.eqb (List.length keys1) (List.length keys2)) then false
          else if negb (forallb (fun k => existsb (String.eqb k) keys2) keys1)
          then false
          else forallb (fun key =>
                          isDeepEqual (getProp obj1 key) (getProp obj2 key)
                                      propsToIgnore)
                       keys1
      end.
Proof.
  unfold isDeepEqual at 1. cbn [isDeepEqual_fuel].
  destruct (strictEq obj1 obj2); [reflexivity|].
  destruct (isNullish obj1 || isNullish obj2
            || negb (isObjectLike obj1) && negb (isObjectLike obj2)) eqn:G;
    [reflexivity|].
  destruct (negb (Bool.eqb (isArray obj1) (isArray obj2))) eqn:A; [reflexivity|].
  assert (K : forall key : string,
             isDeepEqual_fuel (height obj1 + height obj2)
                              (getProp obj1 key) (getProp obj2 key) propsToIgnore
             = isDeepEqual (getProp obj1 key) (getProp obj2 key) propsToIgnore).
  { intros key.
    pose proof (height_getProp obj1 key). pose proof (height_getProp obj2 key).
    assert (0 < height obj1 + height obj2)
      by (destruct obj1, obj2; cbn in G; try discriminate; cbn [height]; lia).
    apply isDeepEqual_fuel_enough; lia. }
  destruct obj1, obj2; cbn in G, A; try discriminate;
    try (cbv zeta; repeat (match goal with
                           | |- (if ?c then _ else _) = _ => destruct c; [reflexivity|]
                           end);
         apply forallb_ext_in; intros key _; apply K).
  destruct (negb (Nat.eqb _ _)); [reflexivity|].
  apply forallb_ext_in. intros [x y] H. cbn [fst snd].
  pose proof (in_combine_l _ _ _ _ H) as Hx. pose proof (in_combine_r _ _ _ _ H) as Hy.
  apply height_element in Hx, Hy. apply isDeepEqual_fuel_enough; lia.
Qed.

Lemma in_combine_same {A : Type} (x y : A) (l : list A) :
  In (x, y) (combine l l) -> x = y /\ In x l.
Proof.
  induction l as [|z l IH]; intros H; [destruct H|].
  cbn [combine] in H. destruct H as [H|H].
  - injection H as <- <-. split; [reflexivity | now left].
  - destruct (IH H) as [-> Hin]. split; [reflexivity | now right].
Qed.

(** Where the source answers [obj1 === obj2] for one and the same object,
    the structural comparison answers the same: a value is deep-equal to
    itself. *)
Lemma isDeepEqual_refl (n : nat) :
  forall (v : JValue) (propsToIgnore : list string),
    height v < n -> isDeepEqual v v propsToIgnore = true.
Proof.
  induction n as [|n IH]; intros v propsToIgnore Hn; [lia|].
  rewrite isDeepEqual_unfold.
  destruct v as [ | | b | z | | s | xs | sy fs ]; cbn [strictEq]; try reflexivity.
  - now rewrite Bool.eqb_reflx.
  - now rewrite Z.eqb_refl.
  - now rewrite String.eqb_refl.
  - cbn [isNullish isObjectLike isArray negb orb andb Bool.eqb].
    rewrite Nat.eqb_refl. cbn [negb].
    apply forallb_forall. intros [x y] H. apply in_combine_same in H.
    destruct H as [<- H]. cbn [fst snd]. apply IH.
    apply height_element in H. lia.
  - cbn [isNullish isObjectLike isArray negb orb andb Bool.eqb]. cbv zeta.
    rewrite Nat.eqb_refl. cbn [negb].
    replace (forallb _ _) with true.
    + cbn [negb]. apply forallb_forall. intros key _. apply IH.
      pose proof (height_getProp (JObj sy fs) key). cbn [height pred] in *. lia.
    + symmetry. apply forallb_forall. intros key H. apply existsb_exists.
      exists key. split; [exact H | apply String.eqb_refl].
Qed.

Corollary isDeepEqual_reflexive (v : JValue) (propsToIgnore : list string) :
  isDeepEqual v v propsToIgnore = true.
Proof. apply (isDeepEqual_refl (S (height v))). lia. Qed.

End EqualFacts.

(* ====================================================================== *)
(** * The recursion bounds are never reached *)
(* ====================================================================== *)

Module FuelFacts.
Import TypeBox TypeSystem EqualFacts.

(** ** Index keys *)

Lemma string_of_nat_digit (n : nat) : isName (string_of_nat n) = false.
Proof.
  unfold string_of_nat, NilZero.string_of_uint.
  destruct (Nat.to_uint n); reflexivity.
Qed.

Lemma indexOfKey_name (k : string) (n : nat) : isName k = true -> indexOfKey k n = None.
Proof.
  intros Hk. unfold indexOfKey. destruct (find _ _) as [i|] eqn:E; [|reflexivity].
  apply find_some in E. destruct E as [_ E]. apply String.eqb_eq in E. subst k.
  now rewrite string_of_nat_digit in Hk.
Qed.

(** Only objects have properties that are no indices. *)
Lemma getProp_name (v : JValue) (k : string) :
  isName k = true -> isObj v = false -> getProp v k = JUndefined.
Proof.
  intros Hk Hv. destruct v; cbn [getProp]; try reflexivity; try discriminate;
    now rewrite indexOfKey_name.
Qed.

(** ** Computations that finish *)

Lemma finishes_Ok {A : Type} (a : A) : finishes (Ok a).
Proof. discriminate. Qed.

Lemma finishes_bind {A B : Type} (c : result A) (k : A -> result B) :
  finishes c -> (forall a, c = Ok a -> finishes (k a)) -> finishes (bind c k).
Proof.
  unfold finishes. intros Hc Hk. destruct c as [a|e]; cbn [bind].
  - now apply Hk.
  - intros E. apply Hc. congruence.
Qed.

Lemma finishes_mapM {A B : Type} (f : A -> result B) (xs : list A) :
  (forall x, In x xs -> finishes (f x)) -> finishes (mapM f xs).
Proof.
  induction xs as [|x xs IH]; intros H; cbn [mapM]; [apply finishes_Ok|].
  apply finishes_bind; [apply H; now left|]. intros y _.
  apply finishes_bind; [apply IH; intros z Hz; apply H; now right|].
  intros ys _. apply finishes_Ok.
Qed.

Lemma finishes_fold {A B : Type} (body : B -> A -> result B) (l : list A) :
  forall acc : result B,
    finishes acc ->
    (forall b x, In x l -> finishes (body b x)) ->
    finishes (fold_left (fun acc x => b <- acc ;; body b x) l acc).
Proof.
  induction l as [|x l IH]; intros acc Hacc H; cbn [fold_left]; [exact Hacc|].
  apply IH.
  - apply finishes_bind; [exact Hacc|]. intros b _. apply H. now left.
  - intros b y Hy. apply H. now right.
Qed.

Lemma finishes_entries (v : JValue) : finishes (entries v).
Proof. unfold entries. destruct (isNullish v); discriminate. Qed.

Lemma finishes_asArray (v : JValue) : finishes (asArray v).
Proof. destruct v; discriminate. Qed.

Lemma finishes_optIncludes (arr : JValue) (name : string) :
  finishes (optIncludes arr name).
Proof. destruct arr; discriminate. Qed.

Lemma finishes_parseSchemaOptions (schema : JValue) :
  finishes (parseSchemaOptions schema).
Proof.
  unfold parseSchemaOptions. apply finishes_bind; [apply finishes_entries|].
  intros es _. cbv zeta. destruct (filter _ es); discriminate.
Qed.

Lemma finishes_parsePrimitive (type schema : JValue) :
  finishes (parsePrimitive type schema).
Proof.
  unfold parsePrimitive. apply finishes_bind; [apply finishes_parseSchemaOptions|].
  intros o _.
  repeat match goal with
         | |- finishes (if ?c then _ else _) => destruct c
         end; discriminate.
Qed.

Lemma finishes_parseType (n : nat) :
  forall type : JValue, height type < n -> finishes (parseType type).
Proof.
  induction n as [|n IH]; intros type Hn; [lia|].
  destruct type as [ | | b | z | | s | xs | sy fs ]; cbn [parseType];
    try discriminate.
  - destruct xs as [|x xs]; [discriminate|].
    apply finishes_bind; [|intros t _; apply finishes_Ok].
    apply IH. pose proof (height_element x (x :: xs) (or_introl eq_refl)). lia.
  - apply finishes_bind; [|intros t _; apply finishes_Ok].
    assert (H : forall v, In v (map snd fs) -> finishes (parseType v)).
    { intros v Hv. apply IH. apply in_map_iff in Hv. destruct Hv as ([k v'] & <- & Hv).
      cbn [snd]. clear - Hv Hn. cbn [height] in Hn.
      induction fs as [|[k' w] fs IHfs]; [destruct Hv|].
      cbn [fold_right snd] in Hn. destruct Hv as [E|Hv].
      - injection E as -> ->. lia.
      - apply IHfs; [lia | exact Hv]. }
    clear Hn. generalize (@nil (string * JValue)).
    induction fs as [|[key value] fs IHfs]; intros acc; [apply finishes_Ok|].
    apply finishes_bind.
    + apply H. now left.
    + intros t _. apply IHfs. intros v Hv. apply H. now right.
Qed.

Lemma finishes_parseEnum (schema : JValue) : finishes (parseEnum schema).
Proof.
  unfold parseEnum. apply finishes_bind; [apply finishes_parseSchemaOptions|].
  intros o _. apply finishes_bind; [apply finishes_asArray|].
  intros values _. apply finishes_bind; [|intros ts _; apply finishes_Ok].
  apply finishes_mapM. intros x _. apply (finishes_parseType (S (height x))). lia.
Qed.

Lemma finishes_parseConst (schema : JValue) : finishes (parseConst schema).
Proof.
  unfold parseConst. apply finishes_bind; [apply finishes_parseSchemaOptions|].
  intros o _. cbv zeta. destruct (getProp schema "const"); try discriminate.
  apply finishes_bind; [|intros ts _; apply finishes_Ok].
  apply finishes_mapM. intros x _. apply (finishes_parseType (S (height x))). lia.
Qed.

Lemma finishes_parseWithMultipleTypes (schema : JValue) :
  finishes (parseWithMultipleTypes schema).
Proof.
  unfold parseWithMultipleTypes. apply finishes_bind; [apply finishes_asArray|].
  intros names _. apply finishes_bind; [|intros ts _; apply finishes_Ok].
  apply finishes_mapM. intros x _. apply finishes_parsePrimitive.
Qed.

(** ** jsonSchemaToTypebox *)

Lemma property_below (schema : JValue) (k : string) :
  isObj schema = true -> height (getProp schema k) < height schema.
Proof.
  intros O. pose proof (height_getProp schema k).
  destruct schema; try discriminate. cbn [height pred] in *. lia.
Qed.

Lemma member_below (schema : JValue) (k : string) (xs : list JValue) (x : JValue) :
  isObj schema = true ->
  getProp schema k = JArr xs -> In x xs -> height x < height schema.
Proof.
  intros O E H. pose proof (property_below schema k O). rewrite E in *.
  apply height_element in H. lia.
Qed.

Section CompilerFinishes.
Variable compile : JValue -> result JValue.
Variable schema : JValue.
Hypothesis compile_finishes :
  forall v : JValue, height v < height schema -> finishes (compile v).
Hypothesis schema_isObj : isObj schema = true.

Lemma finishes_members (k : string) (members : list JValue) :
  asArray (getProp schema k) = Ok members -> finishes (mapM compile members).
Proof.
  intros E. apply finishes_mapM. intros x Hx. apply compile_finishes.
  destruct (getProp schema k) eqn:G; try discriminate. injection E as ->.
  exact (member_below schema k _ _ schema_isObj G Hx).
Qed.

Lemma finishes_parseObject : finishes (parseObject compile schema).
Proof.
  unfold parseObject. apply finishes_bind; [apply finishes_parseSchemaOptions|].
  intros o _. cbv zeta. destruct (negb _); [discriminate|].
  apply finishes_bind; [apply finishes_entries|]. intros attributes E.
  apply finishes_bind; [|intros ps _; destruct o; discriminate].
  apply finishes_fold; [discriminate|]. intros ps kv Hkv.
  apply finishes_bind; [apply finishes_optIncludes|]. intros req _.
  apply finishes_bind; [|intros t _; apply finishes_Ok].
  apply compile_finishes.
  unfold entries in E. destruct (isNullish _); [discriminate|]. injection E as <-.
  apply in_map_iff in Hkv. destruct Hkv as (k & <- & _). cbn [snd].
  pose proof (height_getProp (getProp schema "properties") k).
  pose proof (property_below schema "properties" schema_isObj). lia.
Qed.

Lemma finishes_parseAnyOf : finishes (parseAnyOf compile schema).
Proof.
  unfold parseAnyOf. apply finishes_bind; [apply finishes_parseSchemaOptions|].
  intros o _. apply finishes_bind; [apply finishes_asArray|]. intros members E.
  apply finishes_bind; [|intros ts _; apply finishes_Ok].
  exact (finishes_members _ _ E).
Qed.

Lemma finishes_parseAllOf : finishes (parseAllOf compile schema).
Proof.
  unfold parseAllOf. apply finishes_bind; [apply finishes_parseSchemaOptions|].
  intros o _. apply finishes_bind; [apply finishes_asArray|]. intros members E.
  apply finishes_bind; [|intros ts _; apply finishes_Ok].
  exact (finishes_members _ _ E).
Qed.

Lemma finishes_parseOneOf : finishes (parseOneOf compile schema).
Proof.
  unfold parseOneOf. apply finishes_bind; [apply finishes_parseSchemaOptions|].
  intros o _. apply finishes_bind; [apply finishes_asArray|]. intros members E.
  apply finishes_bind; [|intros ts _; apply finishes_Ok].
  exact (finishes_members _ _ E).
Qed.

Lemma finishes_parseNot : finishes (parseNot compile schema).
Proof.
  unfold parseNot. apply finishes_bind; [apply finishes_parseSchemaOptions|].
  intros o _. apply finishes_bind; [|intros t _; apply finishes_Ok].
  apply compile_finishes, property_below, schema_isObj.
Qed.

Lemma finishes_parseArray : finishes (parseArray compile schema).
Proof.
  unfold parseArray. apply finishes_bind; [apply finishes_parseSchemaOptions|].
  intros o _. pose proof (property_below schema "items" schema_isObj) as Hb.
  destruct (getProp schema "items") eqn:G;
    try (apply finishes_bind; [|intros t _; apply finishes_Ok];
         apply compile_finishes; exact Hb).
  apply finishes_bind; [|intros t _; apply finishes_Ok].
  apply finishes_mapM. intros x Hx. apply compile_finishes.
  exact (member_below schema "items" _ _ schema_isObj G Hx).
Qed.

End CompilerFinishes.

(** One step finishes when the recursive calls on the values nested in the
    schema do. *)
Lemma finishes_step (compile : JValue -> result JValue) (schema : JValue) :
  (forall v : JValue, height v < height schema -> finishes (compile v)) ->
  finishes (jsonSchemaToTypebox_step compile schema).
Proof.
  intros H. unfold jsonSchemaToTypebox_step.
  destruct (isObj schema) eqn:O.
  - repeat match goal with
           | |- finishes (if ?c then _ else _) => destruct c
           end;
      auto using finishes_parseObject, finishes_parseAnyOf, finishes_parseAllOf,
                 finishes_parseOneOf, finishes_parseNot, finishes_parseArray,
                 finishes_parseEnum, finishes_parseConst,
                 finishes_parseWithMultipleTypes, finishes_parsePrimitive;
      discriminate.
  - unfold isObjectSchema, isEnumSchema, isAnyOfSchema, isAllOfSchema, isOneOfSchema,
      isNotSchema, isArraySchema, isSchemaWithMultipleTypes, isConstSchema.
    rewrite !(getProp_name schema) by (reflexivity || exact O).
    cbn [defined andb strictEq isArray negb].
    destruct (isBoolean schema), (isNullish schema); discriminate.
Qed.

(** The compiler never runs out of fuel. *)
Lemma jsonSchemaToTypebox_fuel_finishes (n : nat) :
  forall schema : JValue,
    height schema < n -> finishes (jsonSchemaToTypebox_fuel n schema).
Proof.
  induction n as [|n IH]; intros schema Hn; [lia|].
  cbn [jsonSchemaToTypebox_fuel]. apply finishes_step.
  intros v Hv. apply IH. lia.
Qed.

Theorem jsonSchemaToTypebox_finishes (schema : JValue) :
  finishes (jsonSchemaToTypebox schema).
Proof. apply jsonSchemaToTypebox_fuel_finishes. lia. Qed.

(** ** flattenIntersections *)

Lemma flattenIntersections_fuel_finishes (n : nat) :
  forall schema : JValue,
    height schema < n -> finishes (flattenIntersections_fuel n schema).
Proof.
  induction n as [|n IH]; intros schema Hn; [lia|].
  cbn [flattenIntersections_fuel].
  destruct (isObj schema) eqn:O.
  - assert (Hp := fun k => property_below schema k O).
    destruct (IsIntersect schema).
    + apply finishes_bind; [apply finishes_asArray|]. intros allOf E.
      apply finishes_bind;
        [|intros dedup _; destruct (1 <? List.length dedup); discriminate].
      apply finishes_fold; [discriminate|]. intros dedup v Hv.
      apply finishes_bind; [|intros t _; cbv zeta; destruct (negb _); discriminate].
      destruct (TypeBox.IsArray v || IsObject v).
      * apply IH. destruct (getProp schema "allOf") eqn:G; try discriminate.
        injection E as ->. pose proof (member_below schema _ _ _ O G Hv). lia.
      * destruct (IsString v || IsBoolean v || IsNumber v || IsNull v); discriminate.
    + destruct (TypeBox.IsArray schema).
      * apply finishes_bind; [|intros t _; apply finishes_Ok].
        apply IH. specialize (Hp "items"). lia.
      * destruct (IsObject schema); [|discriminate].
        destruct (defined _); [|discriminate].
        apply finishes_bind; [apply finishes_entries|]. intros props E.
        apply finishes_bind; [|intros ps _; apply finishes_Ok].
        apply finishes_fold; [discriminate|]. intros ps kv Hkv.
        apply finishes_bind; [apply finishes_optIncludes|]. intros inReq _.
        cbv zeta. apply finishes_bind; [|intros t _; apply finishes_Ok].
        apply IH.
        unfold entries in E. destruct (isNullish _); [discriminate|]. injection E as <-.
        apply in_map_iff in Hkv. destruct Hkv as (k & <- & _). cbn [snd].
        pose proof (height_getProp (getProp schema "properties") k).
        specialize (Hp "properties"). lia.
  - destruct schema; try discriminate; cbn; discriminate.
Qed.

Theorem flattenIntersections_finishes (schema : JValue) :
  finishes (flattenIntersections schema).
Proof. apply flattenIntersections_fuel_finishes. lia. Qed.

End FuelFacts.

(* ====================================================================== *)
(** * Schema algebra: mergeObjectSchemas *)
(* ====================================================================== *)

Module MergeFacts.
Import TypeSystem.

Lemma existsb_eqb_In (x : string) (l : list string) :
  existsb (String.eqb x) l = true <-> In x l.
Proof.
  rewrite existsb_exists. split.
  - intros (y & Hy & E). apply String.eqb_eq in E. now subst.
  - intros H. exists x. split; [assumption | apply String.eqb_refl].
Qed.

Lemma strings_of_JStr (l : list string) :
  flat_map (fun x => match x with JStr s => [s] | _ => [] end) (map JStr l) = l.
Proof. induction l as [|x l IH]; simpl; congruence. Qed.

Lemma In_setAdd (x y : string) (s : list string) :
  In x (setAdd y s) <-> x = y \/ In x s.
Proof.
  unfold setAdd. destruct (existsb (String.eqb y) s) eqn:E.
  - apply existsb_eqb_In in E. split; [auto | intros [->|H]; assumption].
  - rewrite in_app_iff. simpl. intuition.
Qed.

Lemma NoDup_setAdd (y : string) (s : list string) :
  NoDup s -> NoDup (setAdd y s).
Proof.
  intros H. unfold setAdd. destruct (existsb (String.eqb y) s) eqn:E; [assumption|].
  assert (Hn : ~ In y s).
  { intros Hin. apply existsb_eqb_In in Hin. congruence. }
  clear E. induction H as [|x s Hx Hs IH]; simpl.
  - constructor; [intros [] | constructor].
  - constructor.
    + rewrite in_app_iff. simpl. intros [H|[H|[]]]; [contradiction|].
      apply Hn. now left.
    + apply IH. intros H. apply Hn. now right.
Qed.

Lemma In_collect (ys xs acc : list string) (k : string) :
  In k (collect ys xs acc) <-> In k acc \/ (In k xs /\ In k ys).
Proof.
  unfold collect. revert acc. induction xs as [|x xs IH]; intros acc; simpl.
  - intuition.
  - rewrite IH. destruct (existsb (String.eqb x) ys) eqn:E.
    + apply existsb_eqb_In in E. rewrite In_setAdd.
      split.
      * intros [[->|H]|[H1 H2]]; auto.
      * intros [H|[[->|H1] H2]]; auto.
    + assert (Hn : ~ In x ys).
      { intros Hin. apply existsb_eqb_In in Hin. congruence. }
      split.
      * intros [H|[H1 H2]]; auto.
      * intros [H|[[->|H1] H2]]; auto. contradiction.
Qed.

Lemma NoDup_collect (ys xs acc : list string) :
  NoDup acc -> NoDup (collect ys xs acc).
Proof.
  unfold collect. revert acc. induction xs as [|x xs IH]; intros acc H; simpl.
  - assumption.
  - apply IH. destruct (existsb (String.eqb x) ys); [now apply NoDup_setAdd | assumption].
Qed.

Section MergeProps.
Variable Composite : list JValue -> JValue -> Symbols * Fields.

Lemma mergeObjectSchemas_required (a b options : JValue) :
  getProp (mergeObjectSchemas Composite a b options) "required"
  = JArr (map JStr (collect (requiredOf b) (requiredOf a) [])).
Proof.
  unfold mergeObjectSchemas. cbv zeta.
  destruct (Composite [a; b] options) as [sy fs].
  cbn [fst snd]. apply (getProp_setProp_same sy fs).
Qed.

(** C3.  The schema returned by [mergeObjectSchemas([a, b])] lists under
    [required] exactly the names that are required in [a] and in [b]:
    a property is required in the result if and only if it is required
    on both sides, and no name is listed twice. *)
Theorem mergeObjectSchemas_required_is_intersection (a b options : JValue) :
  (forall name : string,
      In name (requiredOf (mergeObjectSchemas Composite a b options))
      <-> In name (requiredOf a) /\ In name (requiredOf b))
  /\ NoDup (requiredOf (mergeObjectSchemas Composite a b options))
  /\ (exists names : list string,
         getProp (mergeObjectSchemas Composite a b options) "required"
         = JArr (map JStr names)).
Proof.
  assert (E : requiredOf (mergeObjectSchemas Composite a b options)
              = collect (requiredOf b) (requiredOf a) []).
  { unfold requiredOf at 1. rewrite mergeObjectSchemas_required.
    apply strings_of_JStr. }
  rewrite E. split; [|split].
  - intros name. rewrite In_collect. simpl. intuition.
  - apply NoDup_collect. constructor.
  - eexists. apply mergeObjectSchemas_required.
Qed.

End MergeProps.

End MergeFacts.

(* ====================================================================== *)
(** * The sampler *)
(* ====================================================================== *)

Module SamplerFacts.
Import TypeBox TypeSystem TypeboxUtils OpenApi Examples FuelFacts.

Lemma strictEq_JNull (v : JValue) : strictEq v JNull = true <-> v = JNull.
Proof. destruct v; simpl; split; congruence. Qed.

Lemma effective_handler {A : Type} (field : SampleResponseOptions -> option A)
    (ho : SampleResponseOptions) (g : option SampleResponseOptions) (d x : A) :
  field ho = Some x -> effective field (Some ho) g d = x.
Proof. intros H. unfold effective. now rewrite H. Qed.

Lemma effective_global {A : Type} (field : SampleResponseOptions -> option A)
    (h : option SampleResponseOptions) (go : SampleResponseOptions) (d x : A) :
  match h with Some ho => field ho | None => None end = None ->
  field go = Some x -> effective field h (Some go) d = x.
Proof. intros H1 H2. unfold effective. now rewrite H1, H2. Qed.

Lemma effective_default {A : Type} (field : SampleResponseOptions -> option A)
    (h g : option SampleResponseOptions) (d : A) :
  match h with Some ho => field ho | None => None end = None ->
  match g with Some go => field go | None => None end = None ->
  effective field h g d = d.
Proof. intros H1 H2. unfold effective. now rewrite H1, H2. Qed.

Lemma gtN_below_one (r : Q) : (r < 1)%Q -> gtN (Fin r) (Fin 1) = false.
Proof.
  intros H. simpl. apply negb_false_iff. apply Qle_bool_iff.
  now apply Qlt_le_weak.
Qed.

Section Handler.
Variable JSON_parse : string -> option JValue.
Variable Check : JValue -> JValue -> bool.
Variable Composite : list JValue -> JValue -> Symbols * Fields.

Local Abbreviation handler := (snoopOnResponseHandler JSON_parse Check Composite).

Lemma gate_skip_returns (h g : option SampleResponseOptions) (c : Context)
    (random : Num) (rootDoc : JValue) :
  gateSkips
    (sampledCountOf rootDoc (routePath c) (method c) (status c)
                    (contentTypeOf (contentTypeHeader c)))
    (effective samplingMaxCount h g Infinity)
    (effective samplingInterval h g (Fin 1)) random = true ->
  handler h g c random rootDoc = Returned rootDoc.
Proof.
  intros H. unfold handler, snoopOnResponseHandler. cbv zeta. now rewrite H.
Qed.

(** What the gate decides.  With no sample count recorded for the
    (path, method, status, content type) of the observation the gate lets
    it through.  With a count recorded the gate skips exactly when the
    count has reached the effective [samplingMaxCount] or the random draw
    exceeds the effective [samplingInterval]; a skipped observation leaves
    the document as it was.  Each effective option is the per-route value
    when given, else the per-instance value when given, else the built-in
    default (interval 1, no maximum).  With interval 1, a draw in [0, 1)
    and the count below the maximum, the gate does not skip. *)
Lemma gate_decides (h g : option SampleResponseOptions) (c : Context)
    (random : Num) (rootDoc : JValue) :
  let sampledCount :=
    sampledCountOf rootDoc (routePath c) (method c) (status c)
                   (contentTypeOf (contentTypeHeader c)) in
  let sampleInterval := effective samplingInterval h g (Fin 1) in
  let maxResponsesToSample := effective samplingMaxCount h g Infinity in
  let skips := gateSkips sampledCount maxResponsesToSample sampleInterval random in
  (sampledCount = JNull -> skips = false)
  /\ (sampledCount <> JNull ->
      (skips = true <->
       geN (toNum sampledCount) maxResponsesToSample = true
       \/ gtN random sampleInterval = true))
  /\ (skips = true -> handler h g c random rootDoc = Returned rootDoc)
  /\ (forall (ho : SampleResponseOptions) (x : Num),
         h = Some ho -> samplingInterval ho = Some x -> sampleInterval = x)
  /\ (forall (ho : SampleResponseOptions) (x : Num),
         h = Some ho -> samplingMaxCount ho = Some x -> maxResponsesToSample = x)
  /\ (forall (go : SampleResponseOptions) (x : Num),
         match h with Some ho => samplingInterval ho | None => None end = None ->
         g = Some go -> samplingInterval go = Some x -> sampleInterval = x)
  /\ (forall (go : SampleResponseOptions) (x : Num),
         match h with Some ho => samplingMaxCount ho | None => None end = None ->
         g = Some go -> samplingMaxCount go = Some x -> maxResponsesToSample = x)
  /\ (match h with Some ho => samplingInterval ho | None => None end = None ->
      match g with Some go => samplingInterval go | None => None end = None ->
      sampleInterval = Fin 1)
  /\ (match h with Some ho => samplingMaxCount ho | None => None end = None ->
      match g with Some go => samplingMaxCount go | None => None end = None ->
      maxResponsesToSample = Infinity)
  /\ (forall r : Q,
         random = Fin r -> (0 <= r)%Q -> (r < 1)%Q ->
         sampleInterval = Fin 1 ->
         geN (toNum sampledCount) maxResponsesToSample = false ->
         skips = false).
Proof.
  cbv zeta. repeat match goal with |- _ /\ _ => split end.
  - intros H. unfold gateSkips. rewrite H. reflexivity.
  - intros Hn. unfold gateSkips. split.
    + intros H. apply andb_true_iff in H. destruct H as [_ H].
      now apply orb_true_iff in H.
    + intros Hor. apply andb_true_iff. split.
      * apply negb_true_iff. destruct (strictEq _ JNull) eqn:E; [|reflexivity].
        apply strictEq_JNull in E. contradiction.
      * now apply orb_true_iff.
  - apply gate_skip_returns.
  - intros ho x -> Hx. now apply effective_handler.
  - intros ho x -> Hx. now apply effective_handler.
  - intros go x Hh -> Hx. now apply effective_global.
  - intros go x Hh -> Hx. now apply effective_global.
  - now apply effective_default.
  - now apply effective_default.
  - intros r -> _ Hr Hi Hc. unfold gateSkips. rewrite Hi, Hc.
    rewrite (gtN_below_one r Hr). simpl. apply andb_false_r.
Qed.

(** ** Observations that reach a stored reference *)

Lemma readResponse_contentType (contentType text : string)
    (inferredSchema responseData : JValue) :
  readResponse JSON_parse contentType text = Ok (Some inferredSchema, responseData) ->
  truthy (JStr contentType) = true.
Proof.
  unfold readResponse.
  destruct (String.eqb contentType "application/json") eqn:E1.
  - apply String.eqb_eq in E1. now subst.
  - destruct (String.eqb contentType "text/html") eqn:E2.
    + apply String.eqb_eq in E2. now subst.
    + destruct (String.eqb contentType "text/plain") eqn:E3.
      * apply String.eqb_eq in E3. now subst.
      * discriminate.
Qed.

Lemma readBody_contentType (c : Context) (contentType : string)
    (inferredSchema responseData : JValue) :
  readBody JSON_parse c contentType = Ok (Some inferredSchema, responseData) ->
  truthy (JStr contentType) = true.
Proof.
  unfold readBody. destruct (body c); [|discriminate].
  apply readResponse_contentType.
Qed.

(** An observation that passes the gate, carries a body the handler can
    infer a schema from, and finds a stored reference object, is handed to
    [mergeIntoReference]. *)
Lemma handler_reaches_reference (h g : option SampleResponseOptions) (c : Context)
    (random : Num) (rootDoc inferredSchema responseData : JValue) :
  let contentType := contentTypeOf (contentTypeHeader c) in
  let cell := schemaCell (routePath c) (method c) (status c) contentType in
  gateSkips (sampledCountOf rootDoc (routePath c) (method c) (status c) contentType)
            (effective samplingMaxCount h g Infinity)
            (effective samplingInterval h g (Fin 1)) random = false ->
  readBody JSON_parse c contentType = Ok (Some inferredSchema, responseData) ->
  isObjectPath cell rootDoc = true ->
  hasProp (getPath cell rootDoc) "$ref" = true ->
  handler h g c random rootDoc
  = mergeIntoReference Check Composite
      (effective samplingMode h g individual) cell (getPath cell rootDoc)
      inferredSchema responseData rootDoc.
Proof.
  cbv zeta. intros Hgate Hbody Hpath Href.
  unfold snoopOnResponseHandler. cbv zeta. rewrite Hgate, Hbody.
  rewrite (readBody_contentType _ _ _ _ Hbody).
  unfold schemaCell in *. cbn [getPath] in *.
  apply isObjectPath_cons in Hpath. destruct Hpath as [H0 Hpath].
  apply isObjectPath_cons in Hpath. destruct Hpath as [H1 Hpath].
  apply isObjectPath_cons in Hpath. destruct Hpath as [H2 Hpath].
  apply isObjectPath_cons in Hpath. destruct Hpath as [H3 Hpath].
  apply isObjectPath_cons in Hpath. destruct Hpath as [H4 Hpath].
  apply isObjectPath_cons in Hpath. destruct Hpath as [H5 Hpath].
  apply isObjectPath_cons in Hpath. destruct Hpath as [H6 Hpath].
  apply isObjectPath_cons in Hpath. destruct Hpath as [H7 Hpath].
  apply isObjectPath_isObj in Hpath. rename Hpath into H8.
  rewrite (optGet_obj _ _ H1).
  rewrite (isObj_truthy _ H2). cbn [andb negb].
  rewrite (optGet_obj _ _ H3).
  rewrite (isObj_truthy _ H4). cbn [negb].
  rewrite (isObj_truthy _ H5).
  rewrite (isObj_objectLike _ H5). cbn [negb].
  rewrite (getProp_defined_hasProp _ "content" H5 (isObj_defined _ H6)). cbn [negb].
  rewrite (isObj_not_nullish _ H6).
  rewrite (isObj_defined _ H7). cbn [negb].
  unfold mustGet. rewrite (isObj_not_nullish _ H7). cbn [bind].
  unfold isReferenceObject. rewrite (isObj_not_nullish _ H8). cbn [bind].
  rewrite Href. reflexivity.
Qed.

Lemma substring_whole (s : string) : substring 0 (String.length s) s = s.
Proof. induction s as [|c s IH]; simpl; congruence. Qed.

Lemma refIdOf_schemas (refId : string) :
  refIdOf (JStr ("#/components/schemas/" +++ refId)) = Ok refId.
Proof.
  unfold refIdOf. f_equal. simpl. rewrite Nat.sub_0_r. apply substring_whole.
Qed.

Lemma jsonSchemaToTypebox_nullish (v : JValue) :
  isNullish v = true -> jsonSchemaToTypebox v = Throw TypeError.
Proof. destruct v; try discriminate; reflexivity. Qed.

(** The referenced entry as the handler looks it up, given that it
    compiles. *)
Lemma stored_schema_compiles (rootDoc : JValue) (refId : string) (t : JValue) :
  jsonSchemaToTypebox (getPath ["components"; "schemas"; refId] rootDoc) = Ok t ->
  (stored <- mustGet (optGet (getProp rootDoc "components") "schemas") refId ;;
   jsonSchemaToTypebox stored) = Ok t.
Proof.
  cbn [getPath]. intros H. unfold optGet, mustGet.
  destruct (isNullish (getProp rootDoc "components")) eqn:E1.
  - exfalso. destruct (getProp rootDoc "components"); try discriminate;
      simpl in H; discriminate.
  - destruct (isNullish (getProp (getProp rootDoc "components") "schemas")) eqn:E2.
    + exfalso.
      destruct (getProp (getProp rootDoc "components") "schemas"); try discriminate;
        simpl in H; discriminate.
    + exact H.
Qed.

(** Below [2^53] the sum is exact. *)
Lemma toDouble_next (n : Z) : (Z.abs n < 2 ^ 53)%Z -> toDouble (n + 1) = (n + 1)%Z.
Proof.
  intros H. unfold toDouble. cbv zeta.
  destruct (Z.abs (n + 1) <? 2 ^ 53)%Z eqn:E; [reflexivity|].
  apply Z.ltb_ge in E.
  assert (n + 1 = 2 ^ 53)%Z as -> by lia. reflexivity.
Qed.

Lemma plusOne_below (n : Z) :
  (Z.abs n < 2 ^ 53)%Z -> plusOne (JNum n) = JNum (n + 1).
Proof. intros H. cbn [plusOne]. now rewrite toDouble_next. Qed.

(** The document after the count of [cell] has been raised. *)
Lemma mergeIntoReference_counts (mode : SamplingMode) (cell : list string)
    (schemaObj inferredSchema responseData rootDoc : JValue)
    (refId : string) (typeboxRefSchema : JValue) (n : Z) :
  getProp schemaObj "$ref" = JStr ("#/components/schemas/" +++ refId) ->
  isObj schemaObj = true ->
  getProp schemaObj countKey = JNum n ->
  jsonSchemaToTypebox (getPath ["components"; "schemas"; refId] rootDoc)
  = Ok typeboxRefSchema ->
  isDeepEqual typeboxRefSchema inferredSchema ["example"] = true
  \/ Check typeboxRefSchema responseData = true ->
  mergeIntoReference Check Composite mode cell schemaObj inferredSchema
                     responseData rootDoc
  = Returned (setPath (cell ++ [countKey]) (plusOne (JNum n)) rootDoc).
Proof.
  intros Href Hobj Hcount Hcompile Hmatch. unfold mergeIntoReference.
  rewrite Href, refIdOf_schemas.
  rewrite (stored_schema_compiles _ _ _ Hcompile).
  assert (Hhas : hasProp schemaObj countKey = true).
  { apply getProp_defined_hasProp; [assumption | now rewrite Hcount]. }
  rewrite Hhas, Hcount.
  destruct (isDeepEqual typeboxRefSchema inferredSchema ["example"]); [reflexivity|].
  destruct Hmatch as [Hm|Hm]; [discriminate|]. now rewrite Hm.
Qed.

(** C1, as amended.  An observation that passes the gate and whose stored
    response schema is a reference into [components.schemas], sampled [n]
    times so far, with [n] below [2^53] in magnitude: when the inferred
    schema is deep-equal to the referenced schema ignoring [example], or
    else the response value satisfies [Check] against the referenced
    schema, the handler returns the document with the sample count of that
    response set to [n + 1] and nothing else changed.  In particular the
    referenced [components.schemas] entry, and whatever is read along any
    path that parts from the count's, are as before.  (The count is a
    double: from [2^53] on, adding 1 need not change it.) *)
Theorem matching_observation_only_counts
    (h g : option SampleResponseOptions) (c : Context) (random : Num)
    (rootDoc inferredSchema responseData typeboxRefSchema : JValue)
    (refId : string) (n : Z) :
  let contentType := contentTypeOf (contentTypeHeader c) in
  let cell := schemaCell (routePath c) (method c) (status c) contentType in
  gateSkips (sampledCountOf rootDoc (routePath c) (method c) (status c) contentType)
            (effective samplingMaxCount h g Infinity)
            (effective samplingInterval h g (Fin 1)) random = false ->
  readBody JSON_parse c contentType = Ok (Some inferredSchema, responseData) ->
  isObjectPath cell rootDoc = true ->
  getProp (getPath cell rootDoc) "$ref" = JStr ("#/components/schemas/" +++ refId) ->
  getProp (getPath cell rootDoc) countKey = JNum n ->
  (Z.abs n < 2 ^ 53)%Z ->
  jsonSchemaToTypebox (getPath ["components"; "schemas"; refId] rootDoc)
  = Ok typeboxRefSchema ->
  isDeepEqual typeboxRefSchema inferredSchema ["example"] = true
  \/ Check typeboxRefSchema responseData = true ->
  exists doc' : JValue,
    handler h g c random rootDoc = Returned doc'
    /\ doc' = setPath (cell ++ [countKey]) (JNum (n + 1)) rootDoc
    /\ getPath (cell ++ [countKey]) doc' = JNum (n + 1)
    /\ getPath ["components"; "schemas"; refId] doc'
       = getPath ["components"; "schemas"; refId] rootDoc
    /\ (forall q : list string,
           diverges (cell ++ [countKey]) q -> getPath q doc' = getPath q rootDoc).
Proof.
  cbv zeta. intros Hgate Hbody Hpath Href Hcount Hbound Hcompile Hmatch.
  set (cell := schemaCell (routePath c) (method c) (status c)
                          (contentTypeOf (contentTypeHeader c))) in *.
  assert (Hobj : isObj (getPath cell rootDoc) = true).
  { rewrite <- (app_nil_r cell) in Hpath. apply isObjectPath_app in Hpath.
    destruct Hpath as [_ Hp]. now apply isObjectPath_isObj in Hp. }
  exists (setPath (cell ++ [countKey]) (JNum (n + 1)) rootDoc).
  repeat match goal with |- _ /\ _ => split end.
  - rewrite (handler_reaches_reference h g c random rootDoc inferredSchema
               responseData Hgate Hbody Hpath).
    + rewrite <- (plusOne_below n Hbound).
      now apply mergeIntoReference_counts with (refId := refId)
                                               (typeboxRefSchema := typeboxRefSchema).
    + apply getProp_defined_hasProp; [assumption|].
      fold cell. now rewrite Href.
  - reflexivity.
  - now apply getPath_setPath_same.
  - apply getPath_setPath_diverges. unfold cell, schemaCell. simpl.
    apply diverges_here. discriminate.
  - intros q D. now apply getPath_setPath_diverges.
Qed.

(** ** Errors *)

Ltac outcome_cases H :=
  repeat match type of H with
         | Returned _ = Thrown _ _ => discriminate H
         | Thrown _ _ = Thrown _ _ => injection H as <- <-
         | context [match ?x with _ => _ end] => destruct x eqn:?
         end.

Lemma mergeIntoReference_throws (mode : SamplingMode) (cell : list string)
    (schemaObj inferredSchema responseData rootDoc : JValue) (e : Error) (doc' : JValue) :
  mergeIntoReference Check Composite mode cell schemaObj inferredSchema
                     responseData rootDoc = Thrown e doc' ->
  doc' = rootDoc
  \/ (mode = combine
      /\ exists v : JValue, doc' = setPath (cell ++ [countKey]) v rootDoc).
Proof.
  unfold mergeIntoReference. intros H.
  outcome_cases H; auto; right; split; auto.
  destruct (hasProp schemaObj countKey); eauto.
Qed.

Lemma handler_throws (h g : option SampleResponseOptions) (c : Context)
    (random : Num) (rootDoc : JValue) (e : Error) (doc' : JValue) :
  handler h g c random rootDoc = Thrown e doc' ->
  doc' = rootDoc
  \/ (effective samplingMode h g individual = combine
      /\ exists v : JValue,
           doc' = setPath (schemaCell (routePath c) (method c) (status c)
                                      (contentTypeOf (contentTypeHeader c))
                           ++ [countKey]) v rootDoc).
Proof.
  unfold snoopOnResponseHandler. cbv zeta. intros H.
  repeat match type of H with
         | Returned _ = Thrown _ _ => discriminate H
         | Thrown _ _ = Thrown _ _ => injection H as <- <-
         | mergeIntoReference _ _ _ _ _ _ _ _ = Thrown _ _ =>
             apply mergeIntoReference_throws in H
         | context [match ?x with _ => _ end] => destruct x eqn:?
         end; auto.
Qed.

Lemma read_error_propagates (h g : option SampleResponseOptions) (c : Context)
    (random : Num) (rootDoc : JValue) (e : Error) :
  gateSkips (sampledCountOf rootDoc (routePath c) (method c) (status c)
                            (contentTypeOf (contentTypeHeader c)))
            (effective samplingMaxCount h g Infinity)
            (effective samplingInterval h g (Fin 1)) random = false ->
  readBody JSON_parse c (contentTypeOf (contentTypeHeader c)) = Throw e ->
  handler h g c random rootDoc = Thrown e rootDoc.
Proof.
  intros Hgate Hbody. unfold snoopOnResponseHandler. cbv zeta.
  now rewrite Hgate, Hbody.
Qed.

(** The referenced entry as the handler looks it up, when compiling it
    throws. *)
Lemma stored_schema_throws (rootDoc : JValue) (refId : string) (e : Error) :
  jsonSchemaToTypebox (getPath ["components"; "schemas"; refId] rootDoc) = Throw e ->
  (stored <- mustGet (optGet (getProp rootDoc "components") "schemas") refId ;;
   jsonSchemaToTypebox stored) = Throw e.
Proof.
  cbn [getPath]. intros H. unfold optGet, mustGet.
  destruct (isNullish (getProp rootDoc "components")) eqn:E1.
  - destruct (getProp rootDoc "components"); try discriminate; exact H.
  - destruct (isNullish (getProp (getProp rootDoc "components") "schemas")) eqn:E2.
    + destruct (getProp (getProp rootDoc "components") "schemas"); try discriminate;
        exact H.
    + exact H.
Qed.

Lemma compile_error_propagates (h g : option SampleResponseOptions) (c : Context)
    (random : Num) (rootDoc inferredSchema responseData : JValue)
    (refId : string) (e : Error) :
  let contentType := contentTypeOf (contentTypeHeader c) in
  let cell := schemaCell (routePath c) (method c) (status c) contentType in
  gateSkips (sampledCountOf rootDoc (routePath c) (method c) (status c) contentType)
            (effective samplingMaxCount h g Infinity)
            (effective samplingInterval h g (Fin 1)) random = false ->
  readBody JSON_parse c contentType = Ok (Some inferredSchema, responseData) ->
  isObjectPath cell rootDoc = true ->
  getProp (getPath cell rootDoc) "$ref" = JStr ("#/components/schemas/" +++ refId) ->
  jsonSchemaToTypebox (getPath ["components"; "schemas"; refId] rootDoc) = Throw e ->
  handler h g c random rootDoc = Thrown e rootDoc.
Proof.
  cbv zeta. intros Hgate Hbody Hpath Href Hcompile.
  set (cell := schemaCell (routePath c) (method c) (status c)
                          (contentTypeOf (contentTypeHeader c))) in *.
  assert (Hobj : isObj (getPath cell rootDoc) = true).
  { rewrite <- (app_nil_r cell) in Hpath. apply isObjectPath_app in Hpath.
    destruct Hpath as [_ Hp]. now apply isObjectPath_isObj in Hp. }
  rewrite (handler_reaches_reference h g c random rootDoc
             inferredSchema responseData Hgate Hbody Hpath).
  - fold cell. unfold mergeIntoReference. rewrite Href, refIdOf_schemas.
    now rewrite (stored_schema_throws _ _ _ Hcompile).
  - apply getProp_defined_hasProp; [assumption|]. fold cell. now rewrite Href.
Qed.

Lemma merge_error_propagates (h g : option SampleResponseOptions) (c : Context)
    (random : Num) (rootDoc inferredSchema responseData typeboxRefSchema : JValue)
    (refId : string) (n : Z) (e : Error) :
  let contentType := contentTypeOf (contentTypeHeader c) in
  let cell := schemaCell (routePath c) (method c) (status c) contentType in
  gateSkips (sampledCountOf rootDoc (routePath c) (method c) (status c) contentType)
            (effective samplingMaxCount h g Infinity)
            (effective samplingInterval h g (Fin 1)) random = false ->
  readBody JSON_parse c contentType = Ok (Some inferredSchema, responseData) ->
  isObjectPath cell rootDoc = true ->
  getProp (getPath cell rootDoc) "$ref" = JStr ("#/components/schemas/" +++ refId) ->
  getProp (getPath cell rootDoc) countKey = JNum n ->
  jsonSchemaToTypebox (getPath ["components"; "schemas"; refId] rootDoc)
  = Ok typeboxRefSchema ->
  isDeepEqual typeboxRefSchema inferredSchema ["example"] = false ->
  Check typeboxRefSchema responseData = false ->
  effective samplingMode h g individual = combine ->
  flattenIntersections
    (mergeObjectSchemas Composite typeboxRefSchema inferredSchema JUndefined)
  = Throw e ->
  handler h g c random rootDoc
  = Thrown e (setPath (cell ++ [countKey]) (plusOne (JNum n)) rootDoc).
Proof.
  cbv zeta. intros Hgate Hbody Hpath Href Hcount Hcompile Hneq Hcheck Hmode Hflat.
  set (cell := schemaCell (routePath c) (method c) (status c)
                          (contentTypeOf (contentTypeHeader c))) in *.
  assert (Hobj : isObj (getPath cell rootDoc) = true).
  { rewrite <- (app_nil_r cell) in Hpath. apply isObjectPath_app in Hpath.
    destruct Hpath as [_ Hp]. now apply isObjectPath_isObj in Hp. }
  rewrite (handler_reaches_reference h g c random rootDoc
             inferredSchema responseData Hgate Hbody Hpath).
  - fold cell. unfold mergeIntoReference. rewrite Href, refIdOf_schemas.
    rewrite (stored_schema_compiles _ _ _ Hcompile).
    assert (Hhas : hasProp (getPath cell rootDoc) countKey = true).
    { apply getProp_defined_hasProp; [assumption | now rewrite Hcount]. }
    rewrite Hhas, Hcount, Hneq, Hcheck, Hmode, Hflat. reflexivity.
  - apply getProp_defined_hasProp; [assumption|]. fold cell. now rewrite Href.
Qed.

(** ** The errors are the source's *)

Lemma finishes_error {A : Type} (c : result A) (e : Error) :
  finishes c -> c = Throw e -> e <> OutOfFuel.
Proof. unfold finishes. intros H -> ->. now apply H. Qed.

Lemma finishes_mustGet (a : JValue) (k : string) : finishes (mustGet a k).
Proof. unfold mustGet. destruct (isNullish a); discriminate. Qed.

Lemma finishes_readBody (c : Context) (contentType : string) :
  finishes (readBody JSON_parse c contentType).
Proof.
  unfold readBody, readResponse, jsonStringToTypeboxSchema.
  destruct (body c) as [text|]; [|discriminate].
  destruct (String.eqb contentType "application/json").
  - destruct (JSON_parse text); discriminate.
  - destruct (_ || _); discriminate.
Qed.

Lemma finishes_addBodyTypeToSchema (name : string) (schema doc : JValue) :
  finishes (addBodyTypeToSchema name schema doc).
Proof.
  unfold addBodyTypeToSchema, knownReference.
  repeat match goal with
         | |- finishes (bind ?c _) => apply finishes_bind; [|intros ? _]
         | |- finishes (mustGet _ _) => apply finishes_mustGet
         | |- finishes (if ?c then _ else _) => destruct c
         | |- finishes (match ?c with _ => _ end) => destruct c
         end; try discriminate.
Qed.

Lemma mergeIntoReference_error (mode : SamplingMode) (cell : list string)
    (schemaObj inferredSchema responseData rootDoc : JValue) (e : Error) (doc' : JValue) :
  mergeIntoReference Check Composite mode cell schemaObj inferredSchema
                     responseData rootDoc = Thrown e doc' ->
  e <> OutOfFuel.
Proof.
  unfold mergeIntoReference. intros H.
  destruct (refIdOf _) as [refId|e0] eqn:R.
  - destruct (bind _ _) as [t|e1] eqn:B.
    + cbv zeta in H.
      destruct (isDeepEqual _ _ _); [discriminate|].
      destruct (Check _ _); [discriminate|].
      destruct mode; [|discriminate].
      destruct (flattenIntersections _) as [m|e2] eqn:F; [discriminate|].
      injection H as <- _.
      exact (finishes_error _ _ (flattenIntersections_finishes _) F).
    + injection H as <- _. refine (finishes_error _ _ _ B).
      apply finishes_bind; [apply finishes_mustGet|].
      intros stored _. apply jsonSchemaToTypebox_finishes.
  - injection H as <- _. destruct (getProp schemaObj "$ref"); try discriminate;
      injection R as <-; discriminate.
Qed.

(** Whatever the handler throws is an error of the source, never the
    bound of the model. *)
Lemma handler_error (h g : option SampleResponseOptions) (c : Context)
    (random : Num) (rootDoc : JValue) (e : Error) (doc' : JValue) :
  handler h g c random rootDoc = Thrown e doc' -> e <> OutOfFuel.
Proof.
  unfold snoopOnResponseHandler. cbv zeta. intros H.
  repeat match type of H with
         | Returned _ = Thrown _ _ => discriminate H
         | Thrown TypeError _ = Thrown _ _ => injection H as <- _; discriminate
         | mergeIntoReference _ _ _ _ _ _ _ _ = Thrown _ _ =>
             exact (mergeIntoReference_error _ _ _ _ _ _ _ _ H)
         | context [match readBody ?a ?b ?c with _ => _ end] =>
             let E := fresh "E" in
             destruct (readBody a b c) as [[[?|] ?]|?] eqn:E;
             [| |injection H as <- _;
                 exact (finishes_error _ _ (finishes_readBody _ _) E)]
         | context [match addBodyTypeToSchema ?a ?b ?c with _ => _ end] =>
             let E := fresh "E" in
             destruct (addBodyTypeToSchema a b c) eqn:E;
             [|injection H as <- _;
               exact (finishes_error _ _ (finishes_addBodyTypeToSchema _ _ _) E)]
         | context [match bind ?a ?k with _ => _ end] =>
             let E := fresh "E" in
             destruct (bind a k) as [[? [|]]|?] eqn:E;
             [| |injection H as <- _; refine (finishes_error _ _ _ E)]
         | context [if ?x then _ else _] => destruct x
         end.
  apply finishes_bind; [apply finishes_mustGet|]. intros s _.
  apply finishes_bind; [|intros ? _; discriminate].
  unfold isReferenceObject. destruct (isNullish s); discriminate.
Qed.

(** C9, as amended.  The sampler has no error handler.  An error raised
    while the body is read and its schema inferred, or while the stored
    schema is compiled, leaves the handler as an exception, the document
    untouched; an error raised while the merged schema is flattened under
    the combine mode leaves it after the sample count has been raised.
    Whenever the handler throws, the error is one the source throws and no
    schema of the document has been replaced: the document is the one the
    handler found, or, under the combine mode, that document with only the
    sample-count cell of the observed response rewritten. *)
Theorem sampler_errors_propagate (h g : option SampleResponseOptions) (c : Context)
    (random : Num) (rootDoc : JValue) :
  let contentType := contentTypeOf (contentTypeHeader c) in
  let cell := schemaCell (routePath c) (method c) (status c) contentType in
  (forall e : Error,
      gateSkips (sampledCountOf rootDoc (routePath c) (method c) (status c) contentType)
                (effective samplingMaxCount h g Infinity)
                (effective samplingInterval h g (Fin 1)) random = false ->
      readBody JSON_parse c contentType = Throw e ->
      handler h g c random rootDoc = Thrown e rootDoc)
  /\ (forall (inferredSchema responseData : JValue) (refId : string) (e : Error),
         gateSkips (sampledCountOf rootDoc (routePath c) (method c) (status c)
                                   contentType)
                   (effective samplingMaxCount h g Infinity)
                   (effective samplingInterval h g (Fin 1)) random = false ->
         readBody JSON_parse c contentType = Ok (Some inferredSchema, responseData) ->
         isObjectPath cell rootDoc = true ->
         getProp (getPath cell rootDoc) "$ref"
         = JStr ("#/components/schemas/" +++ refId) ->
         jsonSchemaToTypebox (getPath ["components"; "schemas"; refId] rootDoc)
         = Throw e ->
         handler h g c random rootDoc = Thrown e rootDoc)
  /\ (forall (inferredSchema responseData typeboxRefSchema : JValue)
            (refId : string) (n : Z) (e : Error),
         gateSkips (sampledCountOf rootDoc (routePath c) (method c) (status c)
                                   contentType)
                   (effective samplingMaxCount h g Infinity)
                   (effective samplingInterval h g (Fin 1)) random = false ->
         readBody JSON_parse c contentType = Ok (Some inferredSchema, responseData) ->
         isObjectPath cell rootDoc = true ->
         getProp (getPath cell rootDoc) "$ref"
         = JStr ("#/components/schemas/" +++ refId) ->
         getProp (getPath cell rootDoc) countKey = JNum n ->
         jsonSchemaToTypebox (getPath ["components"; "schemas"; refId] rootDoc)
         = Ok typeboxRefSchema ->
         isDeepEqual typeboxRefSchema inferredSchema ["example"] = false ->
         Check typeboxRefSchema responseData = false ->
         effective samplingMode h g individual = combine ->
         flattenIntersections
           (mergeObjectSchemas Composite typeboxRefSchema inferredSchema JUndefined)
         = Throw e ->
         handler h g c random rootDoc
         = Thrown e (setPath (cell ++ [countKey]) (plusOne (JNum n)) rootDoc)
         /\ ((Z.abs n < 2 ^ 53)%Z -> plusOne (JNum n) = JNum (n + 1)))
  /\ (forall (e : Error) (doc' : JValue),
         handler h g c random rootDoc = Thrown e doc' ->
         e <> OutOfFuel
         /\ (doc' = rootDoc
             \/ (effective samplingMode h g individual = combine
                 /\ exists v : JValue,
                      doc' = setPath (cell ++ [countKey]) v rootDoc))).
Proof.
  cbv zeta. repeat match goal with |- _ /\ _ => split end.
  - intros e. apply read_error_propagates.
  - intros inferredSchema responseData refId e. apply compile_error_propagates.
  - intros inferredSchema responseData typeboxRefSchema refId n e
           Hgate Hbody Hpath Href Hcount Hcompile Hneq Hcheck Hmode Hflat.
    split; [|apply plusOne_below].
    now apply merge_error_propagates with (inferredSchema := inferredSchema)
      (responseData := responseData) (typeboxRefSchema := typeboxRefSchema)
      (refId := refId).
  - intros e doc' H. split.
    + exact (handler_error _ _ _ _ _ _ _ H).
    + exact (handler_throws _ _ _ _ _ _ _ H).
Qed.

End Handler.

(** The run of C1's statement: a second [c.text('OK')] on [GET /t]. *)
Lemma matching_observation_only_counts_witness :
  exists doc' : JValue,
    snoopOnResponseHandler parseNothing checkNothing compositeNothing
                           None None textOK (Fin 0) sampledOnce = Returned doc'
    /\ doc' = setPath (schemaCell "/t" "get" 200 "text/plain" ++ [countKey])
                      (JNum (1 + 1)) sampledOnce
    /\ getPath (schemaCell "/t" "get" 200 "text/plain" ++ [countKey]) doc' = JNum (1 + 1)
    /\ getPath ["components"; "schemas"; "TResponse_get_text_plain_200"] doc'
       = getPath ["components"; "schemas"; "TResponse_get_text_plain_200"] sampledOnce
    /\ (forall q : list string,
           diverges (schemaCell "/t" "get" 200 "text/plain" ++ [countKey]) q ->
           getPath q doc' = getPath q sampledOnce).
Proof.
  apply (matching_observation_only_counts parseNothing checkNothing compositeNothing
           None None textOK (Fin 0) sampledOnce
           (textStringToTypeboxSchema "OK") (JStr "OK")
           (String_ (obj [("example", JStr "OK")]))
           "TResponse_get_text_plain_200" 1).
  - reflexivity.
  - reflexivity.
  - reflexivity.
  - reflexivity.
  - reflexivity.
  - reflexivity.
  - reflexivity.
  - left. reflexivity.
Defined.

(** C1 as first stated fails at a count of [2^53]: a second [c.text('OK')]
    passes the gate and finds a reference whose schema is deep-equal to
    the inferred one, and the handler returns the document with the count
    still at [2^53]. *)
Lemma count_stops_at_two_to_53 :
  gateSkips (sampledCountOf sampledOften "/t" "get" 200 "text/plain")
            Infinity (Fin 1) (Fin 0) = false
  /\ getProp (getPath (schemaCell "/t" "get" 200 "text/plain") sampledOften) "$ref"
     = JStr "#/components/schemas/TResponse_get_text_plain_200"
  /\ getProp (getPath (schemaCell "/t" "get" 200 "text/plain") sampledOften) countKey
     = JNum (2 ^ 53)
  /\ (t <- jsonSchemaToTypebox
             (getPath ["components"; "schemas"; "TResponse_get_text_plain_200"]
                      sampledOften) ;;
      Ok (isDeepEqual t (textStringToTypeboxSchema "OK") ["example"])) = Ok true
  /\ snoopOnResponseHandler parseNothing checkNothing compositeNothing
                            None None textOK (Fin 0) sampledOften
     = Returned sampledOften
  /\ getPath (schemaCell "/t" "get" 200 "text/plain" ++ [countKey]) sampledOften
     <> JNum (2 ^ 53 + 1).
Proof. repeat split; try reflexivity. discriminate. Qed.

(** C9: the handler run on [c.text('OK')] over a document whose referenced
    schema is [{}] throws the compiler's error. *)
Lemma unsupported_stored_schema_is_thrown :
  snoopOnResponseHandler parseNothing checkNothing compositeNothing
                         None None textOK (Fin 0) emptySchemaDoc
  = Thrown (ErrorJson
              "Unsupported schema. Did not match any type of the parsers. Schema was: "
              (obj []))
           emptySchemaDoc.
Proof. reflexivity. Qed.

(** A body that is not JSON under [application/json]: the [SyntaxError] of
    [JSON.parse] leaves the handler. *)
Lemma sampler_errors_propagate_witness :
  snoopOnResponseHandler parseNothing checkNothing compositeNothing
                         None None brokenJson (Fin 0) sampledOnce
  = Thrown SyntaxError sampledOnce.
Proof.
  apply (proj1 (sampler_errors_propagate parseNothing checkNothing compositeNothing
                  None None brokenJson (Fin 0) sampledOnce)).
  - reflexivity.
  - reflexivity.
Defined.

End SamplerFacts.

(* ====================================================================== *)
(** * Schema algebra: flattenIntersections *)
(* ====================================================================== *)

Module FlattenFacts.
Import TypeBox TypeSystem Examples.

(** C4.  [flattenIntersections] computes the flattened form of an object
    or array member and then keeps the member as it was given: the
    intersection of [nestedObject] and a number comes back unchanged,
    although [nestedObject] on its own flattens to [flatObject], which
    differs from it by more than examples. *)
Theorem flatten_keeps_members_unflattened :
  flattenIntersections mixedIntersection = Ok mixedIntersection
  /\ getProp mixedIntersection "allOf" = JArr [nestedObject; Number noOptions]
  /\ flattenIntersections nestedObject = Ok flatObject
  /\ isDeepEqual nestedObject flatObject ["example"] = false.
Proof. repeat split; reflexivity. Qed.

(** C5.  Flattening twice is not flattening once: the intersection of
    [nestedObject] with itself collapses to [nestedObject], kept
    unflattened, and a second application flattens it to [flatObject]. *)
Theorem flatten_twice_differs :
  flattenIntersections twinIntersection = Ok nestedObject
  /\ (r <- flattenIntersections twinIntersection ;; flattenIntersections r)
     = Ok flatObject
  /\ isDeepEqual nestedObject flatObject [] = false
  /\ isDeepEqual nestedObject flatObject ["example"] = false.
Proof. repeat split; reflexivity. Qed.

End FlattenFacts.

(* ====================================================================== *)
(** * The reference store *)
(* ====================================================================== *)

Module StoreFacts.
Import TypeBox TypeSystem OpenApi Examples.

Lemma nodeOk_isObj (schema : JValue) : nodeOk schema = true -> isObj schema = true.
Proof. unfold nodeOk. intros H. now apply andb_true_iff in H. Qed.

(** After [writeRef] the node answers for [loc] with the reference written. *)
Lemma writeRef_known (schema : JValue) (loc ref : string) :
  nodeOk schema = true ->
  knownReference (writeRef schema loc ref) loc = Ok (JStr ref).
Proof.
  intros Hok. unfold nodeOk in Hok. apply andb_true_iff in Hok.
  destruct Hok as [Hobj Hmap].
  apply isObj_inv in Hobj. destruct Hobj as (sy & fs & ->).
  unfold writeRef, knownReference. cbn [setPath].
  destruct (truthy (getProp (JObj sy fs) "open_api_ref")) eqn:T.
  - cbn [negb] in Hmap. rewrite orb_false_r in Hmap.
    apply isObj_inv in Hmap. destruct Hmap as (sy' & fs' & E). rewrite E.
    unfold mustGet. cbn [setProp isNullish bind getProp].
    rewrite lookup_setField_same. unfold optGet. cbn [isNullish getProp].
    now rewrite lookup_setField_same.
  - unfold mustGet. cbn [obj setProp isNullish bind getProp].
    rewrite !lookup_setField_same. unfold optGet, obj. cbn.
    now rewrite String.eqb_refl.
Qed.

Lemma updateNode_same (a : nat) (v : JValue) (h : nat -> JValue) :
  updateNode a v h a = v.
Proof. unfold updateNode. now rewrite Nat.eqb_refl. Qed.

Lemma updateNode_other (a b : nat) (v : JValue) (h : nat -> JValue) :
  a <> b -> updateNode a v h b = h b.
Proof.
  intros H. unfold updateNode. destruct (Nat.eqb a b) eqn:E; [|reflexivity].
  apply Nat.eqb_eq in E. contradiction.
Qed.

Lemma schemas_not_schema (name : string) :
  JStr ("#/components/schemas/" +++ name) <> JStr ("#/components/schema/" +++ name).
Proof. simpl. intros H. inversion H. Qed.

(** C6.  Registering one schema object twice as a body: the first call
    stores the schema and returns ['#/components/schemas/' + name]; the
    second call finds the reference map, adds nothing to the document, and
    returns what the first call wrote there, ['#/components/schema/' +
    name], which is another string. *)
Theorem body_registered_twice (name : string) (a : nat) (st : Store) :
  nodeOk (nodes st a) = true ->
  knownReference (nodes st a) "body" = Ok JUndefined ->
  exists st1 st2 : Store,
    addBodyTypeToSchemaAt name a st
    = Ok (JStr ("#/components/schemas/" +++ name), st1)
    /\ addBodyTypeToSchemaAt name a st1
       = Ok (JStr ("#/components/schema/" +++ name), st2)
    /\ document st2 = document st1
    /\ JStr ("#/components/schemas/" +++ name)
       <> JStr ("#/components/schema/" +++ name).
Proof.
  intros Hok Hnone.
  unfold addBodyTypeToSchemaAt, addBodyTypeToSchema. rewrite Hnone.
  cbn [bind defined commit reference node rootDoc].
  eexists. eexists. split; [reflexivity|].
  cbn [nodes document]. rewrite updateNode_same.
  cbn [reference node rootDoc].
  rewrite (writeRef_known _ _ _ Hok).
  cbn [bind defined commit reference node rootDoc].
  split; [reflexivity|]. split; [reflexivity|]. apply schemas_not_schema.
Qed.

(** The two calls of C6 on the [de] schema object of a fresh instance. *)
Lemma body_registered_twice_witness :
  exists st1 st2 : Store,
    addBodyTypeToSchemaAt "FooRequest_post" 0 freshStore
    = Ok (JStr ("#/components/schemas/" +++ "FooRequest_post"), st1)
    /\ addBodyTypeToSchemaAt "FooRequest_post" 0 st1
       = Ok (JStr ("#/components/schema/" +++ "FooRequest_post"), st2)
    /\ document st2 = document st1
    /\ JStr ("#/components/schemas/" +++ "FooRequest_post")
       <> JStr ("#/components/schema/" +++ "FooRequest_post").
Proof.
  apply (body_registered_twice "FooRequest_post" 0 freshStore); reflexivity.
Defined.

(** ** Parameters *)

Lemma asPassed_in (parameter schema : JValue) :
  getProp (asPassed parameter schema) "in" = getProp parameter "in".
Proof. unfold asPassed. apply getProp_setProp_other. discriminate. Qed.

Lemma asPassed_name (parameter schema : JValue) :
  getProp (asPassed parameter schema) "name" = getProp parameter "name".
Proof. unfold asPassed. apply getProp_setProp_other. discriminate. Qed.

(** What a successful [addParameterToSchema] leaves behind: either node
    and document are as they were (the node already carried the reference,
    or an equal entry was found and reused), or a reference to a new entry
    has been written onto the node. *)
Lemma addParameterToSchema_inv (parameter schema doc : JValue) (r : Registered) :
  addParameterToSchema parameter schema doc = Ok r ->
  (node r = schema /\ rootDoc r = doc)
  \/ (exists name : string,
         reference r = JStr (parameterRef name)
         /\ node r = writeRef schema (templ (getProp parameter "in")) (parameterRef name)).
Proof.
  unfold addParameterToSchema. cbv zeta. intros H.
  destruct (knownReference schema (templ (getProp parameter "in"))) as [known|e];
    [|discriminate].
  cbn [bind] in H. destruct (defined known).
  - injection H as <-. left. split; reflexivity.
  - destruct (mustGet doc "components") as [components|e]; [|discriminate].
    cbn [bind] in H.
    destruct (mustGet components "parameters") as [parameters0|e]; [|discriminate].
    cbn [bind] in H.
    destruct (isNullish (if defined parameters0 then parameters0 else obj []));
      [discriminate|].
    destruct (probe _ _ _ _ _ _) as [curName|name|] eqn:P; [| |discriminate].
    + injection H as <-. left. split; [reflexivity|].
      cbn [rootDoc]. destruct (defined parameters0) eqn:D; [reflexivity|].
      (* an undefined table holds no entry to reuse *)
      exfalso. change 2000 with (S 1999) in P. cbn in P. discriminate.
    + injection H as <-. right. exists name. split; reflexivity.
Qed.

(** C7, as amended.  Registering one parameter node twice returns the
    same reference both times, and the second call leaves the document as
    the first call left it.  When the first call added an entry to the
    document, it also wrote the reference onto the node, and the second
    call is answered from that reference map. *)
Theorem parameter_registered_twice (parameter : JValue) (a : nat) (st st1 : Store)
    (ref : JValue) :
  nodeOk (nodes st a) = true ->
  addParameterToSchemaAt parameter a st = Ok (ref, st1) ->
  (exists st2 : Store,
      addParameterToSchemaAt parameter a st1 = Ok (ref, st2)
      /\ document st2 = document st1)
  /\ (document st1 <> document st ->
      takesFastPath (asPassed parameter (nodes st1 a)) (nodes st1 a) = true).
Proof.
  intros Hok H. unfold addParameterToSchemaAt in H.
  destruct (addParameterToSchema (asPassed parameter (nodes st a)) (nodes st a)
                                 (document st)) as [r|e] eqn:E; [|discriminate].
  cbn [bind] in H. injection H as <- <-.
  destruct (addParameterToSchema_inv _ _ _ _ E) as [[Hn Hd] | (name & Hr & Hn)].
  - (* nothing was written: the second call repeats the first *)
    split.
    + unfold addParameterToSchemaAt, commit. cbn [nodes document].
      rewrite updateNode_same, Hn, Hd, E. cbn [bind commit nodes document].
      eexists. split; [reflexivity|]. cbn [document]. congruence.
    + unfold commit. cbn [document]. congruence.
  - (* a new entry: the node now carries the reference *)
    rewrite asPassed_in in Hn.
    assert (K : knownReference (node r) (templ (getProp parameter "in"))
                = Ok (JStr (parameterRef name))).
    { rewrite Hn. now apply writeRef_known. }
    split.
    + unfold addParameterToSchemaAt, commit. cbn [nodes document].
      rewrite updateNode_same. unfold addParameterToSchema. cbv zeta.
      rewrite asPassed_in, K. cbn [bind defined commit reference rootDoc document].
      rewrite Hr. eexists. split; reflexivity.
    + intros _. unfold commit. cbn [nodes]. rewrite updateNode_same.
      unfold takesFastPath. now rewrite asPassed_in, K.
Qed.

(** C7: two schema objects of equal contents, at the addresses 1 and 2,
    on a fresh instance.  Registering the first adds [lang_query].
    Registering the second finds that equal entry and returns its
    reference; the object is left without a reference map, and a second
    registration of it has no fast path to take. *)
Lemma reused_entry_leaves_no_fast_path :
  match addParameterToSchemaAt (langQuery (languageCode "en")) 1 freshStore with
  | Ok (ref1, st1) =>
      match addParameterToSchemaAt (langQuery (languageCode "en")) 2 st1 with
      | Ok (ref2, st2) =>
          ref1 = JStr "#/components/parameters/lang_query"
          /\ ref2 = JStr "#/components/parameters/lang_query"
          /\ document st2 = document st1
          /\ nodes st2 2 = languageCode "en"
          /\ takesFastPath (asPassed (langQuery (languageCode "en")) (nodes st2 2))
                           (nodes st2 2) = false
      | Throw _ => False
      end
  | Throw _ => False
  end.
Proof. vm_compute. repeat split; reflexivity. Qed.

(** The first registration of the [de] node on a fresh instance, and the
    second. *)
Lemma parameter_registered_twice_witness :
  match addParameterToSchemaAt (langQuery (languageCode "de")) 0 freshStore with
  | Ok (ref, st1) =>
      (exists st2 : Store,
          addParameterToSchemaAt (langQuery (languageCode "de")) 0 st1 = Ok (ref, st2)
          /\ document st2 = document st1)
      /\ (document st1 <> document freshStore ->
          takesFastPath (asPassed (langQuery (languageCode "de")) (nodes st1 0))
                        (nodes st1 0) = true)
  | Throw _ => False
  end.
Proof.
  destruct (addParameterToSchemaAt (langQuery (languageCode "de")) 0 freshStore)
    as [[ref st1]|e] eqn:E.
  - apply (parameter_registered_twice _ 0 freshStore st1 ref); [reflexivity | exact E].
  - vm_compute in E. discriminate.
Defined.

(** ** Collisions *)

Lemma docOk_inv (doc : JValue) :
  docOk doc = true ->
  isObj doc = true /\ isObj (getProp doc "components") = true
  /\ isObj (parametersTable doc) = true.
Proof.
  unfold docOk, parametersTable. intros H.
  apply andb_true_iff in H. destruct H as [H H3].
  apply andb_true_iff in H. destruct H as [H1 H2].
  repeat split; try assumption.
  destruct (defined (parametersOf doc)) eqn:D; [|reflexivity].
  cbn [negb] in H3. now rewrite orb_false_r in H3.
Qed.

Lemma getProp_setProp_obj (v : JValue) (k : string) (x : JValue) :
  isObj v = true -> getProp (setProp v k x) k = x.
Proof.
  intros H. apply isObj_inv in H. destruct H as (sy & fs & ->).
  apply getProp_setProp_same.
Qed.

Lemma ensure_present (k : string) (v : JValue) :
  isObj (getProp v k) = true -> ensure k v = v.
Proof. intros H. unfold ensure. now rewrite (isObj_truthy _ H). Qed.

(** The document with its table in place. *)
Lemma withTable_table (doc : JValue) :
  docOk doc = true ->
  isObj (withTable doc) = true
  /\ isObj (getProp (withTable doc) "components") = true
  /\ parametersOf (withTable doc) = parametersTable doc.
Proof.
  intros Hok. destruct (docOk_inv doc Hok) as (Hd & Hc & Ht).
  unfold withTable, parametersTable in *.
  destruct (defined (parametersOf doc)) eqn:D.
  - auto.
  - cbn [setPath]. rewrite isObj_setProp. unfold parametersOf.
    rewrite (getProp_setProp_obj _ _ _ Hd), isObj_setProp.
    rewrite (getProp_setProp_obj _ _ _ Hc). auto.
Qed.

(** The table after an entry has been added under [name]. *)
Lemma parametersOf_addParameter (doc : JValue) (name : string) (v : JValue) :
  docOk doc = true ->
  parametersOf (addParameter name v (withTable doc))
  = setProp (parametersTable doc) name v
  /\ docOk (addParameter name v (withTable doc)) = true.
Proof.
  intros Hok. destruct (docOk_inv doc Hok) as (_ & _ & Ht).
  destruct (withTable_table doc Hok) as (Hd & Hc & HT).
  rewrite <- HT in *. clear HT.
  set (d := withTable doc) in *. unfold parametersOf in *.
  unfold addParameter. cbv zeta.
  rewrite (ensure_present "components" d Hc).
  rewrite (ensure_present "parameters" _ Ht).
  cbn [setPath].
  rewrite !(getProp_setProp_obj d "components" _ Hd).
  assert (Hd2 : isObj (setProp d "components" (getProp d "components")) = true)
    by now rewrite isObj_setProp.
  assert (E : getProp
                (getProp
                   (setProp (setProp d "components" (getProp d "components"))
                      "components"
                      (setProp (getProp d "components") "parameters"
                         (setProp (getProp (getProp d "components") "parameters")
                                  name v))) "components") "parameters"
              = setProp (getProp (getProp d "components") "parameters") name v).
  { rewrite (getProp_setProp_obj _ "components" _ Hd2).
    now rewrite (getProp_setProp_obj _ "parameters" _ Hc). }
  split; [exact E|].
  unfold docOk, parametersOf. rewrite E.
  rewrite isObj_setProp, Hd2.
  rewrite (getProp_setProp_obj _ "components" _ Hd2), !isObj_setProp, Hc, Ht.
  reflexivity.
Qed.

Lemma not_fast_path (q n : JValue) :
  nodeOk n = true -> takesFastPath q n = false ->
  exists known : JValue,
    knownReference n (templ (getProp q "in")) = Ok known /\ defined known = false.
Proof.
  intros Hok H. unfold takesFastPath in H. unfold knownReference, mustGet in *.
  rewrite (isObj_not_nullish _ (nodeOk_isObj _ Hok)) in *. cbn [bind] in *.
  eauto.
Qed.

(** A registration that does not take the fast path is decided by the probe. *)
Lemma register_by_probe (q n d : JValue) :
  docOk d = true -> nodeOk n = true -> takesFastPath q n = false ->
  let loc := templ (getProp q "in") in
  let base := templ (getProp q "name") +++ "_" +++ loc in
  (forall name : string,
      probe q (parametersTable d) base 2000 0 base = Fresh name ->
      addParameterToSchema q n d
      = Ok (mkRegistered (JStr (parameterRef name))
                         (writeRef n loc (parameterRef name))
                         (addParameter name (parameterCopy q n) (withTable d))))
  /\ (forall curName : string,
         probe q (parametersTable d) base 2000 0 base = Reuse curName ->
         addParameterToSchema q n d
         = Ok (mkRegistered (JStr (parameterRef curName)) n (withTable d))).
Proof.
  intros Hd Hn Hfast. cbv zeta.
  destruct (not_fast_path q n Hn Hfast) as (known & K & D).
  destruct (docOk_inv d Hd) as (Hobj & Hc & Ht).
  assert (E : addParameterToSchema q n d
             = (if isNullish (parametersTable d) then Throw TypeError
                else match probe q (parametersTable d)
                                 (templ (getProp q "name") +++ "_" +++ templ (getProp q "in"))
                                 2000 0
                                 (templ (getProp q "name") +++ "_" +++ templ (getProp q "in"))
                     with
                     | Reuse curName =>
                         Ok (mkRegistered (JStr (parameterRef curName)) n (withTable d))
                     | Fresh name =>
                         Ok (mkRegistered (JStr (parameterRef name))
                               (writeRef n (templ (getProp q "in")) (parameterRef name))
                               (addParameter name (parameterCopy q n) (withTable d)))
                     | Exhausted =>
                         Throw (ErrorMsg
            "Should never happen. 2000 Parameters with same name and no duplicate registered?")
                     end)).
  { unfold addParameterToSchema. cbv zeta. rewrite K. cbn [bind]. rewrite D.
    unfold mustGet. rewrite (isObj_not_nullish _ Hobj). cbn [bind].
    rewrite (isObj_not_nullish _ Hc). cbn [bind].
    reflexivity. }
  rewrite E.
  rewrite (isObj_not_nullish _ Ht).
  split; intros x P; now rewrite P.
Qed.

Lemma probe_fresh (q T : JValue) (base : string) (r i : nat) (cur : string) :
  truthy (getProp T cur) = false -> probe q T base (S r) i cur = Fresh cur.
Proof. intros H. cbn [probe]. now rewrite H. Qed.

Lemma probe_reuse (q T : JValue) (base : string) (r i : nat) (cur : string) :
  truthy (getProp T cur) = true ->
  isDeepEqual q (getProp T cur) ["open_api_ref"] = true ->
  probe q T base (S r) i cur = Reuse cur.
Proof. intros H1 H2. cbn [probe]. now rewrite H1, H2. Qed.

Lemma probe_next (q T : JValue) (base : string) (r i : nat) (cur : string) :
  truthy (getProp T cur) = true ->
  isDeepEqual q (getProp T cur) ["open_api_ref"] = false ->
  probe q T base (S r) i cur = probe q T base r (S i) (base +++ string_of_nat i).
Proof. intros H1 H2. cbn [probe]. now rewrite H1, H2. Qed.

Lemma strictEq_JStr (v : JValue) (s : string) : strictEq v (JStr s) = true -> v = JStr s.
Proof.
  destruct v; simpl; try discriminate. intros H. apply String.eqb_eq in H. now subst.
Qed.

Lemma freshLangQuery_inv (p n : JValue) :
  freshLangQuery p n = true ->
  isObj p = true /\ getProp p "in" = JStr "query" /\ getProp p "name" = JStr "lang"
  /\ nodeOk n = true /\ takesFastPath (asPassed p n) n = false.
Proof.
  unfold freshLangQuery. intros H.
  repeat (apply andb_true_iff in H; destruct H as [H ?]).
  repeat split; auto using strictEq_JStr.
  now apply negb_true_iff.
Qed.

Lemma isObj_parameterCopy (q n : JValue) : isObj q = true -> isObj (parameterCopy q n) = true.
Proof. intros H. unfold parameterCopy. now rewrite !isObj_setProp. Qed.

Lemma parametersTable_defined (doc : JValue) :
  isObj (parametersOf doc) = true ->
  parametersTable doc = parametersOf doc /\ withTable doc = doc.
Proof.
  intros H. unfold parametersTable, withTable.
  now rewrite (isObj_defined _ H).
Qed.

(** One registration of a [lang] query parameter, by what the probe finds. *)
Lemma register_lang (p : JValue) (a : nat) (st : Store) :
  docOk (document st) = true ->
  freshLangQuery p (nodes st a) = true ->
  let q := asPassed p (nodes st a) in
  let T := parametersTable (document st) in
  (forall name : string,
      probe q T "lang_query" 2000 0 "lang_query" = Fresh name ->
      exists st1 : Store,
        addParameterToSchemaAt p a st = Ok (JStr (parameterRef name), st1)
        /\ docOk (document st1) = true
        /\ parametersOf (document st1) = setProp T name (parameterCopy q (nodes st a))
        /\ (forall b : nat, a <> b -> nodes st1 b = nodes st b))
  /\ (forall curName : string,
         probe q T "lang_query" 2000 0 "lang_query" = Reuse curName ->
         exists st1 : Store,
           addParameterToSchemaAt p a st = Ok (JStr (parameterRef curName), st1)
           /\ document st1 = withTable (document st)).
Proof.
  intros Hd Hf. cbv zeta.
  destruct (freshLangQuery_inv _ _ Hf) as (Hp & Hin & Hname & Hn & Hfast).
  pose proof (register_by_probe _ _ _ Hd Hn Hfast) as R. cbv zeta in R.
  rewrite asPassed_in, asPassed_name, Hin, Hname in R.
  change (templ (JStr "lang") +++ "_" +++ templ (JStr "query")) with "lang_query" in R.
  change (templ (JStr "query")) with "query" in R.
  destruct R as [RF RR]. split.
  - intros name P. unfold addParameterToSchemaAt. rewrite (RF name P).
    cbn [bind commit reference node rootDoc].
    destruct (parametersOf_addParameter (document st) name
                (parameterCopy (asPassed p (nodes st a)) (nodes st a)) Hd) as [E1 E2].
    eexists. split; [reflexivity|]. cbn [document nodes].
    repeat split; auto. intros b Hb. now apply updateNode_other.
  - intros cur P. unfold addParameterToSchemaAt. rewrite (RR cur P).
    cbn [bind commit reference node rootDoc].
    eexists. split; reflexivity.
Qed.

(** Where the comparison of the probe tells the second parameter from the
    first and the third from the first, and finds the third equal to the
    second: the parameters named [lang] for the location [query] are
    registered as [lang_query] and [lang_query0], and the third, another
    schema object, gets the reference of the second and adds nothing to
    the document. *)
Lemma lang_collision (p1 p2 p3 : JValue) (a1 a2 a3 : nat) (st : Store) :
  a1 <> a2 -> a1 <> a3 -> a2 <> a3 ->
  docOk (document st) = true ->
  truthy (getProp (parametersTable (document st)) "lang_query") = false ->
  truthy (getProp (parametersTable (document st)) "lang_query0") = false ->
  freshLangQuery p1 (nodes st a1) = true ->
  freshLangQuery p2 (nodes st a2) = true ->
  freshLangQuery p3 (nodes st a3) = true ->
  equalsStored p2 (nodes st a2) p1 (nodes st a1) = false ->
  equalsStored p3 (nodes st a3) p1 (nodes st a1) = false ->
  equalsStored p3 (nodes st a3) p2 (nodes st a2) = true ->
  exists st1 st2 st3 : Store,
    addParameterToSchemaAt p1 a1 st
    = Ok (JStr "#/components/parameters/lang_query", st1)
    /\ addParameterToSchemaAt p2 a2 st1
       = Ok (JStr "#/components/parameters/lang_query0", st2)
    /\ addParameterToSchemaAt p3 a3 st2
       = Ok (JStr "#/components/parameters/lang_query0", st3)
    /\ document st3 = document st2
    /\ getProp (parametersOf (document st2)) "lang_query"
       = parameterCopy (asPassed p1 (nodes st a1)) (nodes st a1)
    /\ getProp (parametersOf (document st2)) "lang_query0"
       = parameterCopy (asPassed p2 (nodes st a2)) (nodes st a2).
Proof.
  intros N12 N13 N23 Hd F0 F1 L1 L2 L3 D21 D31 E32.
  destruct (docOk_inv _ Hd) as (_ & _ & HT0).
  set (T0 := parametersTable (document st)) in *.
  set (c1 := parameterCopy (asPassed p1 (nodes st a1)) (nodes st a1)) in *.
  set (c2 := parameterCopy (asPassed p2 (nodes st a2)) (nodes st a2)) in *.
  assert (Hc1 : isObj c1 = true).
  { apply isObj_parameterCopy. unfold asPassed. rewrite isObj_setProp.
    now destruct (freshLangQuery_inv _ _ L1). }
  assert (Hc2 : isObj c2 = true).
  { apply isObj_parameterCopy. unfold asPassed. rewrite isObj_setProp.
    now destruct (freshLangQuery_inv _ _ L2). }
  (* first registration: the name is free *)
  destruct (proj1 (register_lang p1 a1 st Hd L1) "lang_query")
    as (st1 & R1 & Hd1 & P1 & K1).
  { change 2000 with (S 1999). now apply probe_fresh. }
  fold T0 c1 in P1.
  assert (HT1 : isObj (parametersOf (document st1)) = true)
    by now rewrite P1, isObj_setProp.
  destruct (parametersTable_defined _ HT1) as [TT1 _].
  (* second registration: lang_query is taken by a different parameter *)
  rewrite <- (K1 a2 N12) in L2.
  destruct (proj1 (register_lang p2 a2 st1 Hd1 L2) "lang_query0")
    as (st2 & R2 & Hd2 & P2 & K2).
  { rewrite TT1, P1, (K1 a2 N12). change 2000 with (S 1999).
    rewrite probe_next.
    - change ("lang_query" +++ string_of_nat 0) with "lang_query0".
      change 1999 with (S 1998). apply probe_fresh.
      rewrite getProp_setProp_other by discriminate. exact F1.
    - now rewrite (getProp_setProp_obj _ _ _ HT0), (isObj_truthy _ Hc1).
    - rewrite (getProp_setProp_obj _ _ _ HT0). exact D21. }
  rewrite TT1, P1, (K1 a2 N12) in P2. fold c2 in P2.
  assert (HT2 : isObj (parametersOf (document st2)) = true)
    by now rewrite P2, !isObj_setProp.
  destruct (parametersTable_defined _ HT2) as [TT2 WT2].
  assert (G1 : getProp (parametersOf (document st2)) "lang_query" = c1).
  { rewrite P2, getProp_setProp_other by discriminate.
    apply (getProp_setProp_obj _ _ _ HT0). }
  assert (G2 : getProp (parametersOf (document st2)) "lang_query0" = c2).
  { rewrite P2. apply getProp_setProp_obj. now rewrite isObj_setProp. }
  (* third registration: equal to the entry under lang_query0 *)
  assert (K3 : nodes st2 a3 = nodes st a3).
  { rewrite (K2 a3 N23). apply (K1 a3 N13). }
  rewrite <- K3 in L3.
  destruct (proj2 (register_lang p3 a3 st2 Hd2 L3) "lang_query0")
    as (st3 & R3 & D3).
  { rewrite TT2, K3. change 2000 with (S 1999).
    rewrite probe_next.
    - change ("lang_query" +++ string_of_nat 0) with "lang_query0".
      change 1999 with (S 1998). apply probe_reuse.
      + now rewrite G2, (isObj_truthy _ Hc2).
      + rewrite G2. exact E32.
    - now rewrite G1, (isObj_truthy _ Hc1).
    - rewrite G1. exact D31. }
  exists st1, st2, st3. repeat split; auto.
  now rewrite D3, WT2.
Qed.

(** On a fresh instance: [de], then [en], then another schema object that
    says [en]. *)
Lemma lang_collision_witness :
  exists st1 st2 st3 : Store,
    addParameterToSchemaAt (langQuery (languageCode "de")) 0 freshStore
    = Ok (JStr "#/components/parameters/lang_query", st1)
    /\ addParameterToSchemaAt (langQuery (languageCode "en")) 1 st1
       = Ok (JStr "#/components/parameters/lang_query0", st2)
    /\ addParameterToSchemaAt (langQuery (languageCode "en")) 2 st2
       = Ok (JStr "#/components/parameters/lang_query0", st3)
    /\ document st3 = document st2
    /\ getProp (parametersOf (document st2)) "lang_query"
       = parameterCopy (asPassed (langQuery (languageCode "de")) (nodes freshStore 0))
                       (nodes freshStore 0)
    /\ getProp (parametersOf (document st2)) "lang_query0"
       = parameterCopy (asPassed (langQuery (languageCode "en")) (nodes freshStore 1))
                       (nodes freshStore 1).
Proof.
  apply (lang_collision (langQuery (languageCode "de")) (langQuery (languageCode "en"))
                        (langQuery (languageCode "en")) 0 1 2 freshStore);
    try reflexivity; discriminate.
Defined.

(** C8.  The comparison of the probe does not tell a number or a boolean
    from an object without keys, so parameters that differ are taken for
    equal.  On a fresh instance the [lang] query parameter whose schema
    has [examples: 5] is registered as [lang_query], and the one whose
    schema has [examples: {}], a different parameter, gets the same
    reference [lang_query]: nothing is added and there is no
    [lang_query0].  Registered after the parameters with [examples: 5] and
    [examples: true], which do get [lang_query] and [lang_query0], the one
    with [examples: {}] gets [lang_query], the reference of the first. *)
Theorem lang_collision_takes_different_for_equal :
  getPath ["schema"; "examples"] (langQuery (examplesNode (JNum 5))) = JNum 5
  /\ getPath ["schema"; "examples"] (langQuery (examplesNode (obj []))) = obj []
  /\ getPath ["schema"; "examples"] (langQuery (examplesNode (JBool true))) = JBool true
  /\ (exists st1 st2 : Store,
         addParameterToSchemaAt (langQuery (examplesNode (JNum 5))) 0 mixedStore
         = Ok (JStr "#/components/parameters/lang_query", st1)
         /\ addParameterToSchemaAt (langQuery (examplesNode (obj []))) 1 st1
            = Ok (JStr "#/components/parameters/lang_query", st2)
         /\ document st2 = document st1
         /\ getProp (parametersOf (document st2)) "lang_query0" = JUndefined)
  /\ (exists st1 st2 st3 : Store,
         addParameterToSchemaAt (langQuery (examplesNode (JNum 5))) 0 mixedStore
         = Ok (JStr "#/components/parameters/lang_query", st1)
         /\ addParameterToSchemaAt (langQuery (examplesNode (JBool true))) 2 st1
            = Ok (JStr "#/components/parameters/lang_query0", st2)
         /\ addParameterToSchemaAt (langQuery (examplesNode (obj []))) 1 st2
            = Ok (JStr "#/components/parameters/lang_query", st3)
         /\ document st3 = document st2).
Proof.
  split; [reflexivity|]. split; [reflexivity|]. split; [reflexivity|]. split.
  - eexists. eexists. split; [reflexivity|]. split; [reflexivity|].
    split; reflexivity.
  - eexists. eexists. eexists. split; [reflexivity|]. split; [reflexivity|].
    split; reflexivity.
Qed.

End StoreFacts.

(* ====================================================================== *)
(** * Route registration: path parameters *)
(* ====================================================================== *)

Module RouteFacts.
Import TypeBox TypeSystem OpenApi Examples StoreFacts.

(** ** The scan of a route path *)

Lemma append_assoc (a b c : string) : (a +++ b) +++ c = a +++ (b +++ c).
Proof. induction a as [|x a IH]; simpl; congruence. Qed.

Lemma append_empty (a : string) : a +++ "" = a.
Proof. induction a as [|x a IH]; simpl; congruence. Qed.

(** Text without [/] read from [Idle] leaves the scan in [Idle]. *)
Lemma matchAll_idle_text (text rest : string) :
  allChars notSlash text = true ->
  matchAll Idle (text +++ rest) = matchAll Idle rest.
Proof.
  induction text as [|c text IH]; simpl; [reflexivity|].
  intros H. apply andb_true_iff in H. destruct H as [Hc Ht].
  unfold notSlash in Hc. apply negb_true_iff in Hc. rewrite Hc. now apply IH.
Qed.

(** Word characters read inside a match extend it. *)
Lemma matchAll_word (name text rest : string) :
  allChars isWordChar name = true ->
  matchAll (InMatch text) (name +++ rest) = matchAll (InMatch (text +++ name)) rest.
Proof.
  revert text. induction name as [|c name IH]; intros text H; simpl.
  - now rewrite append_empty.
  - simpl in H. apply andb_true_iff in H. destruct H as [Hc Hn].
    rewrite Hc, (IH _ Hn), append_assoc. reflexivity.
Qed.

(** Reading the [/] that opens a segment reports the pending match. *)
Lemma matchAll_open (st : Scan) (rest : string) :
  matchAll st (String "/" rest) = pending st ++ matchAll Slash rest.
Proof. destruct st; reflexivity. Qed.

(** A static segment, read after its [/], reports nothing. *)
Lemma matchAll_static (text rest : string) :
  segmentOk (Static text) = true ->
  exists st : Scan,
    pending st = [] /\ matchAll Slash (text +++ rest) = matchAll st rest.
Proof.
  cbn [segmentOk]. intros H. apply andb_true_iff in H. destruct H as [Ht Hs].
  destruct text as [|c text].
  - exists Slash. split; reflexivity.
  - exists Idle. split; [reflexivity|].
    cbn [startsWith] in Hs. apply negb_true_iff in Hs.
    cbn [allChars] in Ht. apply andb_true_iff in Ht. destruct Ht as [Hc Ht].
    unfold notSlash in Hc. apply negb_true_iff in Hc.
    cbn [String.append matchAll]. rewrite Hs, Hc. now apply matchAll_idle_text.
Qed.

(** A parameter segment, read after its [/], leaves its match pending or
    reports it and goes on in [Idle]. *)
Lemma matchAll_param (name suffix rest : string) :
  segmentOk (Param name suffix) = true ->
  exists (st : Scan) (out : list string),
    out ++ pending st = ["/:" +++ name]
    /\ matchAll Slash ((":" +++ name +++ suffix) +++ rest) = out ++ matchAll st rest.
Proof.
  cbn [segmentOk]. intros H.
  apply andb_true_iff in H. destruct H as [H Hw].
  apply andb_true_iff in H. destruct H as [Hn Hs].
  change ((":" +++ name +++ suffix) +++ rest)
    with (String ":" ((name +++ suffix) +++ rest)).
  cbn [matchAll]. rewrite Ascii.eqb_refl.
  rewrite append_assoc, (matchAll_word name "/:" _ Hn).
  destruct suffix as [|c suffix].
  - exists (InMatch ("/:" +++ name)), []. split; reflexivity.
  - exists Idle, ["/:" +++ name]. split; [reflexivity|].
    cbn [startsWith] in Hw. apply negb_true_iff in Hw.
    cbn [allChars] in Hs. apply andb_true_iff in Hs. destruct Hs as [Hc Hs].
    unfold notSlash in Hc. apply negb_true_iff in Hc.
    change (String c suffix +++ rest) with (String c (suffix +++ rest)).
    cbn [matchAll]. rewrite Hw, Hc.
    cbn [app]. f_equal. now apply matchAll_idle_text.
Qed.

(** The matches of a path made of well-formed segments are its parameter
    segments, in order, each as [/:name]. *)
Lemma matchAll_segments (segs : list Segment) (st : Scan) :
  forallb segmentOk segs = true ->
  matchAll st (pathOf segs)
  = pending st ++ map (fun name => "/:" +++ name) (paramNames segs).
Proof.
  revert st. induction segs as [|seg segs IH]; intros st H.
  - cbn [pathOf fold_right map paramNames flat_map]. rewrite app_nil_r.
    destruct st; reflexivity.
  - cbn [forallb] in H. apply andb_true_iff in H. destruct H as [Hseg Hsegs].
    cbn [pathOf fold_right]. fold (pathOf segs).
    destruct seg as [text | name suffix].
    + change (render (Static text) +++ pathOf segs)
        with (String "/" (text +++ pathOf segs)).
      rewrite matchAll_open.
      destruct (matchAll_static text (pathOf segs) Hseg) as (st' & Hp & E).
      rewrite E, (IH st' Hsegs), Hp. reflexivity.
    + change (render (Param name suffix) +++ pathOf segs)
        with (String "/" ((":" +++ name +++ suffix) +++ pathOf segs)).
      rewrite matchAll_open.
      destruct (matchAll_param name suffix (pathOf segs) Hseg) as (st' & out & Hp & E).
      rewrite E, (IH st' Hsegs).
      cbn [paramNames flat_map map app]. f_equal.
      rewrite (app_assoc out), Hp. reflexivity.
Qed.

Lemma substring_after_colon (name : string) :
  substring 2 (String.length ("/:" +++ name) - 2) ("/:" +++ name) = name.
Proof. simpl. rewrite Nat.sub_0_r. apply SamplerFacts.substring_whole. Qed.

(** The parameters inferred from a path of well-formed segments. *)
Lemma inferred_parameters (segs : list Segment) :
  forallb segmentOk segs = true ->
  map inferredPathParameter (matchPathParams (pathOf segs))
  = map inlinePathParameter (paramNames segs).
Proof.
  intros H. unfold matchPathParams. rewrite (matchAll_segments segs Idle H).
  cbn [pending app]. rewrite map_map. apply map_ext. intros name.
  unfold inferredPathParameter, inlinePathParameter.
  now rewrite substring_after_colon.
Qed.

(** ** The parameters of an operation *)

Lemma truthy_path (segs : list Segment) :
  truthy (JStr (pathOf segs)) = match segs with [] => false | _ => true end.
Proof. destruct segs as [|[text|name suffix] segs]; reflexivity. Qed.

Lemma inline_not_reference (names : list string) :
  Forall (fun p => isReference p = false) (map inlinePathParameter names).
Proof. induction names; simpl; constructor; auto. Qed.

(** The declared parameters of one location are appended as references. *)
Lemma addParameterFor_references (type : string) (typeSchema : option ObjectSchema)
    (acc ps : list JValue) (st st' : Store) :
  addParameterFor type typeSchema (acc, st) = Ok (ps, st') ->
  Forall (fun p => isReference p = true) acc ->
  Forall (fun p => isReference p = true) ps.
Proof.
  unfold addParameterFor. destruct typeSchema as [definition|].
  - generalize (properties definition). intros l. revert acc st.
    induction l as [|[name a] l IH]; intros acc st H Hacc.
    + cbn [fold_left] in H. now injection H as <- <-.
    + cbn [fold_left bind] in H.
      destruct (parameterObject type name (required definition) (nodes st a))
        as [parameterObj|e].
      * cbn [bind] in H.
        destruct (addParameterToSchemaAt parameterObj a st) as [[ref st1]|e].
        -- cbn [bind fst snd] in H. apply IH in H; [exact H|].
           apply Forall_app. split; [assumption|]. constructor; [reflexivity|constructor].
        -- cbn [bind] in H. exfalso. clear - H.
           induction l as [|[n b] l IHl]; [discriminate|]. now apply IHl.
      * cbn [bind] in H. exfalso. clear - H.
        induction l as [|[n b] l IHl]; [discriminate|]. now apply IHl.
  - intros H. now injection H as <- <-.
Qed.

Lemma declaredParameters_references (validationSchema : ValidationSchemas)
    (st st' : Store) (refs : list JValue) :
  declaredParameters validationSchema st = Ok (refs, st') ->
  Forall (fun p => isReference p = true) refs.
Proof.
  unfold declaredParameters. intros H.
  destruct (addParameterFor "query" _ _) as [[ps1 st1]|e] eqn:E1; [|discriminate].
  cbn [bind] in H.
  destruct (addParameterFor "cookie" _ _) as [[ps2 st2]|e] eqn:E2; [|discriminate].
  cbn [bind] in H.
  apply addParameterFor_references in E1; [|constructor].
  apply addParameterFor_references in E2; [|assumption].
  now apply addParameterFor_references in H.
Qed.

(** ** The operation in the document *)

Lemma isObj_ensure (k : string) (v : JValue) : isObj (ensure k v) = isObj v.
Proof. unfold ensure. destruct (truthy _); [reflexivity | apply isObj_setProp]. Qed.

Lemma paths_ensure_components (v : JValue) :
  getProp (ensure "components" v) "paths" = getProp v "paths".
Proof.
  unfold ensure. destruct (truthy _); [reflexivity|].
  apply getProp_setProp_other. discriminate.
Qed.

Lemma routeDocOk_setComponents (d x : JValue) :
  routeDocOk (setProp d "components" x) = routeDocOk d.
Proof.
  unfold routeDocOk. rewrite isObj_setProp.
  now rewrite getProp_setProp_other by discriminate.
Qed.

Lemma routeDocOk_ensure (d : JValue) : routeDocOk (ensure "components" d) = routeDocOk d.
Proof.
  unfold ensure. destruct (truthy _); [reflexivity | apply routeDocOk_setComponents].
Qed.

Lemma routeDocOk_addSchema (name : string) (v d : JValue) :
  routeDocOk (addSchema name v d) = routeDocOk d.
Proof.
  unfold addSchema. cbv zeta. cbn [setPath].
  now rewrite !routeDocOk_setComponents, routeDocOk_ensure.
Qed.

Lemma routeDocOk_addParameter (name : string) (v d : JValue) :
  routeDocOk (addParameter name v d) = routeDocOk d.
Proof.
  unfold addParameter. cbv zeta. cbn [setPath].
  now rewrite !routeDocOk_setComponents, routeDocOk_ensure.
Qed.

Lemma routeDocOk_addBodyTypeToSchema (name : string) (schema doc : JValue) (r : Registered) :
  addBodyTypeToSchema name schema doc = Ok r -> routeDocOk (rootDoc r) = routeDocOk doc.
Proof.
  unfold addBodyTypeToSchema. intros H.
  destruct (knownReference schema "body") as [known|e]; [|discriminate].
  cbn [bind] in H. destruct (defined known); injection H as <-; cbn [rootDoc];
    [reflexivity | apply routeDocOk_addSchema].
Qed.

Lemma routeDocOk_addParameterToSchema (parameter schema doc : JValue) (r : Registered) :
  addParameterToSchema parameter schema doc = Ok r ->
  routeDocOk (rootDoc r) = routeDocOk doc.
Proof.
  unfold addParameterToSchema. cbv zeta. intros H.
  destruct (knownReference schema _) as [known|e]; [|discriminate].
  cbn [bind] in H. destruct (defined known).
  - now injection H as <-.
  - destruct (mustGet doc "components") as [components|e]; [|discriminate].
    cbn [bind] in H.
    destruct (mustGet components "parameters") as [parameters0|e]; [|discriminate].
    cbn [bind] in H.
    destruct (isNullish _); [discriminate|].
    assert (D1 : routeDocOk (if defined parameters0 then doc
                             else setPath ["components"; "parameters"] (obj []) doc)
                 = routeDocOk doc).
    { destruct (defined parameters0); [reflexivity|].
      cbn [setPath]. apply routeDocOk_setComponents. }
    destruct (probe _ _ _ _ _ _); [| |discriminate]; injection H as <-; cbn [rootDoc].
    + exact D1.
    + now rewrite routeDocOk_addParameter.
Qed.

Lemma routeDocOk_addParameterFor (type : string) (typeSchema : option ObjectSchema)
    (acc ps : list JValue) (st st' : Store) :
  addParameterFor type typeSchema (acc, st) = Ok (ps, st') ->
  routeDocOk (document st') = routeDocOk (document st).
Proof.
  unfold addParameterFor. destruct typeSchema as [definition|].
  - generalize (properties definition). intros l. revert acc st.
    induction l as [|[name a] l IH]; intros acc st H.
    + cbn [fold_left] in H. now injection H as <- <-.
    + cbn [fold_left bind] in H.
      destruct (parameterObject type name (required definition) (nodes st a))
        as [parameterObj|e].
      * cbn [bind] in H.
        destruct (addParameterToSchemaAt parameterObj a st) as [[ref st1]|e] eqn:E.
        -- cbn [bind fst snd] in H. apply IH in H. rewrite H.
           unfold addParameterToSchemaAt in E.
           destruct (addParameterToSchema _ _ _) as [r|e] eqn:R; [|discriminate].
           cbn [bind commit] in E. injection E as <- <-. cbn [document].
           now apply routeDocOk_addParameterToSchema in R.
        -- cbn [bind] in H. exfalso. clear - H.
           induction l as [|[n b] l IHl]; [discriminate|]. now apply IHl.
      * cbn [bind] in H. exfalso. clear - H.
        induction l as [|[n b] l IHl]; [discriminate|]. now apply IHl.
  - intros H. now injection H as <- <-.
Qed.

Lemma routeDocOk_routeParameters (validationSchema : ValidationSchemas) (path : string)
    (st st' : Store) (ps : list JValue) :
  routeParameters validationSchema path st = Ok (ps, st') ->
  routeDocOk (document st') = routeDocOk (document st).
Proof.
  unfold routeParameters, declaredParameters. intros H.
  destruct (addParameterFor "query" _ _) as [[ps1 st1]|e] eqn:E1; [|discriminate].
  cbn [bind] in H.
  destruct (addParameterFor "cookie" _ _) as [[ps2 st2]|e] eqn:E2; [|discriminate].
  cbn [bind] in H.
  destruct (addParameterFor "header" _ _) as [[ps3 st3]|e] eqn:E3; [|discriminate].
  cbn [bind] in H.
  apply routeDocOk_addParameterFor in E1, E2, E3.
  destruct (v_param validationSchema).
  - apply routeDocOk_addParameterFor in H. congruence.
  - destruct (truthy (JStr path)); injection H as <- <-; cbn [snd]; congruence.
Qed.

(** The operation of a path item survives the merge with the stored item. *)
Lemma lookup_spread_pathInfo (method : string) (operation x y : JValue) (old : Fields) :
  lookup method
         (spread old (setField method operation [("$ref", x); ("servers", y)]))
  = Some operation.
Proof.
  cbn [setField].
  destruct (String.eqb method "$ref") eqn:E1.
  - apply String.eqb_eq in E1. subst method. cbn [spread fold_left fst snd].
    rewrite lookup_setField_other by discriminate.
    now rewrite lookup_setField_same.
  - destruct (String.eqb method "servers") eqn:E2.
    + apply String.eqb_eq in E2. subst method. cbn [spread fold_left fst snd].
      now rewrite lookup_setField_same.
    + cbn [spread fold_left fst snd]. now rewrite lookup_setField_same.
Qed.

(** What [addPath] leaves under [paths[path][method]]. *)
Lemma addPath_operation (path method : string) (operation : JValue)
    (pathInfo : Fields) (d : JValue) :
  routeDocOk d = true ->
  (forall old : Fields, lookup method (spread old pathInfo) = Some operation) ->
  getPath ["paths"; path; method] (addPath path pathInfo d) = operation.
Proof.
  unfold routeDocOk. intros H Hop. apply andb_true_iff in H. destruct H as [Hd Hp].
  unfold addPath. cbv zeta. cbn [getPath setPath].
  set (d1 := ensure "paths" d).
  assert (Hd1 : isObj d1 = true) by (unfold d1; now rewrite isObj_ensure).
  assert (Hp1 : isObj (getProp d1 "paths") = true).
  { unfold d1, ensure. destruct (truthy (getProp d "paths")) eqn:T.
    - cbn [negb] in Hp. now rewrite orb_false_r in Hp.
    - now rewrite (getProp_setProp_obj _ _ _ Hd). }
  rewrite (getProp_setProp_obj _ _ _ Hd1), (getProp_setProp_obj _ _ _ Hp1).
  unfold obj. cbn [getProp]. now rewrite Hop.
Qed.

(** The operation a registration writes lists the parameters computed for
    the route, in the store the request body left. *)
Lemma route_operation_parameters (defaultTag : JValue) (method path : string)
    (routeDefinition : JValue) (validationSchema : ValidationSchemas)
    (st st'' : Store) :
  routeDocOk (document st) = true ->
  negb (defined routeDefinition)
  && defined (optGet (optGet (getProp (document st) "paths") path) method) = false ->
  addOrAugmentOpenApiRoute defaultTag method path routeDefinition validationSchema st
  = Ok st'' ->
  exists (st0 : Store) (ps : list JValue) (st' : Store),
    (v_json validationSchema = None -> st0 = st)
    /\ routeParameters validationSchema path st0 = Ok (ps, st')
    /\ getPath ["paths"; path; method; "parameters"] (document st'') = JArr ps.
Proof.
  intros Hd Hfirst H. unfold addOrAugmentOpenApiRoute in H. cbv zeta in H.
  rewrite Hfirst in H.
  assert (B : exists (requestBody : JValue) (st0 : Store),
             match v_json validationSchema with
             | None => Ok (JUndefined, st)
             | Some a =>
                 r <- addBodyTypeToSchemaAt
                        (capitalizedRoute path +++ "Request_" +++ method) a st ;;
                 Ok (obj [("content",
                           obj [("application/json",
                                 obj [("schema", obj [("$ref", fst r)])])])],
                     snd r)
             end = Ok (requestBody, st0)
             /\ routeDocOk (document st0) = true
             /\ (v_json validationSchema = None -> st0 = st)).
  { destruct (v_json validationSchema) as [a|].
    - destruct (addBodyTypeToSchemaAt _ a st) as [[ref st0]|e] eqn:E; [|discriminate].
      cbn [bind fst snd]. eexists _, st0. split; [reflexivity|]. split; [|discriminate].
      unfold addBodyTypeToSchemaAt in E.
      destruct (addBodyTypeToSchema _ _ _) as [r|e] eqn:R; [|discriminate].
      cbn [bind commit] in E. injection E as <- <-. cbn [document].
      now rewrite (routeDocOk_addBodyTypeToSchema _ _ _ _ R).
    - exists JUndefined, st. auto. }
  destruct B as (requestBody & st0 & B & Hd0 & Hst0). rewrite B in H.
  unfold bind at 1 in H. unfold snd at 1 in H.
  destruct (routeParameters validationSchema path st0) as [[ps st']|e] eqn:R;
    [|discriminate].
  unfold bind, fst, snd in H. injection H as <-.
  exists st0, ps, st'. split; [exact Hst0|]. split; [exact R|]. cbn [document].
  change ["paths"; path; method; "parameters"]
    with (["paths"; path; method] ++ ["parameters"]).
  rewrite getPath_app.
  erewrite addPath_operation; cycle 1.
  - now rewrite (routeDocOk_routeParameters _ _ _ _ _ R).
  - intros old. apply lookup_spread_pathInfo.
  - reflexivity.
Qed.

(** C10.  The [parameters] of an operation whose route path is made of the
    segments [segs].  Without a declared path schema they are the
    references of the declared query, cookie and header parameters followed
    by one inline parameter per [:name] segment, in order, with
    [in: 'path'], that name, a string schema and [required: true]; the
    inline parameters are no references and the store is the one the
    declared parameters left, so nothing is added to
    [components.parameters] for them.  With a declared path schema every
    parameter of the operation is a reference and no path is scanned.
    When the route is registered (the operation not left as it is), the
    list computed in the store the request body left is what the document
    holds under [paths[path][method].parameters]. *)
Theorem path_parameters_inferred (validationSchema : ValidationSchemas)
    (segs : list Segment) :
  forallb segmentOk segs = true ->
  (v_param validationSchema = None ->
   forall (st : Store) (ps : list JValue) (st' : Store),
     routeParameters validationSchema (pathOf segs) st = Ok (ps, st') ->
     exists refs : list JValue,
       declaredParameters validationSchema st = Ok (refs, st')
       /\ ps = refs ++ map inlinePathParameter (paramNames segs)
       /\ Forall (fun p => isReference p = true) refs
       /\ Forall (fun p => isReference p = false)
                 (map inlinePathParameter (paramNames segs)))
  /\ (forall param : ObjectSchema,
         v_param validationSchema = Some param ->
         forall st : Store,
           routeParameters validationSchema (pathOf segs) st
           = (s3 <- declaredParameters validationSchema st ;;
              addParameterFor "path" (Some param) s3)
           /\ forall (ps : list JValue) (st' : Store),
                routeParameters validationSchema (pathOf segs) st = Ok (ps, st') ->
                Forall (fun p => isReference p = true) ps)
  /\ (forall (defaultTag : JValue) (method : string) (routeDefinition : JValue)
            (st st'' : Store),
         routeDocOk (document st) = true ->
         negb (defined routeDefinition)
         && defined (optGet (optGet (getProp (document st) "paths") (pathOf segs))
                            method) = false ->
         addOrAugmentOpenApiRoute defaultTag method (pathOf segs) routeDefinition
                                  validationSchema st = Ok st'' ->
         exists (st0 : Store) (ps : list JValue) (st' : Store),
           (v_json validationSchema = None -> st0 = st)
           /\ routeParameters validationSchema (pathOf segs) st0 = Ok (ps, st')
           /\ getPath ["paths"; pathOf segs; method; "parameters"] (document st'')
              = JArr ps).
Proof.
  intros Hsegs. split; [|split].
  - intros Hnone st ps st' H. unfold routeParameters in H. rewrite Hnone in H.
    destruct (declaredParameters validationSchema st) as [[refs st3]|e] eqn:E;
      [|discriminate].
    cbn [bind fst snd] in H. rewrite truthy_path in H.
    exists refs.
    assert (Hrefs := declaredParameters_references _ _ _ _ E).
    destruct segs as [|seg segs'].
    + injection H as <- <-. cbn [paramNames flat_map map]. rewrite app_nil_r.
      repeat split; auto.
    + injection H as <- <-.
      change (render seg +++ pathOf segs') with (pathOf (seg :: segs')).
      rewrite (inferred_parameters _ Hsegs).
      repeat split; auto using inline_not_reference.
  - intros param Hsome st. unfold routeParameters. rewrite Hsome. split; [reflexivity|].
    intros ps st' H.
    destruct (declaredParameters validationSchema st) as [[refs st3]|e] eqn:E;
      [|discriminate].
    cbn [bind] in H. apply declaredParameters_references in E.
    now apply addParameterFor_references in H.
  - intros defaultTag method routeDefinition st st''. apply route_operation_parameters.
Qed.

(** The route of the test [pathsInferred], registered without a middleware
    on a fresh instance: two inline parameters, [bar] and [baz]. *)
Lemma path_parameters_inferred_witness :
  exists refs : list JValue,
    declaredParameters noValidation freshStore = Ok (refs, freshStore)
    /\ [inlinePathParameter "bar"; inlinePathParameter "baz"]
       = refs ++ map inlinePathParameter (paramNames fooBarSegments)
    /\ Forall (fun p => isReference p = true) refs
    /\ Forall (fun p => isReference p = false)
              (map inlinePathParameter (paramNames fooBarSegments)).
Proof.
  apply (proj1 (path_parameters_inferred noValidation fooBarSegments eq_refl) eq_refl).
  reflexivity.
Defined.

End RouteFacts.

(* ====================================================================== *)
(** * types.ts: mergePath, deepCloneAndMerge, and the excluded routes *)
(* ====================================================================== *)

Module HelperFacts.
Import TypeBox TypeSystem Helpers OpenApi Routing Examples EqualFacts.

(** ** mergePath *)

Lemma append_nil_r (s : string) : s +++ "" = s.
Proof. induction s as [|c s IH]; simpl; congruence. Qed.

Lemma eqb_slash_first (s : string) : String.eqb s "/" = true -> isSlash (firstChar s) = true.
Proof. intros H. apply String.eqb_eq in H. now subst. Qed.

Lemma rooted_first (path : string) : isSlash (firstChar (rooted path)) = true.
Proof. unfold rooted. destruct (isSlash (firstChar path)) eqn:E; [exact E | reflexivity]. Qed.

Lemma rooted_idem (path : string) : isSlash (firstChar path) = true -> rooted path = path.
Proof. unfold rooted. now intros ->. Qed.

Lemma firstChar_append (p q : string) :
  firstChar (p +++ q) = match p with EmptyString => firstChar q | String c _ => Some c end.
Proof. destruct p; reflexivity. Qed.

Lemma firstChar_dropLast (p : string) :
  dropLast p = "" \/ firstChar (dropLast p) = firstChar p.
Proof. destruct p as [|c [|d p]]; simpl; auto. Qed.

Lemma mergePath_step_first (p : string) (e : bool) (path : string) :
  p = "" \/ isSlash (firstChar p) = true ->
  isSlash (firstChar (fst (mergePath_step (p, e) path))) = true.
Proof.
  intros Hp. unfold mergePath_step. fold (rooted path).
  pose proof (rooted_first path) as Hr.
  assert (Hq : forall q, q = "" \/ isSlash (firstChar q) = true ->
                 isSlash (firstChar (q +++ rooted path)) = true).
  { intros q [-> | Hq]; [exact Hr|]. rewrite firstChar_append.
    destruct q; [discriminate | exact Hq]. }
  assert (Hd : dropLast p = "" \/ isSlash (firstChar (dropLast p)) = true).
  { destruct (firstChar_dropLast p) as [H | H]; [now left|].
    destruct Hp as [-> | Hp]; [now left | right; now rewrite H]. }
  destruct (String.eqb (rooted path) "/") eqn:E.
  - apply String.eqb_eq in E. rewrite E in *. cbn [andb negb].
    destruct (isSlash (lastChar p)); cbn [fst snd andb].
    + destruct (String.eqb (dropLast p +++ "/") ""); [reflexivity | now apply Hq].
    + destruct e; cbn [fst].
      * destruct (String.eqb (p +++ "/") ""); [reflexivity | now apply Hq].
      * destruct (String.eqb p "") eqn:E2; [reflexivity|].
        destruct Hp as [-> | Hp]; [discriminate | exact Hp].
  - cbn [andb negb]. destruct (isSlash (lastChar p)); cbn [fst]; now apply Hq.
Qed.

Lemma mergePath_fold_first (paths : list string) :
  forall (p : string) (e : bool),
    isSlash (firstChar p) = true ->
    isSlash (firstChar (fst (fold_left mergePath_step paths (p, e)))) = true.
Proof.
  induction paths as [|path paths IH]; intros p e Hp; [exact Hp|].
  cbn [fold_left].
  destruct (mergePath_step (p, e) path) as [p' e'] eqn:E.
  apply IH. change p' with (fst (p', e')). rewrite <- E.
  apply mergePath_step_first. now right.
Qed.

(** X1.  Whatever is merged, the path that comes out of a non-empty
    [mergePath] starts with a slash. *)
Theorem mergePath_leading_slash (paths : list string) :
  paths <> [] -> isSlash (firstChar (mergePath paths)) = true.
Proof.
  destruct paths as [|path paths]; [congruence|]. intros _.
  unfold mergePath. cbn [fold_left].
  destruct (mergePath_step ("", false) path) as [p e] eqn:E.
  apply mergePath_fold_first. change p with (fst (p, e)). rewrite <- E.
  apply mergePath_step_first. now left.
Qed.

Lemma mergePath_leading_slash_witness :
  isSlash (firstChar (mergePath ["hey/"; "say"])) = true.
Proof. apply mergePath_leading_slash. discriminate. Defined.

Lemma mergePath_first_round (path : string) :
  mergePath_step ("", false) path = (rooted path, false).
Proof.
  unfold mergePath_step. fold (rooted path). cbn [lastChar isSlash andb].
  rewrite andb_false_r.
  destruct (String.eqb (rooted path) "/") eqn:E; cbn [negb String.append].
  - apply String.eqb_eq in E. now rewrite E.
  - reflexivity.
Qed.

(** X2.  [mergePath] of one path, and of the base path [/] and a path, is
    that path with a leading slash added when it has none; nothing merged
    is the empty string. *)
Theorem mergePath_single (path : string) :
  mergePath [path] = rooted path
  /\ mergePath ["/"; path] = rooted path
  /\ mergePath [] = "".
Proof.
  repeat split.
  - unfold mergePath. cbn [fold_left]. now rewrite mergePath_first_round.
  - unfold mergePath. cbn [fold_left]. rewrite mergePath_first_round.
    change (rooted "/") with "/". unfold mergePath_step. fold (rooted path).
    cbn [lastChar isSlash Ascii.eqb Bool.eqb dropLast andb String.append fst].
    rewrite andb_true_r.
    destruct (String.eqb (rooted path) "/") eqn:E; cbn [negb fst].
    + apply String.eqb_eq in E. now rewrite E.
    + reflexivity.
Qed.

Lemma dropLast_slash (p : string) :
  isSlash (lastChar p) = true -> dropLast p +++ "/" = p.
Proof.
  induction p as [|c p IH]; [discriminate|]. intros H.
  destruct p as [|d p].
  - cbn in H. apply Ascii.eqb_eq in H. now subst.
  - change (dropLast (String c (String d p))) with (String c (dropLast (String d p))).
    cbn [String.append]. f_equal. apply IH. exact H.
Qed.

(** X3.  Joining a base path and a sub path, both with their leading
    slash: one trailing slash of the base is dropped and the sub path is
    appended, so the join has a single slash; the sub path [/] gives the
    base back. *)
Theorem mergePath_join (base sub : string) :
  isSlash (firstChar base) = true ->
  isSlash (firstChar sub) = true ->
  mergePath [base; sub]
  = if String.eqb sub "/" then base
    else (if isSlash (lastChar base) then dropLast base else base) +++ sub.
Proof.
  intros Hb Hs. unfold mergePath. cbn [fold_left].
  rewrite mergePath_first_round, (rooted_idem _ Hb).
  unfold mergePath_step. fold (rooted sub). rewrite (rooted_idem _ Hs).
  destruct (String.eqb sub "/") eqn:E.
  - destruct (isSlash (lastChar base)) eqn:L; cbn [andb negb fst].
    + rewrite (dropLast_slash _ L).
      destruct (String.eqb base "") eqn:E2; [|reflexivity].
      apply String.eqb_eq in E2. now subst.
    + destruct (String.eqb base "") eqn:E2; [|reflexivity].
      apply String.eqb_eq in E2. now subst.
  - destruct (isSlash (lastChar base)); reflexivity.
Qed.

Lemma mergePath_join_witness : mergePath ["/hey/"; "/say"] = "/hey/say".
Proof. apply (mergePath_join "/hey/" "/say"); reflexivity. Defined.

(** ** deepCloneAndMerge *)

Lemma In_setField (key k : string) (v : JValue) (fs : Fields) :
  In key (map fst (setField k v fs)) <-> key = k \/ In key (map fst fs).
Proof.
  induction fs as [|[k' v'] fs IH]; cbn [setField map fst In].
  - intuition.
  - destruct (String.eqb k k') eqn:E; cbn [map fst In].
    + apply String.eqb_eq in E. subst k'. intuition.
    + rewrite IH. intuition.
Qed.

Section Keywise.
(** The value computed for each key. *)
Variable F : string -> result JValue.

Local Abbreviation assign :=
  (fun (acc : result Fields) (key : string) =>
     newObj <- acc ;; v <- F key ;; Ok (setField key v newObj)).

Lemma assign_throw (l : list string) (e : Error) :
  fold_left assign l (Throw e) = Throw e.
Proof. induction l as [|key l IH]; [reflexivity | exact IH]. Qed.

Lemma assign_keys (l : list string) :
  forall acc R : Fields,
    fold_left assign l (Ok acc) = Ok R ->
    (forall key, In key l -> exists v, F key = Ok v /\ lookup key R = Some v)
    /\ (forall key, ~ In key l -> lookup key R = lookup key acc)
    /\ (forall key, In key (map fst R) <-> In key l \/ In key (map fst acc)).
Proof.
  induction l as [|k l IH]; intros acc R H.
  - cbn in H. injection H as <-. split; [intros key []|].
    split; [reflexivity|]. intros key. cbn [In]. intuition.
  - cbn [fold_left bind] in H. destruct (F k) as [v|e] eqn:Fk.
    + cbn [bind] in H. destruct (IH _ _ H) as (H1 & H2 & H3).
      repeat split.
      * intros key [<- | Hin].
        -- destruct (in_dec string_dec k l) as [Hl | Hl]; [now apply H1|].
           exists v. split; [exact Fk|]. rewrite (H2 _ Hl).
           apply lookup_setField_same.
        -- now apply H1.
      * intros key Hn. rewrite H2 by (intros Hl; apply Hn; now right).
        apply lookup_setField_other. intros ->. apply Hn. now left.
      * intros Hin. apply H3 in Hin. rewrite In_setField in Hin. cbn [In].
        intuition.
      * intros Hin. apply H3. rewrite In_setField. cbn [In] in Hin. intuition.
    + cbn [bind] in H. now rewrite assign_throw in H.
Qed.

Lemma assign_error (l : list string) :
  forall (acc : Fields) (e : Error),
    fold_left assign l (Ok acc) = Throw e -> exists key, In key l /\ F key = Throw e.
Proof.
  induction l as [|k l IH]; intros acc e H; [discriminate|].
  cbn [fold_left bind] in H. destruct (F k) as [v|e'] eqn:Fk.
  - cbn [bind] in H. destruct (IH _ _ H) as (key & Hin & Hk).
    exists key. split; [now right | exact Hk].
  - cbn [bind] in H. rewrite assign_throw in H. injection H as <-.
    exists k. split; [now left | exact Fk].
Qed.
End Keywise.

Lemma fold_left_ext_in {A B : Type} (f g : A -> B -> A) (l : list B) :
  (forall a x, In x l -> f a x = g a x) ->
  forall a, fold_left f l a = fold_left g l a.
Proof.
  induction l as [|x l IH]; intros H a; [reflexivity|].
  cbn [fold_left]. rewrite (H a x (or_introl eq_refl)). apply IH.
  intros b y Hy. apply H. now right.
Qed.

(** Two values get as far as the key-wise merge only when both are objects. *)
Lemma deepCloneAndMerge_fuel_stable (n : nat) :
  forall (m : nat) (o o1 path : JValue),
    height o < n -> height o < m ->
    deepCloneAndMerge_fuel n o o1 path = deepCloneAndMerge_fuel m o o1 path.
Proof.
  induction n as [|n IH]; intros m o o1 path Hn Hm; [lia|].
  destruct m as [|m]; [lia|]. cbn [deepCloneAndMerge_fuel].
  destruct o as [ | | b | z | | s | xs | sy fs ],
           o1 as [ | | b1 | z1 | | s1 | xs1 | sy1 fs1 ]; try reflexivity.
  cbn [typeof String.eqb Ascii.eqb Bool.eqb andb handleArrayMerge bind defined].
  cbv zeta. f_equal. apply fold_left_ext_in. intros a key _.
  destruct a as [newObj|e]; [|reflexivity]. cbn [bind].
  rewrite (IH m); [reflexivity | |].
  - pose proof (height_getProp (JObj sy fs) key). cbn [height pred] in *. lia.
  - pose proof (height_getProp (JObj sy fs) key). cbn [height pred] in *. lia.
Qed.

Lemma deepCloneAndMerge_step (sy sy1 : Symbols) (fs fs1 : Fields) (path : JValue) :
  deepCloneAndMerge (JObj sy fs) (JObj sy1 fs1) path
  = (newObj <-
       fold_left
         (fun acc key =>
            newObj <- acc ;;
            v <- deepCloneAndMerge (getProp (JObj sy fs) key) (getProp (JObj sy1 fs1) key)
                   (JStr (templ path +++ "/" +++ key)) ;;
            Ok (setField key v newObj))
         (map fst fs ++ map fst fs1) (Ok []) ;;
     Ok (obj newObj)).
Proof.
  unfold deepCloneAndMerge at 1. cbn [deepCloneAndMerge_fuel].
  cbn [typeof String.eqb Ascii.eqb Bool.eqb andb handleArrayMerge bind defined ownKeys].
  cbv zeta. f_equal. apply fold_left_ext_in. intros a key _.
  destruct a as [newObj|e]; [|reflexivity]. cbn [bind].
  unfold deepCloneAndMerge.
  rewrite (deepCloneAndMerge_fuel_stable _ (S (height (getProp (JObj sy fs) key))));
    [reflexivity | | lia].
  pose proof (height_getProp (JObj sy fs) key). cbn [height pred] in *. lia.
Qed.

(** X4.  Merging two objects none of whose keys, at any depth, is a name
    inherited from [Object.prototype] is done key by key: the result
    holds, under every key of either object, the merge of what the two
    objects hold under it, and its keys are the keys of the two objects;
    no key of either is lost. *)
Theorem deepCloneAndMerge_objects (sy sy1 : Symbols) (fs fs1 : Fields)
    (path r : JValue) :
  plainKeys (JObj sy fs) = true -> plainKeys (JObj sy1 fs1) = true ->
  deepCloneAndMerge (JObj sy fs) (JObj sy1 fs1) path = Ok r ->
  (forall key : string,
      In key (map fst fs) \/ In key (map fst fs1) ->
      deepCloneAndMerge (getProp (JObj sy fs) key) (getProp (JObj sy1 fs1) key)
                        (JStr (templ path +++ "/" +++ key))
      = Ok (getProp r key))
  /\ (forall key : string,
         In key (ownKeys r) <-> In key (map fst fs) \/ In key (map fst fs1)).
Proof.
  intros _ _. rewrite deepCloneAndMerge_step. intros H.
  destruct (fold_left _ _ _) as [R|e] eqn:E; [|discriminate].
  cbn [bind] in H. injection H as <-.
  destruct (assign_keys _ _ _ _ E) as (H1 & H2 & H3). split.
  - intros key _. unfold obj. cbn [getProp].
    destruct (in_dec string_dec key (map fst fs ++ map fst fs1)) as [Hin | Hn].
    + destruct (H1 _ Hin) as (v & Hv & Hl). cbn [getProp] in Hv. now rewrite Hl, Hv.
    + rewrite (H2 _ Hn). cbn [lookup].
      assert (Ha : lookup key fs = None).
      { destruct (lookup key fs) eqn:L; [|reflexivity]. exfalso. apply Hn.
        apply in_or_app. left. clear - L.
        induction fs as [|[k v] fs IH]; [discriminate|]. cbn [lookup] in L.
        destruct (String.eqb key k) eqn:Ek.
        - apply String.eqb_eq in Ek. subst. now left.
        - right. now apply IH. }
      assert (Hb : lookup key fs1 = None).
      { destruct (lookup key fs1) eqn:L; [|reflexivity]. exfalso. apply Hn.
        apply in_or_app. right. clear - L.
        induction fs1 as [|[k v] fs1 IH]; [discriminate|]. cbn [lookup] in L.
        destruct (String.eqb key k) eqn:Ek.
        - apply String.eqb_eq in Ek. subst. now left.
        - right. now apply IH. }
      now rewrite Ha, Hb.
  - intros key. unfold obj. cbn [ownKeys]. rewrite H3, in_app_iff. cbn [map In].
    intuition.
Qed.

Lemma deepCloneAndMerge_objects_witness :
  (forall key : string,
      In key (map fst [("a", JNum 1%Z)]) \/ In key (map fst [("b", JArr [])]) ->
      deepCloneAndMerge (getProp (obj [("a", JNum 1)]) key)
                        (getProp (obj [("b", JArr [])]) key)
                        (JStr (templ JUndefined +++ "/" +++ key))
      = Ok (getProp (obj [("a", JNum 1); ("b", JArr [])]) key))
  /\ (forall key : string,
         In key (ownKeys (obj [("a", JNum 1); ("b", JArr [])]))
         <-> In key (map fst [("a", JNum 1%Z)]) \/ In key (map fst [("b", JArr [])])).
Proof.
  apply (deepCloneAndMerge_objects noSym noSym [("a", JNum 1)] [("b", JArr [])]
           JUndefined); reflexivity.
Defined.

(** X5.  What is merged where the two values are not both objects: a
    missing second value leaves the first, any other second value that is
    no object, array or [null] replaces the first, two arrays are
    concatenated, an array merged with [null] is kept, [null] merged with
    an object gives the object, and an array cannot be merged with an
    object, whichever comes first. *)
Theorem deepCloneAndMerge_leaves (o o1 path : JValue) (xs ys : list JValue)
    (sy : Symbols) (fs : Fields) :
  deepCloneAndMerge o JUndefined path = Ok o
  /\ (String.eqb (typeof o1) "object" = false -> defined o1 = true ->
      deepCloneAndMerge o o1 path = Ok o1)
  /\ deepCloneAndMerge (JArr xs) (JArr ys) path = Ok (JArr (xs ++ ys))
  /\ deepCloneAndMerge (JArr xs) JNull path = Ok (JArr xs)
  /\ deepCloneAndMerge JNull (JArr xs) path = Ok (JArr xs)
  /\ deepCloneAndMerge JNull (JObj sy fs) path = Ok (JObj sy fs)
  /\ deepCloneAndMerge (JObj sy fs) JNull path = Ok (JObj sy fs)
  /\ deepCloneAndMerge (JArr xs) (JObj sy fs) path = Throw (mergeConflict (templ path))
  /\ deepCloneAndMerge (JObj sy fs) (JArr xs) path = Throw (mergeConflict (templ path)).
Proof.
  repeat match goal with |- _ /\ _ => split end; try reflexivity.
  - unfold deepCloneAndMerge. cbn [deepCloneAndMerge_fuel typeof].
    now rewrite andb_false_r.
  - intros Ht Hd. unfold deepCloneAndMerge. cbn [deepCloneAndMerge_fuel].
    now rewrite Ht, andb_false_r, Hd.
Qed.

Lemma deepCloneAndMerge_only_conflicts_fuel (n : nat) :
  forall (o o1 path : JValue) (e : Error),
    height o < n ->
    deepCloneAndMerge_fuel n o o1 path = Throw e ->
    exists p : string, e = mergeConflict p.
Proof.
  induction n as [|n IH]; intros o o1 path e Hn H; [lia|].
  cbn [deepCloneAndMerge_fuel] in H.
  destruct o as [ | | b | z | | s | xs | sy fs ],
           o1 as [ | | b1 | z1 | | s1 | xs1 | sy1 fs1 ];
    try discriminate;
    try (injection H as <-; eexists; reflexivity).
  cbn [typeof String.eqb Ascii.eqb Bool.eqb andb handleArrayMerge bind defined] in H.
  cbv zeta in H.
  destruct (fold_left _ _ _) as [R|e'] eqn:E; [discriminate|].
  cbn [bind] in H. injection H as <-.
  apply (assign_error
           (fun key => deepCloneAndMerge_fuel n (getProp (JObj sy fs) key)
                         (getProp (JObj sy1 fs1) key)
                         (JStr (templ path +++ "/" +++ key)))) in E.
  destruct E as (key & _ & Hk). apply IH in Hk; [exact Hk|].
  pose proof (height_getProp (JObj sy fs) key). cbn [height pred] in *. lia.
Qed.

(** X6.  The only error of a merge is the conflict of an array with an
    object, found at some path below the two values. *)
Theorem deepCloneAndMerge_only_conflicts (o o1 path : JValue) (e : Error) :
  deepCloneAndMerge o o1 path = Throw e -> exists p : string, e = mergeConflict p.
Proof. apply deepCloneAndMerge_only_conflicts_fuel. lia. Qed.

Lemma deepCloneAndMerge_only_conflicts_witness :
  exists p : string, mergeConflict "undefined/tags" = mergeConflict p.
Proof.
  apply (deepCloneAndMerge_only_conflicts
           (obj [("tags", JArr [])]) (obj [("tags", obj [])]) JUndefined).
  reflexivity.
Defined.

(** ** Excluded routes *)

Lemma entriesOf_arrayify {A : Type} (x : OneOrMany A) :
  arrayify x = match x with Missing => Missing | _ => Many (entriesOf x) end.
Proof. destruct x; reflexivity. Qed.

Lemma existsb_eqb_in (x : string) (l : list string) :
  existsb (String.eqb x) l = true <-> In x l.
Proof.
  rewrite existsb_exists. split.
  - intros (y & Hy & E). apply String.eqb_eq in E. now subst.
  - intros H. exists x. split; [exact H | apply String.eqb_refl].
Qed.

(** The answer of [isExcludedRoute] on stored options. *)
Lemma excluded_on_stored (options : RouteOptions) (path method : string) :
  exists r : option bool,
    isExcludedRoute (storedOptions options) path method = Ok r
    /\ (r = Some true
        <-> In method (entriesOf (excludeMethod options))
            \/ exists spec : PathSpec,
                 In spec (entriesOf (excludePaths options))
                 /\ matchesSpec path spec = true).
Proof.
  unfold isExcludedRoute, storedOptions. cbn [excludeMethod excludePaths].
  rewrite !entriesOf_arrayify.
  set (listed := existsb (String.eqb method) (entriesOf (excludeMethod options))).
  assert (Hm : match match excludeMethod options with
                     | Missing => Missing
                     | _ => Many (entriesOf (excludeMethod options))
                     end with
               | Many methods => existsb (String.eqb method) methods
               | _ => false
               end = listed).
  { unfold listed. destruct (excludeMethod options); reflexivity. }
  rewrite Hm. destruct listed eqn:L.
  - exists (Some true). split; [reflexivity|]. split; [|reflexivity].
    intros _. left. now apply existsb_eqb_in.
  - assert (Hn : ~ In method (entriesOf (excludeMethod options))).
    { intros H. apply existsb_eqb_in in H. unfold listed in L. congruence. }
    destruct (excludePaths options) as [|spec|specs]; cbn [entriesOf].
    + exists None. split; [reflexivity|]. split; [discriminate|].
      intros [H | (spec & [] & _)]. contradiction.
    + eexists. split; [reflexivity|]. cbn [existsb]. rewrite orb_false_r.
      fold (matchesSpec path spec). split.
      * intros H. injection H as H. right. exists spec. split; [now left | exact H].
      * intros [H | (spec' & [<- | []] & H)]; [contradiction | now rewrite H].
    + eexists. split; [reflexivity|].
      change (fun strOrReg : PathSpec => match strOrReg with
                                         | Str s => String.eqb path s
                                         | Reg test => test path
                                         end) with (matchesSpec path).
      split.
      * intros H. injection H as H. right. now apply existsb_exists.
      * intros [H | H]; [contradiction|]. f_equal. now apply existsb_exists.
Qed.

(** X7.  With the options as the constructor stores them, [isExcludedRoute]
    never throws, and it answers [true] exactly when the method is one of
    the excluded methods or the path is matched by one of the excluded
    paths, whether each option was given as one value or as an array. *)
Theorem isExcludedRoute_stored (options : RouteOptions) (path method : string) :
  exists r : option bool,
    isExcludedRoute (storedOptions options) path method = Ok r
    /\ (r = Some true
        <-> In method (entriesOf (excludeMethod options))
            \/ exists spec : PathSpec,
                 In spec (entriesOf (excludePaths options))
                 /\ matchesSpec path spec = true).
Proof. apply excluded_on_stored. Qed.

(** X8.  A route whose method or merged path is excluded, a route of the
    method [all] and a route of a method that is none of the router's are
    registered without any change to the document or to the schema
    objects. *)
Theorem addRoute_excluded (METHODS : list string) (options : RouteOptions)
    (method path : string) (handler : Handler) (st : Store) :
  In (toLowerCase method) (entriesOf (excludeMethod options))
  \/ (exists spec : PathSpec,
         In spec (entriesOf (excludePaths options))
         /\ matchesSpec (mergePath [basePath options; path]) spec = true)
  \/ toLowerCase method = "all"
  \/ ~ In (toLowerCase method) METHODS ->
  addRoute METHODS (storedOptions options) method path handler st = Ok st.
Proof.
  intros H. unfold addRoute. cbv zeta.
  destruct (isValidHttpMethod METHODS (toLowerCase method)
            && negb (String.eqb (toLowerCase method) "all")) eqn:V; [|reflexivity].
  apply andb_true_iff in V. destruct V as [V1 V2].
  apply negb_true_iff in V2.
  destruct (excluded_on_stored options (mergePath [basePath options; path])
              (toLowerCase method)) as (r & Hr & Hiff).
  change (basePath (storedOptions options)) with (basePath options).
  rewrite Hr. cbn [bind].
  destruct H as [H | [H | [H | H]]].
  - rewrite (proj2 Hiff (or_introl H)). reflexivity.
  - rewrite (proj2 Hiff (or_intror H)). reflexivity.
  - rewrite H in V2. discriminate.
  - exfalso. unfold isValidHttpMethod in V1. rewrite V2 in V1. cbn [orb] in V1.
    apply H. now apply existsb_eqb_in.
Qed.

(** The test [ignore routes string]: [app.get('/foo', ...)] while
    [excludePaths] is ['/foo']. *)
Lemma addRoute_excluded_witness :
  addRoute honoMethods (storedOptions excludeFoo) "get" "/foo" Plain freshStore
  = Ok freshStore.
Proof.
  apply addRoute_excluded. right. left. exists (Str "/foo").
  split; [now left | reflexivity].
Defined.

End HelperFacts.

(* ====================================================================== *)
(** * typeboxUtils.ts: the inferred schema, stored and read back *)
(* ====================================================================== *)

Module InferenceFacts.
Import TypeBox TypeSystem TypeboxUtils EqualFacts.



Lemma revive_isObj (v : JValue) : defined v = true -> isObj (revive v) = true.
Proof.
  destruct v as [ | | b | z | | s | xs | sy fs ]; try discriminate; intros _;
    try reflexivity.
  cbn [revive]. cbv zeta. destruct (haveSameType _); [reflexivity|].
  unfold Tuple. destruct (map revive xs); reflexivity.
Qed.

Lemma revive_not_optional (v : JValue) : IsOptional (revive v) = false.
Proof.
  destruct v as [ | | b | z | | s | xs | sy fs ]; try reflexivity.
  cbn [revive]. cbv zeta. destruct (haveSameType _); [reflexivity|].
  unfold Tuple. destruct (map revive xs); reflexivity.
Qed.

Lemma regular_defined (v : JValue) : regular v = true -> defined v = true.
Proof. destruct v; try discriminate; reflexivity. Qed.



Lemma lookup_unique_head (k : string) (v : JValue) (fs : Fields) :
  lookup k ((k, v) :: fs) = Some v.
Proof. cbn [lookup]. now rewrite String.eqb_refl. Qed.





(** An array of a schema holds that schema. *)
Lemma Array_items (schema options : JValue) :
  isObj schema = true ->
  Array schema options
  = create options "Array" [("type", JStr "array"); ("items", schema)].
Proof. now destruct schema. Qed.

Section Stored.
Variable compile : JValue -> result JValue.


Lemma required_of_revived (fs : Fields) :
  filter (fun k => negb (IsOptional
                           (getProp (obj (map (fun kv => (fst kv, revive (snd kv))) fs)) k)))
         (map fst (map (fun kv => (fst kv, revive (snd kv))) fs))
  = map fst fs.
Proof.
  rewrite map_map. cbn [fst].
  set (props := map (fun kv => (fst kv, revive (snd kv))) fs).
  assert (H : forall k, IsOptional (getProp (obj props) k) = false).
  { intros k. unfold obj. cbn [getProp]. destruct (lookup k props) as [x|] eqn:L;
      [|reflexivity].
    assert (Hx : exists v, x = revive v).
    { clear - L. unfold props in L. induction fs as [|[k' v'] fs IH]; [discriminate|].
      cbn [map lookup fst snd] in L. destruct (String.eqb k k').
      - injection L as <-. now exists v'.
      - now apply IH. }
    destruct Hx as (v & ->). apply revive_not_optional. }
  induction (map (fun x => fst x) fs) as [|k ks IH]; [reflexivity|].
  cbn [filter]. rewrite H. cbn [negb]. now rewrite IH.
Qed.


End Stored.





Lemma sameFields_keys (same : JValue -> JValue -> bool) (fs gs : Fields) :
  sameFields same fs gs = true -> map fst fs = map fst gs.
Proof.
  revert gs. induction fs as [|[k a] fs IH]; intros [|[k' b] gs] H; try discriminate;
    [reflexivity|].
  cbn [sameFields] in H. apply andb_true_iff in H. destruct H as [H H3].
  apply andb_true_iff in H. destruct H as [H1 H2]. apply String.eqb_eq in H1.
  cbn [map fst]. subst k'. f_equal. now apply IH.
Qed.

Lemma sameFields_lookup (same : JValue -> JValue -> bool) (f : JValue -> JValue)
    (fs gs : Fields) (k : string) :
  sameFields same fs gs = true ->
  (lookup k (map (fun kv => (fst kv, f (snd kv))) fs) = None
   /\ lookup k (map (fun kv => (fst kv, f (snd kv))) gs) = None)
  \/ exists a b,
       lookup k (map (fun kv => (fst kv, f (snd kv))) fs) = Some (f a)
       /\ lookup k (map (fun kv => (fst kv, f (snd kv))) gs) = Some (f b)
       /\ same a b = true /\ In a (map snd fs) /\ In b (map snd gs).
Proof.
  revert gs. induction fs as [|[k1 a] fs IH]; intros [|[k2 b] gs] H; try discriminate.
  - now left.
  - cbn [sameFields] in H. apply andb_true_iff in H. destruct H as [H H3].
    apply andb_true_iff in H. destruct H as [H1 H2]. apply String.eqb_eq in H1.
    subst k2. cbn [map fst snd lookup]. destruct (String.eqb k k1).
    + right. exists a, b. repeat split; auto; now left.
    + destruct (IH gs H3) as [Hn | (a' & b' & Ha & Hb & Hs & Hia & Hib)]; [now left|].
      right. exists a', b'. repeat split; auto; now right.
Qed.

Lemma height_value (a : JValue) (sy : Symbols) (fs : Fields) :
  In a (map snd fs) -> height a < height (JObj sy fs).
Proof.
  cbn [height]. induction fs as [|[k v] fs IH]; intros H; [destruct H|].
  cbn [map snd fold_right] in *. destruct H as [-> | H]; [lia|].
  specialize (IH H). lia.
Qed.

Lemma forallb_listed (ks : list string) :
  forallb (fun k => existsb (String.eqb k) ks) ks = true.
Proof.
  apply forallb_forall. intros k H. apply existsb_exists. exists k.
  split; [exact H | apply String.eqb_refl].
Qed.

(** Two property tables over the same keys, whose schemas are pairwise
    equal up to examples. *)
Lemma properties_equal (ps qs : Fields) (ignore : list string) :
  map fst ps = map fst qs ->
  (forall k, isDeepEqual (getProp (obj ps) k) (getProp (obj qs) k) ignore = true) ->
  isDeepEqual (obj ps) (obj qs) ignore = true.
Proof.
  intros Hk Hv. rewrite isDeepEqual_unfold. unfold obj in *.
  cbn [strictEq isNullish isObjectLike isArray orb andb negb Bool.eqb ownKeys].
  cbv zeta. rewrite <- Hk, Nat.eqb_refl, forallb_listed. cbn [negb].
  apply forallb_forall. intros k _. apply Hv.
Qed.

Lemma deep_equal_same (v : JValue) (ignore : list string) :
  isDeepEqual v v ignore = true.
Proof. apply (isDeepEqual_refl (S (height v))). lia. Qed.

Lemma same_shape_equal_fuel (n : nat) :
  forall v w : JValue,
    height v < n ->
    regular v = true -> regular w = true -> sameShape v w = true ->
    isDeepEqual (revive v) (revive w) ["example"] = true.
Proof.
  induction n as [|n IH]; intros v w Hn Hv Hw Hs; [lia|].
  destruct v as [ | | b | z | | s | [|x xs] | sy fs ],
           w as [ | | b' | z' | | s' | [|y ys] | sy' gs ]; try discriminate;
    try reflexivity.
  - cbn [regular] in Hv, Hw. apply andb_true_iff in Hv, Hw.
    destruct Hv as [Hx Hxs], Hw as [Hy Hys]. cbn [sameShape] in Hs.
    cbn [revive]. cbv zeta. rewrite Hxs, Hys. cbn [map nth].
    assert (Hi : isDeepEqual (revive x) (revive y) ["example"] = true).
    { apply IH; auto. pose proof (height_element x (x :: xs) (or_introl eq_refl)). lia. }
    rewrite !Array_items by (apply revive_isObj; now apply regular_defined).
    unfold create, noOptions, obj.
    cbn [spread fold_left app fst snd setField String.eqb Ascii.eqb Bool.eqb].
    rewrite isDeepEqual_unfold.
    cbn [strictEq isNullish isObjectLike isArray orb andb negb Bool.eqb ownKeys
         map fst filter existsb String.eqb Ascii.eqb List.length Nat.eqb forallb
         getProp lookup].
    now rewrite Hi.
  - cbn [regular] in Hv, Hw. apply andb_true_iff in Hv, Hw.
    destruct Hv as [Hu Hf], Hw as [Hu' Hf']. cbn [sameShape] in Hs.
    pose proof (sameFields_keys _ _ _ Hs) as Hk.
    cbn [revive]. unfold Object. cbv zeta. rewrite !required_of_revived, <- Hk.
    set (ps := map (fun kv => (fst kv, revive (snd kv))) fs).
    set (qs := map (fun kv => (fst kv, revive (snd kv))) gs).
    assert (Hp : isDeepEqual (obj ps) (obj qs) ["example"] = true).
    { apply properties_equal.
      - unfold ps, qs. rewrite !map_map. exact Hk.
      - intros k. unfold obj, ps, qs. cbn [getProp].
        destruct (sameFields_lookup sameShape revive fs gs k Hs)
          as [[-> ->] | (a & b & -> & -> & Hab & Ha & Hb)]; [reflexivity|].
        apply IH; auto.
        + pose proof (height_value a sy fs Ha). lia.
        + rewrite forallb_forall in Hf. apply in_map_iff in Ha.
          destruct Ha as (kv & <- & Hin). now apply Hf.
        + rewrite forallb_forall in Hf'. apply in_map_iff in Hb.
          destruct Hb as (kv & <- & Hin). now apply Hf'. }
    destruct (map fst fs) as [|k0 ks]; unfold create, obj in *;
      cbn [spread fold_left app fst snd setField String.eqb Ascii.eqb Bool.eqb];
      rewrite isDeepEqual_unfold;
      cbn [strictEq isNullish isObjectLike isArray orb andb negb Bool.eqb ownKeys
           map fst filter existsb String.eqb Ascii.eqb List.length Nat.eqb forallb
           getProp lookup];
      rewrite Hp, ?deep_equal_same; reflexivity.
Qed.

(** X10.  Two JSON values of one shape are inferred to schemas that are
    deep-equal once their examples are ignored. *)
Theorem same_shape_same_schema (v w : JValue) :
  regular v = true -> regular w = true -> sameShape v w = true ->
  isDeepEqual (revive v) (revive w) ["example"] = true.
Proof. apply (same_shape_equal_fuel (S (height v))). lia. Qed.

Lemma same_shape_same_schema_witness :
  isDeepEqual (revive (obj [("id", JNum 7); ("tags", JArr [JStr "a"])]))
              (revive (obj [("id", JNum 8); ("tags", JArr [JStr "b"; JStr "c"])]))
              ["example"] = true.
Proof. apply same_shape_same_schema; reflexivity. Defined.

End InferenceFacts.

(* ====================================================================== *)
(** * index.ts: what registrations leave in the document *)
(* ====================================================================== *)

Module RegistrationFacts.
Import TypeBox TypeSystem OpenApi Examples StoreFacts SamplerFacts.

(** ** What a parameter registration leaves in the document *)

Lemma probe_inv (q T : JValue) (base : string) (rounds : nat) :
  forall (i : nat) (cur : string),
    match probe q T base rounds i cur with
    | Fresh name => truthy (getProp T name) = false
    | Reuse name =>
        truthy (getProp T name) = true
        /\ isDeepEqual q (getProp T name) ["open_api_ref"] = true
    | Exhausted => True
    end.
Proof.
  induction rounds as [|r IH]; intros i cur; cbn [probe]; [exact I|].
  destruct (truthy (getProp T cur)) eqn:Ht; [|exact Ht].
  destruct (isDeepEqual q (getProp T cur) ["open_api_ref"]) eqn:He; [now split|].
  apply IH.
Qed.

Lemma lookup_deleteField (k : string) (fs : Fields) :
  lookup k (deleteField k fs) = None.
Proof.
  induction fs as [|[k' v] fs IH]; [reflexivity|].
  cbn [deleteField]. destruct (String.eqb k k') eqn:E; [exact IH|].
  cbn [lookup]. now rewrite E.
Qed.

(** The schema of a stored parameter never carries the reference map. *)
Lemma parameterCopy_clean (q n : JValue) :
  isObj q = true ->
  hasProp (getProp (parameterCopy q n) "schema") "open_api_ref" = false.
Proof.
  intros Hq. unfold parameterCopy. cbv zeta.
  rewrite getProp_setProp_obj by now rewrite isObj_setProp.
  destruct (Strict n) as [ | | b | z | | s | xs | sy fs ]; try reflexivity.
  unfold obj, hasProp, hasField. now rewrite lookup_deleteField.
Qed.

(** X11.  A registration that is not answered from the reference map of
    the node returns the reference of an entry of [components.parameters]:
    either an entry that was there and is deep-equal to the parameter
    (nothing is written, neither to the document's entries nor to the
    node), or a new entry under a name that was free, which holds the
    parameter with a schema that has no [open_api_ref], and whose
    reference is written to the node. *)
Theorem parameter_registration_outcome (q n d : JValue) (r : Registered) :
  docOk d = true -> nodeOk n = true -> isObj q = true ->
  takesFastPath q n = false ->
  addParameterToSchema q n d = Ok r ->
  exists name : string,
    reference r = JStr (parameterRef name)
    /\ ((truthy (getProp (parametersTable d) name) = true
         /\ isDeepEqual q (getProp (parametersTable d) name) ["open_api_ref"] = true
         /\ parametersOf (rootDoc r) = parametersTable d
         /\ node r = n)
        \/ (truthy (getProp (parametersTable d) name) = false
            /\ getProp (parametersOf (rootDoc r)) name = parameterCopy q n
            /\ hasProp (getProp (getProp (parametersOf (rootDoc r)) name) "schema")
                       "open_api_ref" = false
            /\ knownReference (node r) (templ (getProp q "in"))
               = Ok (JStr (parameterRef name)))).
Proof.
  intros Hd Hn Hq Hf H.
  destruct (register_by_probe q n d Hd Hn Hf) as [HF HR].
  pose proof (probe_inv q (parametersTable d)
                (templ (getProp q "name") +++ "_" +++ templ (getProp q "in"))
                2000 0
                (templ (getProp q "name") +++ "_" +++ templ (getProp q "in"))) as Hp.
  destruct (probe q (parametersTable d) _ 2000 0 _) as [cur | name |] eqn:P.
  - rewrite (HR cur eq_refl) in H. injection H as <-. cbn [reference rootDoc node].
    exists cur. split; [reflexivity|]. left. destruct Hp as [Ht He].
    repeat split; auto. now destruct (withTable_table d Hd) as (_ & _ & ->).
  - rewrite (HF name eq_refl) in H. injection H as <-. cbn [reference rootDoc node].
    exists name. split; [reflexivity|]. right.
    destruct (parametersOf_addParameter d name (parameterCopy q n) Hd) as [-> _].
    destruct (docOk_inv d Hd) as (_ & _ & HT).
    rewrite (getProp_setProp_obj _ _ _ HT).
    repeat split; auto using parameterCopy_clean, writeRef_known.
  - exfalso. destruct (not_fast_path q n Hn Hf) as (known & Hk & Hdef).
    unfold addParameterToSchema in H. cbv zeta in H. rewrite Hk in H.
    cbn [bind] in H. rewrite Hdef in H.
    destruct (docOk_inv d Hd) as (Hdo & Hco & HT).
    unfold mustGet in H. rewrite (isObj_not_nullish _ Hdo) in H. cbn [bind] in H.
    rewrite (isObj_not_nullish _ Hco) in H. cbn [bind] in H.
    fold (parametersOf d) in H. fold (parametersTable d) in H.
    rewrite (isObj_not_nullish _ HT) in H. rewrite P in H. discriminate.
Qed.

(** The first registration of the [de] parameter on a fresh instance. *)
Lemma parameter_registration_outcome_witness :
  exists name : string,
    JStr "#/components/parameters/lang_query" = JStr (parameterRef name)
    /\ ((truthy (getProp (parametersTable emptyDoc) name) = true
         /\ isDeepEqual (asPassed (langQuery (languageCode "de")) (languageCode "de"))
                        (getProp (parametersTable emptyDoc) name) ["open_api_ref"] = true
         /\ parametersOf
              (addParameter "lang_query"
                 (parameterCopy (asPassed (langQuery (languageCode "de"))
                                          (languageCode "de")) (languageCode "de"))
                 (withTable emptyDoc))
            = parametersTable emptyDoc
         /\ writeRef (languageCode "de") "query" (parameterRef "lang_query")
            = languageCode "de")
        \/ (truthy (getProp (parametersTable emptyDoc) name) = false
            /\ getProp (parametersOf
                          (addParameter "lang_query"
                             (parameterCopy (asPassed (langQuery (languageCode "de"))
                                                      (languageCode "de"))
                                            (languageCode "de"))
                             (withTable emptyDoc))) name
               = parameterCopy (asPassed (langQuery (languageCode "de"))
                                         (languageCode "de")) (languageCode "de")
            /\ hasProp (getProp (getProp (parametersOf
                          (addParameter "lang_query"
                             (parameterCopy (asPassed (langQuery (languageCode "de"))
                                                      (languageCode "de"))
                                            (languageCode "de"))
                             (withTable emptyDoc))) name) "schema")
                       "open_api_ref" = false
            /\ knownReference
                 (writeRef (languageCode "de") "query" (parameterRef "lang_query"))
                 (templ (getProp (asPassed (langQuery (languageCode "de"))
                                           (languageCode "de")) "in"))
               = Ok (JStr (parameterRef name)))).
Proof.
  apply (parameter_registration_outcome
           (asPassed (langQuery (languageCode "de")) (languageCode "de"))
           (languageCode "de") emptyDoc
           (mkRegistered (JStr "#/components/parameters/lang_query")
              (writeRef (languageCode "de") "query" (parameterRef "lang_query"))
              (addParameter "lang_query"
                 (parameterCopy (asPassed (langQuery (languageCode "de"))
                                          (languageCode "de")) (languageCode "de"))
                 (withTable emptyDoc)))); reflexivity.
Defined.

Lemma withTable_frame (d : JValue) (k : string) :
  (k <> "components" -> getProp (withTable d) k = getProp d k)
  /\ (k <> "parameters" ->
      getProp (getProp (withTable d) "components") k
      = getProp (getProp d "components") k).
Proof.
  unfold withTable. destruct (defined (parametersOf d)); [now split|].
  cbn [setPath]. split; intros Hk.
  - apply getProp_setProp_other. now apply not_eq_sym.
  - destruct d as [ | | b | z | | s | xs | sy fs ]; try reflexivity.
    rewrite getProp_setProp_same. apply getProp_setProp_other. now apply not_eq_sym.
Qed.

Lemma addParameter_frame (name : string) (v d : JValue) (k : string) :
  isObj d = true -> isObj (getProp d "components") = true ->
  (k <> "components" -> getProp (addParameter name v d) k = getProp d k)
  /\ (k <> "parameters" ->
      getProp (getProp (addParameter name v d) "components") k
      = getProp (getProp d "components") k).
Proof.
  intros Hd Hc. unfold addParameter. cbv zeta. rewrite (ensure_present _ _ Hc).
  cbn [setPath]. split; intros Hk.
  - rewrite !getProp_setProp_other by now apply not_eq_sym. reflexivity.
  - set (d2 := setProp d "components" (ensure "parameters" (getProp d "components"))).
    assert (H2 : getProp d2 "components" = ensure "parameters" (getProp d "components"))
      by (unfold d2; now apply getProp_setProp_obj).
    rewrite (getProp_setProp_obj d2) by (unfold d2; now rewrite isObj_setProp).
    rewrite getProp_setProp_other by now apply not_eq_sym.
    rewrite H2. unfold ensure. destruct (truthy _); [reflexivity|].
    apply getProp_setProp_other. now apply not_eq_sym.
Qed.

(** X12.  No registration of a parameter changes an entry that
    [components.parameters] already holds, nor anything of the document
    outside [components.parameters]. *)
Theorem existing_parameters_kept (q n d : JValue) (r : Registered) :
  docOk d = true -> nodeOk n = true ->
  addParameterToSchema q n d = Ok r ->
  (forall k : string,
      truthy (getProp (parametersTable d) k) = true ->
      getProp (parametersOf (rootDoc r)) k = getProp (parametersOf d) k)
  /\ (forall k : string, k <> "components" -> getProp (rootDoc r) k = getProp d k)
  /\ (forall k : string,
         k <> "parameters" ->
         getProp (getProp (rootDoc r) "components") k
         = getProp (getProp d "components") k).
Proof.
  intros Hd Hn H.
  assert (Hkept : forall k, truthy (getProp (parametersTable d) k) = true ->
                            getProp (parametersTable d) k = getProp (parametersOf d) k).
  { intros k Hk. unfold parametersTable in *. destruct (defined (parametersOf d));
      [reflexivity | discriminate]. }
  destruct (takesFastPath q n) eqn:Hf.
  - unfold addParameterToSchema, takesFastPath in *. cbv zeta in H.
    destruct (knownReference n _) as [known|e]; [|discriminate].
    cbn [bind] in H. rewrite Hf in H. injection H as <-. cbn [rootDoc].
    repeat split; auto.
  - destruct (register_by_probe q n d Hd Hn Hf) as [HF HR].
    pose proof (probe_inv q (parametersTable d)
                  (templ (getProp q "name") +++ "_" +++ templ (getProp q "in"))
                  2000 0
                  (templ (getProp q "name") +++ "_" +++ templ (getProp q "in"))) as Hp.
    destruct (docOk_inv d Hd) as (Hdo & Hco & HT).
    destruct (withTable_table d Hd) as (Hwo & Hwc & Hwt).
    destruct (probe q (parametersTable d) _ 2000 0 _) as [cur | name |] eqn:P.
    + rewrite (HR cur eq_refl) in H. injection H as <-. cbn [rootDoc].
      repeat split.
      * intros k Hk. rewrite Hwt. now apply Hkept.
      * intros k Hk. now apply withTable_frame.
      * intros k Hk. now apply withTable_frame.
    + rewrite (HF name eq_refl) in H. injection H as <-. cbn [rootDoc].
      repeat split.
      * intros k Hk.
        destruct (parametersOf_addParameter d name (parameterCopy q n) Hd) as [-> _].
        rewrite getProp_setProp_other; [now apply Hkept|].
        intros ->. congruence.
      * intros k Hk.
        rewrite (proj1 (addParameter_frame _ _ _ k Hwo Hwc) Hk).
        now apply withTable_frame.
      * intros k Hk.
        rewrite (proj2 (addParameter_frame _ _ _ k Hwo Hwc) Hk).
        now apply withTable_frame.
    + exfalso. destruct (not_fast_path q n Hn Hf) as (known & Hk & Hdef).
      unfold addParameterToSchema in H. cbv zeta in H. rewrite Hk in H.
      cbn [bind] in H. rewrite Hdef in H.
      unfold mustGet in H. rewrite (isObj_not_nullish _ Hdo) in H. cbn [bind] in H.
      rewrite (isObj_not_nullish _ Hco) in H. cbn [bind] in H.
      fold (parametersOf d) in H. fold (parametersTable d) in H.
      rewrite (isObj_not_nullish _ HT) in H. rewrite P in H. discriminate.
Qed.

(** The second parameter of the collision test: [lang_query] is kept. *)
Lemma existing_parameters_kept_witness :
  match addParameterToSchemaAt (langQuery (languageCode "de")) 0 freshStore with
  | Ok (_, st1) =>
      match addParameterToSchema (asPassed (langQuery (languageCode "en"))
                                           (languageCode "en"))
                                 (languageCode "en") (document st1) with
      | Ok r =>
          (forall k : string,
              truthy (getProp (parametersTable (document st1)) k) = true ->
              getProp (parametersOf (rootDoc r)) k
              = getProp (parametersOf (document st1)) k)
          /\ (forall k : string,
                 k <> "components" -> getProp (rootDoc r) k = getProp (document st1) k)
          /\ (forall k : string,
                 k <> "parameters" ->
                 getProp (getProp (rootDoc r) "components") k
                 = getProp (getProp (document st1) "components") k)
      | Throw _ => False
      end
  | Throw _ => False
  end.
Proof.
  destruct (addParameterToSchemaAt (langQuery (languageCode "de")) 0 freshStore)
    as [[ref st1]|e] eqn:E; [|vm_compute in E; discriminate].
  vm_compute in E. injection E as <- <-. cbn [document].
  match goal with
  | |- match ?c with _ => _ end =>
      destruct c as [r|e] eqn:R; [|vm_compute in R; discriminate]
  end.
  refine (existing_parameters_kept _ _ _ r _ _ R); reflexivity.
Defined.

(** ** What a body registration leaves in the document *)

Lemma schemasOk_inv (doc : JValue) :
  schemasOk doc = true ->
  isObj doc = true /\ isObj (getProp doc "components") = true
  /\ isObj (getProp (ensure "schemas" (getProp doc "components")) "schemas") = true.
Proof.
  unfold schemasOk, schemasOf. intros H.
  apply andb_true_iff in H. destruct H as [H H3].
  apply andb_true_iff in H. destruct H as [H1 H2].
  repeat split; auto. unfold ensure.
  destruct (truthy (getProp (getProp doc "components") "schemas")) eqn:T.
  - cbn [negb] in H3. now rewrite orb_false_r in H3.
  - now rewrite getProp_setProp_obj.
Qed.

Lemma addSchema_lookup (name : string) (v d : JValue) :
  schemasOk d = true ->
  schemasOf (addSchema name v d)
  = setProp (getProp (ensure "schemas" (getProp d "components")) "schemas") name v
  /\ (forall k, k <> "components" -> getProp (addSchema name v d) k = getProp d k)
  /\ (forall k, k <> "schemas" ->
                getProp (getProp (addSchema name v d) "components") k
                = getProp (getProp d "components") k)
  /\ schemasOk (addSchema name v d) = true.
Proof.
  intros H. destruct (schemasOk_inv d H) as (Hd & Hc & Hs).
  unfold addSchema, schemasOf. cbv zeta. rewrite (ensure_present _ _ Hc).
  set (E := ensure "schemas" (getProp d "components")) in *.
  assert (HE : isObj E = true).
  { unfold E, ensure. destruct (truthy _); [exact Hc | now rewrite isObj_setProp]. }
  set (d2 := setProp d "components" E).
  assert (H2 : getProp d2 "components" = E) by (unfold d2; now apply getProp_setProp_obj).
  assert (Hd2 : isObj d2 = true) by (unfold d2; now rewrite isObj_setProp).
  cbn [setPath]. rewrite H2.
  rewrite (getProp_setProp_obj d2) by assumption.
  rewrite (getProp_setProp_obj E) by assumption.
  repeat split.
  - intros k Hk. unfold d2. rewrite !getProp_setProp_other by now apply not_eq_sym.
    reflexivity.
  - intros k Hk. rewrite getProp_setProp_other by now apply not_eq_sym.
    unfold E, ensure. destruct (truthy _); [reflexivity|].
    apply getProp_setProp_other. now apply not_eq_sym.
  - unfold schemasOk, schemasOf.
    rewrite isObj_setProp, Hd2. rewrite (getProp_setProp_obj d2) by assumption.
    rewrite isObj_setProp, HE. rewrite (getProp_setProp_obj E) by assumption.
    now rewrite isObj_setProp, Hs.
Qed.

Lemma body_registration_resolves_core (name : string) (n d : JValue) :
  schemasOk d = true ->
  knownReference n "body" = Ok JUndefined ->
  let doc1 := addSchema name (Strict n) d in
  addBodyTypeToSchema name n d
  = Ok (mkRegistered (JStr ("#/components/schemas/" +++ name))
                     (writeRef n "body" ("#/components/schema/" +++ name)) doc1)
  /\ getProp (schemasOf doc1) name = Strict n
  /\ (forall k, k <> name -> getProp (schemasOf doc1) k = getProp (schemasOf d) k)
  /\ (forall k, k <> "components" -> getProp doc1 k = getProp d k)
  /\ (forall k, k <> "schemas" ->
                getProp (getProp doc1 "components") k
                = getProp (getProp d "components") k)
  /\ schemasOk doc1 = true.
Proof.
  intros Hd Hk. cbv zeta. unfold addBodyTypeToSchema. rewrite Hk. cbn [bind defined].
  split; [reflexivity|].
  destruct (addSchema_lookup name (Strict n) d Hd) as (Hs & Ht & Hc & Hok).
  destruct (schemasOk_inv d Hd) as (_ & Hc' & Ho).
  rewrite Hs. repeat split; auto.
  - now apply getProp_setProp_obj.
  - intros k Hne. rewrite getProp_setProp_other by now apply not_eq_sym.
    unfold ensure, schemasOf.
    destruct (truthy (getProp (getProp d "components") "schemas")) eqn:T;
      [reflexivity|].
    rewrite getProp_setProp_obj by exact Hc'.
    destruct (getProp (getProp d "components") "schemas")
      as [ | | b | z | | s | xs | sy fs ]; try reflexivity; try discriminate.
    destruct s; [reflexivity | discriminate].
Qed.

(** X13.  The first registration of a schema object as a body stores its
    [Type.Strict] form under the given name, whatever that name held
    before, and returns the reference the sampler resolves to that name;
    the other schemas and the rest of the document stay as they were. *)
Theorem body_registration_resolves (name : string) (n d : JValue) :
  schemasOk d = true ->
  knownReference n "body" = Ok JUndefined ->
  exists r : Registered,
    addBodyTypeToSchema name n d = Ok r
    /\ refIdOf (reference r) = Ok name
    /\ getProp (schemasOf (rootDoc r)) name = Strict n
    /\ (forall k, k <> name ->
                  getProp (schemasOf (rootDoc r)) k = getProp (schemasOf d) k)
    /\ (forall k, k <> "components" -> getProp (rootDoc r) k = getProp d k)
    /\ (forall k, k <> "schemas" ->
                  getProp (getProp (rootDoc r) "components") k
                  = getProp (getProp d "components") k).
Proof.
  intros Hd Hk.
  destruct (body_registration_resolves_core name n d Hd Hk)
    as (Hreg & Hname & Hother & Htop & Hcomp & _).
  eexists. split; [exact Hreg|]. cbn [reference rootDoc].
  split; [apply refIdOf_schemas|]. auto.
Qed.

Lemma body_registration_resolves_witness :
  exists r : Registered,
    addBodyTypeToSchema "TResponse_get_text_plain_200" (exampleString "OK") emptyDoc = Ok r
    /\ refIdOf (reference r) = Ok "TResponse_get_text_plain_200"
    /\ getProp (schemasOf (rootDoc r)) "TResponse_get_text_plain_200"
       = Strict (exampleString "OK")
    /\ (forall k, k <> "TResponse_get_text_plain_200" ->
                  getProp (schemasOf (rootDoc r)) k = getProp (schemasOf emptyDoc) k)
    /\ (forall k, k <> "components" -> getProp (rootDoc r) k = getProp emptyDoc k)
    /\ (forall k, k <> "schemas" ->
                  getProp (getProp (rootDoc r) "components") k
                  = getProp (getProp emptyDoc "components") k).
Proof. apply body_registration_resolves; reflexivity. Defined.

End RegistrationFacts.

(* ====================================================================== *)
(** * index.ts: the sampler, one observation after the other *)
(* ====================================================================== *)

Module ObservationFacts.
Import TypeBox TypeSystem TypeboxUtils OpenApi Examples StoreFacts SamplerFacts.
Import InferenceFacts RegistrationFacts.

(** ** Observations, one after the other *)

Lemma isObjectPath_setPath (p q : list string) (k : string) (x v : JValue) :
  isObjectPath p v = true -> isObjectPath q x = true ->
  isObjectPath (p ++ k :: q) (setPath (p ++ [k]) x v) = true.
Proof.
  revert v. induction p as [|k0 p IH]; intros v Hp Hq.
  - destruct v; try discriminate. cbn [app setPath setProp isObjectPath getProp].
    now rewrite lookup_setField_same.
  - apply isObjectPath_cons in Hp. destruct Hp as [Hv Hp].
    destruct v; try discriminate.
    cbn [app setPath]. cbn [setProp isObjectPath]. cbn [getProp] in *.
    rewrite lookup_setField_same. now apply IH.
Qed.

Lemma getPath_setPath_below (p q : list string) (k : string) (x v : JValue) :
  isObjectPath p v = true ->
  getPath (p ++ k :: q) (setPath (p ++ [k]) x v) = getPath q x.
Proof.
  intros H. change (p ++ k :: q) with (p ++ [k] ++ q). rewrite app_assoc, getPath_app.
  now rewrite getPath_setPath_same.
Qed.

Lemma isObjectPath_top (k : string) (p : list string) (d d' : JValue) :
  isObj d' = isObj d -> getProp d' k = getProp d k ->
  isObjectPath (k :: p) d' = isObjectPath (k :: p) d.
Proof.
  intros Ho Hk. destruct d, d'; try discriminate; try reflexivity.
  cbn [isObjectPath]. now rewrite Hk.
Qed.

Lemma isObjectPath_addSchema (name : string) (x d : JValue) (p : list string) :
  schemasOk d = true ->
  isObjectPath ("paths" :: p) (addSchema name x d) = isObjectPath ("paths" :: p) d.
Proof.
  intros H. destruct (addSchema_lookup name x d H) as (_ & Ht & _ & Hok).
  destruct (schemasOk_inv _ H) as (Hd & _ & _).
  destruct (schemasOk_inv _ Hok) as (Hd' & _ & _).
  apply isObjectPath_top; [congruence|]. apply Ht. discriminate.
Qed.

Lemma revive_no_reference (v : JValue) (loc : string) :
  defined v = true -> knownReference (revive v) loc = Ok JUndefined.
Proof.
  destruct v as [ | | b | z | | s | xs | sy fs ]; try discriminate; intros _;
    try reflexivity.
  - cbn [revive]. cbv zeta. destruct (haveSameType _); [reflexivity|].
    unfold Tuple. destruct (map revive xs); reflexivity.
  - cbn [revive]. unfold Object. cbv zeta.
    destruct (filter _ _); reflexivity.
Qed.

(** No sample is counted where the status has no entry yet. *)
Lemma sampledCountOf_unknown_status (doc : JValue) (path method ct : string)
    (statusCode : nat) :
  truthy (getPath ["paths"; path; method; "responses"; string_of_nat statusCode] doc)
  = false ->
  isObjectPath ["paths"; path; method; "responses"] doc = true ->
  sampledCountOf doc path method statusCode ct = JNull.
Proof.
  intros Hf Hp. unfold sampledCountOf, schemaCell. cbn [app fold_left].
  cbn [getPath] in Hf.
  apply isObjectPath_cons in Hp. destruct Hp as [H0 Hp].
  apply isObjectPath_cons in Hp. destruct Hp as [H1 Hp].
  apply isObjectPath_cons in Hp. destruct Hp as [H2 Hp].
  apply isObjectPath_cons in Hp. destruct Hp as [H3 Hp].
  apply isObjectPath_isObj in Hp.
  rewrite (optGet_obj _ _ H0), (optGet_obj _ _ H1), (optGet_obj _ _ H2),
    (optGet_obj _ _ H3), (optGet_obj _ _ Hp).
  destruct (getProp _ (string_of_nat statusCode)) as [ | | b | z | | s | xs | sy fs ];
    try discriminate; try reflexivity.
  destruct s; [reflexivity | discriminate].
Qed.

Section Observations.
Variable JSON_parse : string -> option JValue.
Variable Check : JValue -> JValue -> bool.
Variable Composite : list JValue -> JValue -> Symbols * Fields.

Local Abbreviation handler := (snoopOnResponseHandler JSON_parse Check Composite).

(** The first response observed for a status of a registered route, with
    an inferred schema that carries no reference yet. *)
Lemma first_observation_entry (h g : option SampleResponseOptions) (c : Context)
    (random : Num) (rootDoc inferredSchema responseData : JValue) :
  let contentType := contentTypeOf (contentTypeHeader c) in
  let responses := ["paths"; routePath c; method c; "responses"] in
  let cell := schemaCell (routePath c) (method c) (status c) contentType in
  let name := prettyNameOf (routePath c) (method c) contentType (status c) in
  isObjectPath responses rootDoc = true ->
  truthy (getPath (responses ++ [string_of_nat (status c)]) rootDoc) = false ->
  schemasOk rootDoc = true ->
  readBody JSON_parse c contentType = Ok (Some inferredSchema, responseData) ->
  knownReference inferredSchema "body" = Ok JUndefined ->
  exists doc1 : JValue,
    handler h g c random rootDoc = Returned doc1
    /\ getPath cell doc1
       = obj [("$ref", JStr ("#/components/schemas/" +++ name)); (countKey, JNum 1)]
    /\ getProp (schemasOf doc1) name = Strict inferredSchema
    /\ getProp (getPath (responses ++ [string_of_nat (status c)]) doc1) "description"
       = JStr (STATUS_CODE_MAP (status c))
    /\ isObjectPath cell doc1 = true
    /\ schemasOk doc1 = true.
Proof.
  cbv zeta. intros Hp Hf Hs Hbody Hv.
  set (ct := contentTypeOf (contentTypeHeader c)) in *.
  set (name := prettyNameOf (routePath c) (method c) ct (status c)).
  destruct (body_registration_resolves_core name inferredSchema rootDoc Hs Hv)
    as (Hreg & Hname & Hother & Htop & Hcomp & Hok).
  set (doc0 := addSchema name (Strict inferredSchema) rootDoc) in *.
  set (entry := obj [("description", JStr (STATUS_CODE_MAP (status c)));
                     ("content",
                      obj [(ct, newResponseSchema
                                  (JStr ("#/components/schemas/" +++ name)))])]).
  exists (setPath (["paths"; routePath c; method c; "responses"]
                   ++ [string_of_nat (status c)]) entry doc0).
  assert (Hp0 : isObjectPath ["paths"; routePath c; method c; "responses"] doc0 = true).
  { unfold doc0. now rewrite isObjectPath_addSchema. }
  repeat match goal with |- _ /\ _ => split end.
  - unfold snoopOnResponseHandler. cbv zeta. fold ct. fold name.
    rewrite (sampledCountOf_unknown_status _ _ _ _ _ Hf Hp).
    cbn [gateSkips strictEq negb andb]. rewrite Hbody.
    rewrite (readBody_contentType _ _ _ _ _ Hbody).
    pose proof Hp as Hq.
    apply isObjectPath_cons in Hq. destruct Hq as [H0 Hq].
    apply isObjectPath_cons in Hq. destruct Hq as [H1 Hq].
    apply isObjectPath_cons in Hq. destruct Hq as [H2 Hq].
    apply isObjectPath_cons in Hq. destruct Hq as [H3 Hq].
    apply isObjectPath_isObj in Hq.
    rewrite (optGet_obj _ _ H1), (isObj_truthy _ H2). cbn [andb negb].
    rewrite (optGet_obj _ _ H3), (isObj_truthy _ Hq). cbn [negb].
    cbn [app getPath] in Hf. rewrite Hf.
    unfold doc0 in *. rewrite Hreg. cbn [reference OpenApi.rootDoc]. reflexivity.
  - unfold schemaCell.
    change ["paths"; routePath c; method c; "responses"; string_of_nat (status c);
            "content"; ct; "schema"]
      with (["paths"; routePath c; method c; "responses"]
            ++ string_of_nat (status c) :: ["content"; ct; "schema"]).
    rewrite (getPath_setPath_below _ _ _ _ _ Hp0).
    unfold entry, newResponseSchema, obj. cbn [getPath getProp lookup String.eqb
                                                 Ascii.eqb Bool.eqb].
    now rewrite String.eqb_refl.
  - unfold schemasOf. cbn [app setPath].
    rewrite getProp_setProp_other by discriminate. exact Hname.
  - rewrite (getPath_setPath_same _ _ _ _ Hp0). reflexivity.
  - unfold schemaCell.
    change ["paths"; routePath c; method c; "responses"; string_of_nat (status c);
            "content"; ct; "schema"]
      with (["paths"; routePath c; method c; "responses"]
            ++ string_of_nat (status c) :: ["content"; ct; "schema"]).
    apply isObjectPath_setPath; [exact Hp0|].
    unfold entry, newResponseSchema, obj.
    cbn [isObjectPath getProp lookup String.eqb Ascii.eqb Bool.eqb].
    now rewrite String.eqb_refl.
  - cbn [app setPath]. unfold schemasOk, schemasOf in *.
    rewrite isObj_setProp. rewrite !getProp_setProp_other by discriminate. exact Hok.
Qed.

(** X14.  The first response observed for a status of a registered route
    with an ASCII path, when the body is a regular value: the schema
    inferred from it is stored under the pretty name of the response, and
    the response is entered with a reference to that schema, the
    description of the status and a sample count of one. *)
Theorem first_observation (h g : option SampleResponseOptions) (c : Context)
    (random : Num) (rootDoc v responseData : JValue) :
  let contentType := contentTypeOf (contentTypeHeader c) in
  let responses := ["paths"; routePath c; method c; "responses"] in
  let cell := schemaCell (routePath c) (method c) (status c) contentType in
  let name := prettyNameOf (routePath c) (method c) contentType (status c) in
  asciiOnly (routePath c) = true ->
  isObjectPath responses rootDoc = true ->
  truthy (getPath (responses ++ [string_of_nat (status c)]) rootDoc) = false ->
  schemasOk rootDoc = true ->
  readBody JSON_parse c contentType = Ok (Some (revive v), responseData) ->
  regular v = true ->
  exists doc1 : JValue,
    handler h g c random rootDoc = Returned doc1
    /\ getPath cell doc1
       = obj [("$ref", JStr ("#/components/schemas/" +++ name)); (countKey, JNum 1)]
    /\ getProp (schemasOf doc1) name = Strict (revive v)
    /\ getProp (getPath (responses ++ [string_of_nat (status c)]) doc1) "description"
       = JStr (STATUS_CODE_MAP (status c))
    /\ isObjectPath cell doc1 = true
    /\ schemasOk doc1 = true.
Proof.
  cbv zeta. intros _ Hp Hf Hs Hbody Hv.
  apply (first_observation_entry h g c random rootDoc (revive v) responseData
           Hp Hf Hs Hbody).
  apply revive_no_reference. now apply regular_defined.
Qed.

Lemma sampledCountOf_cell (doc : JValue) (path method ct : string) (statusCode : nat) :
  isObjectPath (schemaCell path method statusCode ct) doc = true ->
  sampledCountOf doc path method statusCode ct
  = nullish (getProp (getPath (schemaCell path method statusCode ct) doc) countKey)
            JNull.
Proof.
  intros Hp. unfold sampledCountOf, schemaCell in *. cbn [app fold_left getPath].
  apply isObjectPath_cons in Hp. destruct Hp as [H0 Hp].
  apply isObjectPath_cons in Hp. destruct Hp as [H1 Hp].
  apply isObjectPath_cons in Hp. destruct Hp as [H2 Hp].
  apply isObjectPath_cons in Hp. destruct Hp as [H3 Hp].
  apply isObjectPath_cons in Hp. destruct Hp as [H4 Hp].
  apply isObjectPath_cons in Hp. destruct Hp as [H5 Hp].
  apply isObjectPath_cons in Hp. destruct Hp as [H6 Hp].
  apply isObjectPath_cons in Hp. destruct Hp as [H7 Hp].
  apply isObjectPath_isObj in Hp.
  now rewrite (optGet_obj _ _ H0), (optGet_obj _ _ H1), (optGet_obj _ _ H2),
    (optGet_obj _ _ H3), (optGet_obj _ _ H4), (optGet_obj _ _ H5),
    (optGet_obj _ _ H6), (optGet_obj _ _ H7), (optGet_obj _ _ Hp).
Qed.

End Observations.


(** The first [c.text('OK')] on [GET /t]. *)
Lemma first_observation_witness :
  exists doc1 : JValue,
    snoopOnResponseHandler parseNothing checkNothing compositeNothing
                           None None textOK (Fin 0) registeredDoc = Returned doc1
    /\ getPath (schemaCell "/t" "get" 200 "text/plain") doc1
       = obj [("$ref", JStr ("#/components/schemas/"
                             +++ prettyNameOf "/t" "get" "text/plain" 200));
              (countKey, JNum 1)]
    /\ getProp (schemasOf doc1) (prettyNameOf "/t" "get" "text/plain" 200)
       = Strict (revive (JStr "OK"))
    /\ getProp (getPath (["paths"; "/t"; "get"; "responses"] ++ [string_of_nat 200])
                        doc1) "description"
       = JStr (STATUS_CODE_MAP 200)
    /\ isObjectPath (schemaCell "/t" "get" 200 "text/plain") doc1 = true
    /\ schemasOk doc1 = true.
Proof.
  apply (first_observation parseNothing checkNothing compositeNothing None None
           textOK (Fin 0) registeredDoc (JStr "OK") (JStr "OK")); reflexivity.
Defined.

(** ** What the sampler leaves alone *)

Lemma getProp_setPath_other (k0 : string) (p : list string) (x v : JValue) (k : string) :
  k <> k0 -> getProp (setPath (k0 :: p) x v) k = getProp v k.
Proof. intros H. cbn [setPath]. apply getProp_setProp_other. now apply not_eq_sym. Qed.

Lemma addSchema_top (name : string) (x d : JValue) (k : string) :
  k <> "components" -> getProp (addSchema name x d) k = getProp d k.
Proof.
  intros H. unfold addSchema. cbv zeta. rewrite getProp_setPath_other by exact H.
  rewrite getProp_setProp_other by now apply not_eq_sym.
  unfold ensure. destruct (truthy _); [reflexivity|].
  apply getProp_setProp_other. now apply not_eq_sym.
Qed.

Lemma addBodyTypeToSchema_top (name : string) (n d : JValue) (r : Registered) (k : string) :
  k <> "components" ->
  addBodyTypeToSchema name n d = Ok r -> getProp (rootDoc r) k = getProp d k.
Proof.
  intros Hk H. unfold addBodyTypeToSchema in H.
  destruct (knownReference n "body") as [known|e]; [|discriminate].
  cbn [bind] in H. destruct (defined known); injection H as <-; cbn [rootDoc];
    [reflexivity | now apply addSchema_top].
Qed.

Section Frame.
Variable JSON_parse : string -> option JValue.
Variable Check : JValue -> JValue -> bool.
Variable Composite : list JValue -> JValue -> Symbols * Fields.

Lemma mergeIntoReference_top (mode : SamplingMode) (cell : list string)
    (schemaObj inferredSchema responseData rootDoc : JValue) (k0 k : string)
    (rest : list string) :
  cell = k0 :: rest -> k <> k0 -> k <> "components" ->
  getProp (documentOf (mergeIntoReference Check Composite mode cell schemaObj
                                          inferredSchema responseData rootDoc)) k
  = getProp rootDoc k.
Proof.
  intros -> Hk Hc. unfold mergeIntoReference.
  destruct (refIdOf _) as [refId|e]; [|reflexivity].
  destruct (bind _ _) as [t|e]; [|reflexivity]. cbv zeta.
  assert (H1 : forall x, getProp (setPath ((k0 :: rest) ++ [countKey]) x rootDoc) k
                         = getProp rootDoc k).
  { intros x. cbn [app]. now apply getProp_setPath_other. }
  assert (Hd : getProp (if hasProp schemaObj countKey
                        then setPath ((k0 :: rest) ++ [countKey])
                                     (plusOne (getProp schemaObj countKey)) rootDoc
                        else setPath ((k0 :: rest) ++ [countKey]) (JNum 1) rootDoc) k
               = getProp rootDoc k).
  { destruct (hasProp schemaObj countKey); apply H1. }
  destruct (isDeepEqual _ _ _); [exact Hd|].
  destruct (Check _ _); [exact Hd|].
  destruct mode.
  - destruct (flattenIntersections _); cbn [documentOf]; [|exact Hd].
    now rewrite getProp_setPath_other.
  - cbn [documentOf]. now rewrite getProp_setPath_other.
Qed.

(** X16.  Whether a run of the sampler returns or throws, the document it
    leaves differs from the one it found under [paths] and [components]
    at most: every other top-level field is as before. *)
Theorem sampler_touches_paths_and_components
    (h g : option SampleResponseOptions) (c : Context) (random : Num)
    (rootDoc : JValue) (k : string) :
  k <> "paths" -> k <> "components" ->
  getProp (documentOf (snoopOnResponseHandler JSON_parse Check Composite
                                              h g c random rootDoc)) k
  = getProp rootDoc k.
Proof.
  intros Hp Hc. unfold snoopOnResponseHandler. cbv zeta.
  repeat match goal with
         | |- getProp (documentOf (Returned rootDoc)) _ = _ => reflexivity
         | |- getProp (documentOf (Thrown _ rootDoc)) _ = _ => reflexivity
         | |- getProp (documentOf (mergeIntoReference _ _ _ _ _ _ _ _)) _ = _ =>
             now apply (mergeIntoReference_top _ _ _ _ _ _ "paths" k _ eq_refl)
         | |- context [match addBodyTypeToSchema ?a ?b ?d with _ => _ end] =>
             let E := fresh "E" in
             destruct (addBodyTypeToSchema a b d) as [r|e] eqn:E;
             [cbn [documentOf app]; rewrite getProp_setPath_other by exact Hp;
              exact (addBodyTypeToSchema_top _ _ _ _ _ Hc E)
             | reflexivity]
         | |- context [match ?x with _ => _ end] => destruct x
         | |- context [if ?x then _ else _] => destruct x
         end.
Qed.
End Frame.

(** [c.text('fine')] on the document observed once: [info] is as it was. *)
Lemma sampler_touches_paths_and_components_witness :
  getProp (documentOf (snoopOnResponseHandler parseNothing checkNothing
                         compositeNothing None None textFine (Fin 0) sampledOnce))
          "info"
  = getProp sampledOnce "info".
Proof.
  apply (sampler_touches_paths_and_components parseNothing checkNothing
           compositeNothing None None textFine (Fin 0) sampledOnce "info");
    discriminate.
Defined.

End ObservationFacts.

(* ====================================================================== *)
(** * index.ts: the operation of a registered route *)
(* ====================================================================== *)

Module OperationFacts.
Import TypeBox TypeSystem OpenApi Examples RouteFacts.

(** ** The operation a registration writes *)

(** A registration that goes through writes an operation whose fields,
    apart from the request body and the parameters, are fixed by the route
    definition, the operation found and the default tag. *)
Lemma route_operation (defaultTag : JValue) (method path : string)
    (routeDefinition : JValue) (validationSchema : ValidationSchemas)
    (st st'' : Store) :
  routeDocOk (document st) = true ->
  negb (defined routeDefinition)
  && defined (optGet (optGet (getProp (document st) "paths") path) method) = false ->
  addOrAugmentOpenApiRoute defaultTag method path routeDefinition validationSchema st
  = Ok st'' ->
  let rd := nullish routeDefinition (obj []) in
  let existingSpec := optGet (optGet (getProp (document st) "paths") path) method in
  let keep k := nullish (getProp rd k) (optGet existingSpec k) in
  exists (requestBody : JValue) (ps : list JValue),
    operationOf (document st'') path method
    = obj [("summary", keep "summary");
           ("description", keep "description");
           ("deprecated", keep "deprecated");
           ("tags", if truthy (nullish (getProp rd "tags") defaultTag)
                    then JArr [defaultTag] else JUndefined);
           ("externalDocs", keep "externalDocs");
           ("operationId",
            nullish (optGet routeDefinition "operationId")
                    (JStr (method +++ capitalizedRoute path)));
           ("requestBody", requestBody);
           ("parameters", JArr ps);
           ("security", keep "security");
           ("responses", nullish (optGet existingSpec "responses") (obj []))].
Proof.
  intros Hd Hfirst H. unfold addOrAugmentOpenApiRoute in H. cbv zeta in H.
  rewrite Hfirst in H.
  destruct (match v_json validationSchema with
            | None => Ok (JUndefined, st)
            | Some a => _
            end) as [[requestBody st0]|e] eqn:B; [|discriminate].
  assert (Hd0 : routeDocOk (document st0) = true).
  { destruct (v_json validationSchema) as [a|].
    - destruct (addBodyTypeToSchemaAt _ a st) as [[ref st1]|e] eqn:E; [|discriminate].
      cbn [bind fst snd] in B. injection B as _ <-.
      unfold addBodyTypeToSchemaAt in E.
      destruct (addBodyTypeToSchema _ _ _) as [r|e] eqn:R; [|discriminate].
      cbn [bind commit] in E. injection E as _ <-. cbn [document].
      now rewrite (routeDocOk_addBodyTypeToSchema _ _ _ _ R).
    - injection B as _ <-. exact Hd. }
  unfold bind at 1 in H. unfold snd at 1 in H.
  destruct (routeParameters validationSchema path st0) as [[ps st']|e] eqn:R;
    [|discriminate].
  unfold bind, fst, snd in H. injection H as <-.
  cbv zeta. exists requestBody, ps. cbn [document]. unfold operationOf.
  erewrite addPath_operation; cycle 1.
  - now rewrite (routeDocOk_routeParameters _ _ _ _ _ R).
  - intros old. apply lookup_spread_pathInfo.
  - reflexivity.
Qed.

(** X17.  The tags a route declares are never stored.  Whenever a
    registration goes through, the operation's [tags] is the one-element
    list of the default tag, also when the instance has none and the entry
    is [undefined]; without tags on the route it is that list for a truthy
    default tag and [undefined] otherwise. *)
Theorem route_tags_are_not_stored (defaultTag : JValue) (method path : string)
    (routeDefinition : JValue) (validationSchema : ValidationSchemas)
    (st st'' : Store) :
  routeDocOk (document st) = true ->
  negb (defined routeDefinition)
  && defined (optGet (optGet (getProp (document st) "paths") path) method) = false ->
  addOrAugmentOpenApiRoute defaultTag method path routeDefinition validationSchema st
  = Ok st'' ->
  let tags := getProp (nullish routeDefinition (obj [])) "tags" in
  let stored := getProp (operationOf (document st'') path method) "tags" in
  (forall ts : list JValue, tags = JArr ts -> stored = JArr [defaultTag])
  /\ (isNullish tags = true ->
      stored = if truthy defaultTag then JArr [defaultTag] else JUndefined).
Proof.
  intros Hd Hfirst H. cbv zeta.
  destruct (route_operation _ _ _ _ _ _ _ Hd Hfirst H) as (requestBody & ps & ->).
  split.
  - intros ts E. cbn. now rewrite E.
  - intros E. cbn. unfold nullish at 1. now rewrite E.
Qed.

(** X18.  Registering a route again with a definition keeps what was
    observed: the [responses] of the operation found are the [responses]
    of the operation written, and a first registration starts from the
    empty object.  Summary, description, deprecation, external docs and
    security fall back to the operation found when the definition leaves
    them out. *)
Theorem reregistration_keeps_responses (defaultTag : JValue) (method path : string)
    (routeDefinition : JValue) (validationSchema : ValidationSchemas)
    (st st'' : Store) :
  routeDocOk (document st) = true ->
  negb (defined routeDefinition)
  && defined (optGet (optGet (getProp (document st) "paths") path) method) = false ->
  addOrAugmentOpenApiRoute defaultTag method path routeDefinition validationSchema st
  = Ok st'' ->
  let found := optGet (optGet (getProp (document st) "paths") path) method in
  let written := operationOf (document st'') path method in
  getProp written "responses" = nullish (optGet found "responses") (obj [])
  /\ forall k : string,
       In k ["summary"; "description"; "deprecated"; "externalDocs"; "security"] ->
       isNullish (getProp (nullish routeDefinition (obj [])) k) = true ->
       getProp written k = optGet found k.
Proof.
  intros Hd Hfirst H. cbv zeta.
  destruct (route_operation _ _ _ _ _ _ _ Hd Hfirst H) as (requestBody & ps & ->).
  split; [reflexivity|].
  intros k Hk E. cbn [In] in Hk.
  repeat (destruct Hk as [<-|Hk]; [cbn; unfold nullish at 1; now rewrite E|]).
  destruct Hk.
Qed.

(** [GET /t] registered with the tag [users] on a fresh instance that has no
    default tag: the operation's tags are [[undefined]]. *)
Lemma route_tags_are_not_stored_witness :
  exists st'' : Store,
    addOrAugmentOpenApiRoute JUndefined "get" "/t" taggedRoute noValidation freshStore
    = Ok st''
    /\ getProp (operationOf (document st'') "/t" "get") "tags" = JArr [JUndefined].
Proof.
  eexists. split; [reflexivity|].
  refine (proj1 (route_tags_are_not_stored JUndefined "get" "/t" taggedRoute
                   noValidation freshStore _ eq_refl eq_refl eq_refl)
                [JStr "users"] eq_refl).
Defined.

(** [GET /t], observed once, registered again with a summary: the observed
    response is still there. *)
Lemma reregistration_keeps_responses_witness :
  exists st'' : Store,
    addOrAugmentOpenApiRoute JUndefined "get" "/t" describedRoute noValidation
                             sampledStore = Ok st''
    /\ getProp (operationOf (document st'') "/t" "get") "responses"
       = getPath ["paths"; "/t"; "get"; "responses"] sampledOnce.
Proof.
  eexists. split; [reflexivity|].
  exact (proj1 (reregistration_keeps_responses JUndefined "get" "/t" describedRoute
                  noValidation sampledStore _ eq_refl eq_refl eq_refl)).
Defined.

End OperationFacts.

(* ====================================================================== *)
(** * types.ts: isDeepEqual *)
(* ====================================================================== *)

Module ComparisonFacts.
Import EqualFacts FuelFacts.

(** ** isDeepEqual and the ignored properties *)

Lemma without_obj (ig : list string) (sy : Symbols) (fs : Fields) :
  without ig (JObj sy fs) = JObj sy (withoutFields ig fs).
Proof.
  cbn [without]. f_equal. induction fs as [|[k x] fs IH]; [reflexivity|].
  cbn [withoutFields]. now rewrite IH.
Qed.

Lemma filter_all {A : Type} (f : A -> bool) (l : list A) :
  (forall x, In x l -> f x = true) -> filter f l = l.
Proof.
  induction l as [|x l IH]; intros H; [reflexivity|].
  cbn [filter]. rewrite (H x (or_introl eq_refl)), IH; [reflexivity|].
  intros y Hy. apply H. now right.
Qed.

Lemma name_not_index (ig : list string) (i : nat) :
  forallb isName ig = true -> existsb (String.eqb (string_of_nat i)) ig = false.
Proof.
  intros H. destruct (existsb _ ig) eqn:E; [|reflexivity].
  apply existsb_exists in E. destruct E as (k & Hk & E).
  apply String.eqb_eq in E. subst k.
  rewrite forallb_forall in H. apply H in Hk.
  now rewrite string_of_nat_digit in Hk.
Qed.

Lemma filter_indexKeys (ig : list string) (n : nat) :
  forallb isName ig = true ->
  filter (fun k => negb (existsb (String.eqb k) ig)) (indexKeys n) = indexKeys n.
Proof.
  intros H. apply filter_all. intros k Hk. unfold indexKeys in Hk.
  apply in_map_iff in Hk. destruct Hk as (i & <- & _).
  now rewrite name_not_index.
Qed.

(** The keys compared are the keys of the value without the ignored ones. *)
Lemma ownKeys_without (ig : list string) (v : JValue) :
  forallb isName ig = true ->
  filter (fun k => negb (existsb (String.eqb k) ig)) (ownKeys v)
  = ownKeys (without ig v).
Proof.
  intros H. destruct v as [ | | b | z | | s | xs | sy fs ]; try reflexivity.
  - cbn [without ownKeys]. now apply filter_indexKeys.
  - cbn [without ownKeys]. rewrite length_map. now apply filter_indexKeys.
  - rewrite without_obj. cbn [ownKeys].
    induction fs as [|[k x] fs IH]; [reflexivity|].
    cbn [map fst filter withoutFields].
    destruct (existsb (String.eqb k) ig); cbn [negb map fst]; now rewrite IH.
Qed.

Lemma lookup_withoutFields (ig : list string) (key : string) (fs : Fields) :
  existsb (String.eqb key) ig = false ->
  lookup key (withoutFields ig fs) = option_map (without ig) (lookup key fs).
Proof.
  intros H. induction fs as [|[k x] fs IH]; [reflexivity|].
  cbn [withoutFields lookup].
  destruct (String.eqb key k) eqn:E.
  - apply String.eqb_eq in E. subst k. rewrite H. cbn [lookup].
    now rewrite String.eqb_refl.
  - destruct (existsb (String.eqb k) ig); [exact IH|].
    cbn [lookup]. now rewrite E.
Qed.

(** Reading a property that is not ignored. *)
Lemma getProp_without (ig : list string) (key : string) (v : JValue) :
  existsb (String.eqb key) ig = false ->
  getProp (without ig v) key = without ig (getProp v key).
Proof.
  intros H. destruct v as [ | | b | z | | s | xs | sy fs ]; try reflexivity.
  - cbn [without getProp].
    destruct (indexOfKey key (String.length s)) as [i|]; [|reflexivity].
    destruct (nth_in_or_default i (map JStr (chars s)) JUndefined) as [Hin | ->];
      [|reflexivity].
    apply in_map_iff in Hin. now destruct Hin as (c & <- & _).
  - cbn [without getProp]. rewrite length_map.
    destruct (indexOfKey key (List.length xs)) as [i|]; [|reflexivity].
    change JUndefined with (without ig JUndefined) at 1.
    now rewrite (map_nth (without ig) xs JUndefined i).
  - rewrite without_obj. cbn [getProp]. rewrite lookup_withoutFields by exact H.
    now destruct (lookup key fs).
Qed.

Lemma strictEq_without (ig : list string) (a b : JValue) :
  strictEq (without ig a) (without ig b) = strictEq a b.
Proof. destruct a, b; reflexivity. Qed.

Lemma isNullish_without (ig : list string) (a : JValue) :
  isNullish (without ig a) = isNullish a.
Proof. now destruct a. Qed.

Lemma isObjectLike_without (ig : list string) (a : JValue) :
  isObjectLike (without ig a) = isObjectLike a.
Proof. now destruct a. Qed.

Lemma isArray_without (ig : list string) (a : JValue) :
  isArray (without ig a) = isArray a.
Proof. now destruct a. Qed.

Lemma isNaN_without (ig : list string) (a : JValue) :
  isNaN (without ig a) = isNaN a.
Proof. now destruct a. Qed.

Lemma forallb_combine_map {A B : Type} (f : A -> B) (p : B * B -> bool)
    (xs ys : list A) :
  forallb p (combine (map f xs) (map f ys))
  = forallb (fun xy => p (f (fst xy), f (snd xy))) (combine xs ys).
Proof.
  revert ys. induction xs as [|x xs IH]; intros [|y ys]; try reflexivity.
  cbn [map combine forallb fst snd]. now rewrite IH.
Qed.

Lemma notIgnored_in (ig : list string) (key : string) (l : list string) :
  In key (filter (fun k => negb (existsb (String.eqb k) ig)) l) ->
  existsb (String.eqb key) ig = false.
Proof.
  intros H. apply filter_In in H. destruct H as [_ H].
  now apply negb_true_iff in H.
Qed.

Lemma ignoring_is_removing (n : nat) :
  forall (ig : list string) (a b : JValue),
    forallb isName ig = true ->
    height a + height b < n ->
    isDeepEqual a b ig = isDeepEqual (without ig a) (without ig b) [].
Proof.
  induction n as [|n IH]; intros ig a b Hig Hn; [lia|].
  rewrite (isDeepEqual_unfold a b), (isDeepEqual_unfold (without ig a)).
  rewrite strictEq_without, !isNullish_without, !isObjectLike_without,
    !isArray_without, !isNaN_without.
  destruct (strictEq a b); [reflexivity|].
  destruct (isNullish a || isNullish b
            || negb (isObjectLike a) && negb (isObjectLike b)) eqn:G; [reflexivity|].
  destruct (negb (Bool.eqb (isArray a) (isArray b))) eqn:A; [reflexivity|].
  assert (Hpos : 0 < height a + height b)
    by (destruct a, b; cbn in G; try discriminate; cbn [height]; lia).
  assert (K : forall key : string,
             existsb (String.eqb key) ig = false ->
             isDeepEqual (getProp a key) (getProp b key) ig
             = isDeepEqual (getProp (without ig a) key)
                           (getProp (without ig b) key) []).
  { intros key Hkey. rewrite !getProp_without by exact Hkey.
    pose proof (height_getProp a key). pose proof (height_getProp b key).
    apply IH; [exact Hig | lia]. }
  assert (F : forall l : list string,
             filter (fun k => negb (existsb (String.eqb k) [])) l = l).
  { intros l. now apply filter_all. }
  assert (Keys : forall a b : JValue,
    (forall key : string,
        existsb (String.eqb key) ig = false ->
        isDeepEqual (getProp a key) (getProp b key) ig
        = isDeepEqual (getProp (without ig a) key)
                      (getProp (without ig b) key) []) ->
    (let notIgnored k := negb (existsb (String.eqb k) ig) in
     let keys1 := filter notIgnored (ownKeys a) in
     let keys2 := filter notIgnored (ownKeys b) in
     if negb (Nat.eqb (List.length keys1) (List.length keys2)) then false
     else if negb (forallb (fun k => existsb (String.eqb k) keys2) keys1) then false
     else forallb (fun key => isDeepEqual (getProp a key) (getProp b key) ig) keys1)
    = (let notIgnored k := negb (existsb (String.eqb k) []) in
       let keys1 := filter notIgnored (ownKeys (without ig a)) in
       let keys2 := filter notIgnored (ownKeys (without ig b)) in
       if negb (Nat.eqb (List.length keys1) (List.length keys2)) then false
       else if negb (forallb (fun k => existsb (String.eqb k) keys2) keys1) then false
       else forallb (fun key => isDeepEqual (getProp (without ig a) key)
                                            (getProp (without ig b) key) []) keys1)).
  { intros a' b' K'. cbv zeta. rewrite !F, <- !(ownKeys_without ig) by exact Hig.
    destruct (negb (Nat.eqb _ _)); [reflexivity|].
    destruct (negb (forallb _ _)); [reflexivity|].
    apply forallb_ext_in. intros key Hkey. apply K'.
    now apply notIgnored_in in Hkey. }
  destruct a as [ | | b1 | z1 | | s1 | xs | sy1 fs1 ],
           b as [ | | b2 | z2 | | s2 | ys | sy2 fs2 ];
    cbn in G, A; try discriminate;
    try (rewrite ?without_obj; cbn [without];
         rewrite <- ?without_obj;
         first [ exact (Keys _ _ K) ]).
  cbn [without]. rewrite !length_map.
  destruct (negb (Nat.eqb _ _)); [reflexivity|].
  rewrite forallb_combine_map. cbn [fst snd].
  apply forallb_ext_in. intros [x y] H. cbn [fst snd].
  pose proof (in_combine_l _ _ _ _ H) as Hx. pose proof (in_combine_r _ _ _ _ H) as Hy.
  apply height_element in Hx, Hy. apply IH; [exact Hig | lia].
Qed.

(** X19.  Ignoring properties is comparing without them: when the ignored
    names are no array indices, two values are deep-equal up to
    [propsToIgnore] exactly when the values with those properties removed
    from every object inside them, at any depth, are deep-equal. *)
Theorem isDeepEqual_ignores_everywhere (propsToIgnore : list string) (a b : JValue) :
  forallb isName propsToIgnore = true ->
  isDeepEqual a b propsToIgnore
  = isDeepEqual (without propsToIgnore a) (without propsToIgnore b) [].
Proof.
  intros H. apply (ignoring_is_removing (S (height a + height b))); [exact H | lia].
Qed.

(** Two string types that differ by their example. *)
Lemma isDeepEqual_ignores_everywhere_witness :
  isDeepEqual (Examples.exampleString "x") (Examples.exampleString "y") ["example"]
  = isDeepEqual (without ["example"] (Examples.exampleString "x"))
                (without ["example"] (Examples.exampleString "y")) [].
Proof. apply isDeepEqual_ignores_everywhere. reflexivity. Defined.

(** ** isDeepEqual as a relation *)

Lemma strictEq_sym (a b : JValue) : strictEq a b = strictEq b a.
Proof.
  destruct a, b; try reflexivity; cbn [strictEq].
  - now destruct b0, b.
  - apply Z.eqb_sym.
  - apply String.eqb_sym.
Qed.

Lemma string_of_nat_inj (i j : nat) : string_of_nat i = string_of_nat j -> i = j.
Proof.
  assert (N : forall n : nat, Nat.to_uint n <> Decimal.Nil).
  { intros n E. apply (DecimalFacts.unorm_nonnil (Nat.to_uint n)).
    rewrite <- DecimalNat.Unsigned.to_of, DecimalNat.Unsigned.of_to. exact E. }
  unfold string_of_nat. intros H.
  apply (f_equal NilZero.uint_of_string) in H.
  rewrite !NilZero.usu in H by apply N.
  injection H as H. now apply DecimalNat.Unsigned.to_uint_inj.
Qed.

Lemma NoDup_indexKeys (n : nat) : NoDup (indexKeys n).
Proof.
  unfold indexKeys. apply NoDup_map_NoDup_ForallPairs; [|apply seq_NoDup].
  intros i j _ _. apply string_of_nat_inj.
Qed.

Lemma uniqueKeys_NoDup (ks : list string) : uniqueKeys ks = true -> NoDup ks.
Proof.
  induction ks as [|k ks IH]; intros H; [constructor|].
  cbn [uniqueKeys] in H. apply andb_true_iff in H. destruct H as [H1 H2].
  constructor; [|now apply IH].
  intros Hin. apply negb_true_iff in H1.
  assert (existsb (String.eqb k) ks = true); [|congruence].
  apply existsb_exists. exists k. split; [exact Hin | apply String.eqb_refl].
Qed.

Lemma NoDup_ownKeys (v : JValue) : distinctKeys v = true -> NoDup (ownKeys v).
Proof.
  destruct v as [ | | b | z | | s | xs | sy fs ]; intros H; cbn [ownKeys];
    try constructor; try apply NoDup_indexKeys.
  cbn [distinctKeys] in H. apply andb_true_iff in H.
  now apply uniqueKeys_NoDup.
Qed.

Lemma distinctKeys_getProp (v : JValue) (key : string) :
  distinctKeys v = true -> distinctKeys (getProp v key) = true.
Proof.
  destruct v as [ | | b | z | | s | xs | sy fs ]; intros H; cbn [getProp];
    try reflexivity.
  - destruct (indexOfKey key (String.length s)) as [i|]; [|reflexivity].
    destruct (nth_in_or_default i (map JStr (chars s)) JUndefined) as [Hin | ->];
      [|reflexivity].
    apply in_map_iff in Hin. now destruct Hin as (c & <- & _).
  - destruct (indexOfKey key (List.length xs)) as [i|]; [|reflexivity].
    destruct (nth_in_or_default i xs JUndefined) as [Hin | ->]; [|reflexivity].
    cbn [distinctKeys] in H. rewrite forallb_forall in H. now apply H.
  - destruct (lookup key fs) as [x|] eqn:E; [|reflexivity].
    cbn [distinctKeys] in H. apply andb_true_iff in H. destruct H as [_ H].
    rewrite forallb_forall in H.
    assert (Hin : In (key, x) fs).
    { clear H. induction fs as [|[k y] fs IH]; [discriminate|].
      cbn [lookup] in E. destruct (String.eqb key k) eqn:K.
      - apply String.eqb_eq in K. subst k. injection E as ->. now left.
      - right. now apply IH. }
    exact (H _ Hin).
Qed.

Lemma includes_incl (l1 l2 : list string) :
  forallb (fun k => existsb (String.eqb k) l2) l1 = true <-> incl l1 l2.
Proof.
  rewrite forallb_forall. split.
  - intros H k Hk. apply H in Hk. apply existsb_exists in Hk.
    destruct Hk as (k' & Hk' & E). apply String.eqb_eq in E. now subst k'.
  - intros H k Hk. apply existsb_exists. exists k.
    split; [now apply H | apply String.eqb_refl].
Qed.

Lemma forallb_same_elements {A : Type} (f : A -> bool) (l1 l2 : list A) :
  incl l1 l2 -> incl l2 l1 -> forallb f l1 = forallb f l2.
Proof.
  intros H1 H2. apply eq_true_iff_eq. rewrite !forallb_forall.
  split; intros H x Hx; apply H; auto.
Qed.

Lemma forallb_combine_swap {A : Type} (p : A -> A -> bool) (xs ys : list A) :
  forallb (fun xy => p (fst xy) (snd xy)) (List.combine xs ys)
  = forallb (fun yx => p (snd yx) (fst yx)) (List.combine ys xs).
Proof.
  revert ys. induction xs as [|x xs IH]; intros [|y ys]; try reflexivity.
  cbn [List.combine forallb fst snd]. now rewrite IH.
Qed.

(** The comparison of the keys and of the properties, the same from
    either side when no key is repeated. *)
Lemma keys_symmetric (ig : list string) (a b : JValue) :
  distinctKeys a = true -> distinctKeys b = true ->
  (forall key : string,
      isDeepEqual (getProp a key) (getProp b key) ig
      = isDeepEqual (getProp b key) (getProp a key) ig) ->
  (let notIgnored k := negb (existsb (String.eqb k) ig) in
   let keys1 := filter notIgnored (ownKeys a) in
   let keys2 := filter notIgnored (ownKeys b) in
   if negb (Nat.eqb (List.length keys1) (List.length keys2)) then false
   else if negb (forallb (fun k => existsb (String.eqb k) keys2) keys1) then false
   else forallb (fun key => isDeepEqual (getProp a key) (getProp b key) ig) keys1)
  = (let notIgnored k := negb (existsb (String.eqb k) ig) in
     let keys1 := filter notIgnored (ownKeys b) in
     let keys2 := filter notIgnored (ownKeys a) in
     if negb (Nat.eqb (List.length keys1) (List.length keys2)) then false
     else if negb (forallb (fun k => existsb (String.eqb k) keys2) keys1) then false
     else forallb (fun key => isDeepEqual (getProp b key) (getProp a key) ig) keys1).
Proof.
  intros Ha Hb K. cbv zeta.
  set (ka := filter _ (ownKeys a)). set (kb := filter _ (ownKeys b)).
  assert (Na : NoDup ka) by (apply NoDup_filter; now apply NoDup_ownKeys).
  assert (Nb : NoDup kb) by (apply NoDup_filter; now apply NoDup_ownKeys).
  rewrite (Nat.eqb_sym (List.length kb)).
  destruct (Nat.eqb (List.length ka) (List.length kb)) eqn:L; [|reflexivity].
  apply Nat.eqb_eq in L. cbn [negb].
  destruct (forallb (fun k => existsb (String.eqb k) kb) ka) eqn:I1.
  - apply includes_incl in I1.
    assert (I2 : incl kb ka) by (apply NoDup_length_incl; [exact Na | lia | exact I1]).
    rewrite (proj2 (includes_incl kb ka) I2). cbn [negb].
    rewrite (forallb_same_elements _ ka kb I1 I2).
    apply forallb_ext_in. intros key _. apply K.
  - destruct (forallb (fun k => existsb (String.eqb k) ka) kb) eqn:I2; [|reflexivity].
    apply includes_incl in I2.
    assert (I1' : incl ka kb) by (apply NoDup_length_incl; [exact Nb | lia | exact I2]).
    apply includes_incl in I1'. congruence.
Qed.

Lemma isDeepEqual_sym (n : nat) :
  forall (ig : list string) (a b : JValue),
    distinctKeys a = true -> distinctKeys b = true ->
    height a + height b < n ->
    isDeepEqual a b ig = isDeepEqual b a ig.
Proof.
  induction n as [|n IH]; intros ig a b Ha Hb Hn; [lia|].
  rewrite (isDeepEqual_unfold a b), (isDeepEqual_unfold b a).
  rewrite (strictEq_sym b a).
  destruct (strictEq a b); [reflexivity|].
  rewrite (orb_comm (isNullish b)), (andb_comm (negb (isObjectLike b))),
    (andb_comm (isNaN b)).
  destruct (isNullish a || isNullish b
            || negb (isObjectLike a) && negb (isObjectLike b)) eqn:G; [reflexivity|].
  replace (Bool.eqb (isArray b) (isArray a)) with (Bool.eqb (isArray a) (isArray b))
    by (now destruct (isArray a), (isArray b)).
  destruct (negb (Bool.eqb (isArray a) (isArray b))) eqn:A; [reflexivity|].
  assert (Hpos : 0 < height a + height b)
    by (destruct a, b; cbn in G; try discriminate; cbn [height]; lia).
  assert (K : forall key : string,
             isDeepEqual (getProp a key) (getProp b key) ig
             = isDeepEqual (getProp b key) (getProp a key) ig).
  { intros key.
    pose proof (height_getProp a key). pose proof (height_getProp b key).
    apply IH; [now apply distinctKeys_getProp | now apply distinctKeys_getProp | lia]. }
  pose proof (keys_symmetric ig a b Ha Hb K) as Keys.
  destruct a as [ | | b1 | z1 | | s1 | xs | sy1 fs1 ],
           b as [ | | b2 | z2 | | s2 | ys | sy2 fs2 ];
    cbn in G, A; try discriminate; try exact Keys.
  rewrite (Nat.eqb_sym (List.length ys)).
  destruct (negb (Nat.eqb _ _)); [reflexivity|].
  rewrite (forallb_combine_swap (fun x y => isDeepEqual x y ig) xs ys).
  apply forallb_ext_in. intros [y x] H. cbn [fst snd].
  pose proof (in_combine_l _ _ _ _ H) as Hy. pose proof (in_combine_r _ _ _ _ H) as Hx.
  cbn [distinctKeys] in Ha, Hb. rewrite forallb_forall in Ha, Hb.
  pose proof (Ha _ Hx). pose proof (Hb _ Hy).
  apply height_element in Hx, Hy. apply IH; [assumption | assumption | lia].
Qed.

(** X20.  The order of the two arguments does not matter: on values whose
    objects have distinct keys, [isDeepEqual] gives the same answer for
    [(obj1, obj2)] and [(obj2, obj1)], whatever is ignored. *)
Theorem isDeepEqual_symmetric (a b : JValue) (propsToIgnore : list string) :
  distinctKeys a = true -> distinctKeys b = true ->
  isDeepEqual a b propsToIgnore = isDeepEqual b a propsToIgnore.
Proof.
  intros Ha Hb. apply (isDeepEqual_sym (S (height a + height b))); [easy | easy | lia].
Qed.

Lemma isDeepEqual_symmetric_witness :
  isDeepEqual (Examples.exampleString "x") (Examples.nestedObject) ["example"]
  = isDeepEqual (Examples.nestedObject) (Examples.exampleString "x") ["example"].
Proof. apply isDeepEqual_symmetric; reflexivity. Defined.

Lemma filter_none {A : Type} (f : A -> bool) (l : list A) :
  forallb (fun x => negb (f x)) l = true -> filter f l = [].
Proof.
  induction l as [|x l IH]; intros H; [reflexivity|].
  cbn [forallb] in H. apply andb_true_iff in H. destruct H as [H1 H2].
  cbn [filter]. apply negb_true_iff in H1. rewrite H1. now apply IH.
Qed.

(** X21.  A number or a boolean has no keys, and the comparison of a
    primitive with an object goes on to the keys: a number or a boolean is
    deep-equal to every object whose keys are all ignored, the empty
    object among them. *)
Theorem isDeepEqual_primitive_and_bare_object (sy : Symbols) (fs : Fields)
    (propsToIgnore : list string) :
  allIgnored propsToIgnore fs = true ->
  (forall z : Z, isDeepEqual (JNum z) (JObj sy fs) propsToIgnore = true)
  /\ (forall c : bool, isDeepEqual (JBool c) (JObj sy fs) propsToIgnore = true).
Proof.
  intros H.
  assert (E : filter (fun k => negb (existsb (String.eqb k) propsToIgnore))
                     (map fst fs) = []).
  { apply filter_none. unfold allIgnored in H.
    erewrite forallb_ext_in; [exact H|].
    intros k _. cbn beta. apply negb_involutive. }
  split; intros x; rewrite isDeepEqual_unfold; cbn; now rewrite E.
Qed.

Lemma isDeepEqual_primitive_and_bare_object_witness :
  isDeepEqual (JNum 5) (obj [("example", JStr "x")]) ["example"] = true.
Proof.
  exact (proj1 (isDeepEqual_primitive_and_bare_object noSym [("example", JStr "x")]
                  ["example"] eq_refl) 5%Z).
Defined.

End ComparisonFacts.

(* ====================================================================== *)
(** * typesystem.ts: intersections of primitive types *)
(* ====================================================================== *)

Module ConsolidationFacts.
Import TypeBox TypeSystem EqualFacts.

(** ** flattenIntersections on an intersection of primitives *)

Lemma hasKind_unique (k k' : string) (v : JValue) :
  hasKind k v = true -> k <> k' -> hasKind k' v = false.
Proof.
  unfold hasKind. destruct v as [ | | | | | | | sy fs ]; try discriminate.
  destruct (symKind sy) as [kind|]; [|discriminate].
  intros H N. apply String.eqb_eq in H. subst kind.
  now apply String.eqb_neq, not_eq_sym.
Qed.

Lemma primitive_not_composite (v : JValue) :
  isPrimitiveType v = true -> TypeBox.IsArray v || IsObject v = false.
Proof.
  unfold isPrimitiveType, IsString, IsBoolean, IsNumber, IsNull, TypeBox.IsArray,
    IsObject.
  intros H.
  repeat (apply orb_true_iff in H; destruct H as [H|H]);
    apply andb_true_iff in H; destruct H as [H _];
    rewrite (hasKind_unique _ "Array" _ H), (hasKind_unique _ "Object" _ H)
      by discriminate; reflexivity.
Qed.

Lemma ForallOrdPairs_snoc {A : Type} (R : A -> A -> Prop) (l : list A) (x : A) :
  ForallOrdPairs R l -> (forall s, In s l -> R s x) -> ForallOrdPairs R (l ++ [x]).
Proof.
  induction 1 as [|a l Ha Hl IH]; intros H; cbn [app].
  - constructor; constructor.
  - constructor.
    + apply Forall_app. split.
      * exact Ha.
      * constructor; [|constructor]. apply H. now left.
    + apply IH. intros s Hs. apply H. now right.
Qed.

Section Consolidate.
Variable n : nat.

Local Abbreviation step := (consolidateStep n).

Lemma step_primitive (dedup : list JValue) (v : JValue) :
  isPrimitiveType v = true ->
  step (Ok dedup) v
  = Ok (if existsb (fun s => similar s v) dedup then dedup else dedup ++ [v]).
Proof.
  intros H. unfold consolidateStep. cbn [bind]. rewrite (primitive_not_composite _ H).
  unfold isPrimitiveType in H. rewrite H. cbn [bind]. cbv zeta.
  unfold similar. now destruct (existsb _ dedup).
Qed.

Lemma fold_thrown (e : Error) (vs : list JValue) :
  fold_left step vs (Throw e) = Throw e.
Proof. induction vs as [|v vs IH]; [reflexivity | exact IH]. Qed.

Lemma consolidate_primitives (vs : list JValue) :
  forall dedup : list JValue,
    forallb isPrimitiveType vs = true ->
    ForallOrdPairs (fun s t => similar s t = false) dedup ->
    exists extra : list JValue,
      fold_left step vs (Ok dedup) = Ok (dedup ++ extra)
      /\ incl extra vs
      /\ (forall v, In v vs -> exists s, In s (dedup ++ extra) /\ similar s v = true)
      /\ ForallOrdPairs (fun s t => similar s t = false) (dedup ++ extra).
Proof.
  induction vs as [|v vs IH]; intros dedup Hvs Hd.
  - exists []. rewrite app_nil_r. repeat split; auto.
    + intros x [].
    + intros x [].
  - cbn [forallb] in Hvs. apply andb_true_iff in Hvs. destruct Hvs as [Hv Hvs].
    cbn [fold_left]. rewrite (step_primitive dedup v Hv).
    destruct (existsb (fun s => similar s v) dedup) eqn:E.
    + destruct (IH dedup Hvs Hd) as (extra & F & I & Sim & P).
      exists extra. split; [exact F|]. split; [now apply incl_tl|]. split; [|exact P].
      intros x [<-|Hx]; [|now apply Sim].
      apply existsb_exists in E. destruct E as (s & Hs & E).
      exists s. split; [apply in_or_app; now left | exact E].
    + assert (Hd' : ForallOrdPairs (fun s t => similar s t = false) (dedup ++ [v])).
      { apply ForallOrdPairs_snoc; [exact Hd|]. intros s Hs.
        destruct (similar s v) eqn:Es; [|reflexivity].
        assert (existsb (fun s => similar s v) dedup = true); [|congruence].
        apply existsb_exists. now exists s. }
      destruct (IH (dedup ++ [v]) Hvs Hd') as (extra & F & I & Sim & P).
      exists (v :: extra). rewrite <- app_assoc in F, Sim, P. cbn [app] in F, Sim, P.
      split; [exact F|]. split; [|split; [|exact P]].
      * intros x [<-|Hx]; [now left | right; now apply I].
      * intros x [<-|Hx]; [|now apply Sim].
        exists v. split; [apply in_or_app; right; now left|].
        unfold similar. apply (isDeepEqual_refl (S (height v))). lia.
Qed.

Lemma consolidate_similar (v0 : JValue) (rest : list JValue) :
  forallb isPrimitiveType rest = true ->
  (forall v, In v rest -> similar v0 v = true) ->
  fold_left step rest (Ok [v0]) = Ok [v0].
Proof.
  induction rest as [|v rest IH]; intros Hp Hs; [reflexivity|].
  cbn [forallb] in Hp. apply andb_true_iff in Hp. destruct Hp as [Hv Hp].
  cbn [fold_left]. rewrite (step_primitive [v0] v Hv). cbn [existsb].
  rewrite (Hs v (or_introl eq_refl)). cbn [orb].
  apply IH; [exact Hp|]. intros x Hx. apply Hs. now right.
Qed.

Lemma consolidate_unsupported (pre post : list JValue) (v : JValue) :
  forall dedup : list JValue,
    forallb isPrimitiveType pre = true ->
    TypeBox.IsArray v || IsObject v = false -> isPrimitiveType v = false ->
    fold_left step (pre ++ v :: post) (Ok dedup) = Throw (unsupportedByFlatten v).
Proof.
  induction pre as [|p pre IH]; intros dedup Hp Hc Hv.
  - cbn [app fold_left]. unfold consolidateStep at 2. cbn [bind]. rewrite Hc.
    unfold isPrimitiveType in Hv. rewrite Hv. cbn [bind]. apply fold_thrown.
  - cbn [forallb] in Hp. apply andb_true_iff in Hp. destruct Hp as [Hp0 Hp].
    cbn [app fold_left]. rewrite (step_primitive dedup p Hp0). now apply IH.
Qed.
End Consolidate.

Lemma flatten_intersection (schema : JValue) (vs : list JValue) :
  IsIntersect schema = true -> getProp schema "allOf" = JArr vs ->
  flattenIntersections schema
  = (deduplicatedSchemas <-
       fold_left (consolidateStep (height schema)) vs (Ok []) ;;
     Ok (consolidated deduplicatedSchemas schema)).
Proof.
  intros Hi Ha. unfold flattenIntersections. cbn [flattenIntersections_fuel].
  rewrite Hi, Ha. cbn [asArray bind].
  change (fold_left _ vs (Ok []))
    with (fold_left (consolidateStep (height schema)) vs (Ok [])).
  destruct (fold_left _ vs (Ok [])) as [kept|e]; [|reflexivity].
  cbn [bind]. unfold consolidated. now destruct (1 <? List.length kept).
Qed.

(** X22.  An intersection whose members are string, number, boolean or
    null types is flattened to the members that are first of their kind:
    the members kept are members given, every member given differs by
    examples at most from a member kept, and no two members kept differ by
    examples only.  Two or more members kept are intersected again with
    the options of the intersection; a single one is returned as it is. *)
Theorem flatten_deduplicates_primitives (schema : JValue) (vs : list JValue) :
  IsIntersect schema = true -> getProp schema "allOf" = JArr vs ->
  forallb isPrimitiveType vs = true ->
  exists kept : list JValue,
    flattenIntersections schema = Ok (consolidated kept schema)
    /\ incl kept vs
    /\ (forall v, In v vs -> exists s, In s kept /\ similar s v = true)
    /\ ForallOrdPairs (fun s t => similar s t = false) kept.
Proof.
  intros Hi Ha Hp.
  destruct (consolidate_primitives (height schema) vs [] Hp (FOP_nil _))
    as (kept & F & I & Sim & P).
  cbn [app] in F, Sim, P. exists kept.
  rewrite (flatten_intersection schema vs Hi Ha), F. cbn [bind]. auto.
Qed.

(** X23.  An intersection of primitive types that all differ from the
    first by examples at most is flattened to the first member itself:
    the examples of the other members are dropped. *)
Theorem flatten_collapses_similar (schema v0 : JValue) (rest : list JValue) :
  IsIntersect schema = true -> getProp schema "allOf" = JArr (v0 :: rest) ->
  forallb isPrimitiveType (v0 :: rest) = true ->
  (forall v, In v rest -> similar v0 v = true) ->
  flattenIntersections schema = Ok v0.
Proof.
  intros Hi Ha Hp Hs.
  cbn [forallb] in Hp. apply andb_true_iff in Hp. destruct Hp as [Hv0 Hp].
  rewrite (flatten_intersection schema _ Hi Ha). cbn [fold_left].
  rewrite (step_primitive (height schema) [] v0 Hv0). cbn [existsb app].
  now rewrite (consolidate_similar (height schema) v0 rest Hp Hs).
Qed.

(** X24.  A member that is neither an array, an object nor one of the four
    primitive types stops the flattening of an intersection whose members
    before it are primitive: the error names the member's [type]. *)
Theorem flatten_unsupported_member (schema v : JValue) (pre post : list JValue) :
  IsIntersect schema = true -> getProp schema "allOf" = JArr (pre ++ v :: post) ->
  forallb isPrimitiveType pre = true ->
  TypeBox.IsArray v || IsObject v = false -> isPrimitiveType v = false ->
  flattenIntersections schema = Throw (unsupportedByFlatten v).
Proof.
  intros Hi Ha Hp Hc Hv.
  rewrite (flatten_intersection schema _ Hi Ha).
  now rewrite (consolidate_unsupported (height schema) pre post v [] Hp Hc Hv).
Qed.

Lemma flatten_deduplicates_primitives_witness :
  exists kept : list JValue,
    flattenIntersections stringNumberString = Ok (consolidated kept stringNumberString)
    /\ incl kept [Examples.exampleString "x"; Number noOptions;
                  Examples.exampleString "y"]
    /\ (forall v,
           In v [Examples.exampleString "x"; Number noOptions;
                 Examples.exampleString "y"] ->
           exists s, In s kept /\ similar s v = true)
    /\ ForallOrdPairs (fun s t => similar s t = false) kept.
Proof.
  apply (flatten_deduplicates_primitives stringNumberString _ eq_refl eq_refl eq_refl).
Defined.

Lemma flatten_collapses_similar_witness :
  flattenIntersections twoStrings = Ok (Examples.exampleString "x").
Proof.
  apply (flatten_collapses_similar twoStrings (Examples.exampleString "x")
           [Examples.exampleString "y"] eq_refl eq_refl eq_refl).
  intros v [<-|[]]. reflexivity.
Defined.

Lemma flatten_unsupported_member_witness :
  flattenIntersections stringAndUnion = Throw (unsupportedByFlatten stringOrNumber).
Proof.
  exact (flatten_unsupported_member stringAndUnion stringOrNumber [String_ noOptions] []
           eq_refl eq_refl eq_refl eq_refl eq_refl).
Defined.

End ConsolidationFacts.

(* ====================================================================== *)
(** * index.ts: schema names and content types *)
(* ====================================================================== *)

Module NamingFacts.
Import OpenApi.

(** ** Schema names and content types *)

Lemma hasChar_append (c : ascii) (s t : string) :
  hasChar c (s +++ t) = hasChar c s || hasChar c t.
Proof.
  induction s as [|d s IH]; [reflexivity|].
  cbn [String.append hasChar]. now rewrite IH, orb_assoc.
Qed.

Lemma replaceSlashes_clean (s : string) : hasChar "/" (replaceSlashes s) = false.
Proof.
  induction s as [|d s IH]; [reflexivity|].
  cbn [replaceSlashes hasChar]. rewrite IH, orb_false_r.
  destruct (Ascii.eqb d "/") eqn:E; [reflexivity | exact E].
Qed.

Lemma upperAscii_slash (c : ascii) :
  Ascii.eqb (upperAscii c) "/" = Ascii.eqb c "/".
Proof. destruct c as [[] [] [] [] [] [] [] []]; reflexivity. Qed.

(** X25.  The name of a response schema never holds a [/], whatever the
    route path, the method and the content type.  The name of a request
    body schema holds one exactly when the route path has one after its
    first character, or the method has one. *)
Theorem schema_names_and_slashes (path method contentType : string) (statusCode : nat) :
  hasChar "/" (prettyNameOf path method contentType statusCode) = false
  /\ forall (c0 : ascii) (rest : string),
       hasChar "/" (requestNameOf (String c0 rest) method)
       = hasChar "/" rest || hasChar "/" method.
Proof.
  split; [apply replaceSlashes_clean|].
  intros c0 rest. unfold requestNameOf. rewrite !hasChar_append.
  destruct rest as [|c1 rest]; [reflexivity|].
  cbn [capitalizedRoute hasChar]. now rewrite upperAscii_slash, orb_false_l.
Qed.

(** ** The content type of a response *)

Lemma index_separator (t params : string) :
  hasChar ";" t = false ->
  index 0 ";" (t +++ ";" +++ params) = Some (String.length t).
Proof.
  induction t as [|a t IH]; intros H.
  - cbn [String.append index prefix].
    destruct (ascii_dec ";" ";") as [_|N]; [now destruct params | contradiction].
  - cbn [hasChar] in H. apply orb_false_iff in H. destruct H as [Ha Ht].
    specialize (IH Ht).
    cbn [String.append index prefix String.length] in *.
    destruct (ascii_dec ";" a) as [<-|N]; [discriminate|].
    now rewrite IH.
Qed.

Lemma substring_prefix (t rest : string) :
  substring 0 (String.length t) (t +++ rest) = t.
Proof.
  induction t as [|a t IH]; [now destruct rest|].
  cbn [String.length String.append substring]. now rewrite IH.
Qed.

(** X26.  The content type under which a response is recorded is the
    header up to its first [;]: the parameters of a media type, such as
    the charset, are cut off.  A header that starts with [;] is kept
    whole, and a response without the header counts as [text/html]. *)
Theorem contentType_without_parameters (t params : string) :
  hasChar ";" t = false ->
  contentTypeOf (Some (t +++ ";" +++ params))
  = (if String.eqb t "" then ";" +++ params else t)
  /\ contentTypeOf (Some t) = t
  /\ contentTypeOf None = "text/html".
Proof.
  intros H. split; [|split; [|reflexivity]].
  - unfold contentTypeOf. rewrite (index_separator t params H).
    destruct t as [|a t]; [reflexivity|].
    cbn [String.length String.eqb].
    exact (substring_prefix (String a t) (";" +++ params)).
  - unfold contentTypeOf.
    destruct (index 0 ";" t) as [[|n]|] eqn:E; try reflexivity.
    exfalso. clear params. revert n E.
    induction t as [|a t IH]; intros n E; [discriminate|].
    cbn [hasChar] in H. apply orb_false_iff in H. destruct H as [Ha Ht].
    cbn [index prefix] in E.
    destruct (ascii_dec ";" a) as [<-|N]; [discriminate|].
    destruct (index 0 ";" t) as [[|m]|] eqn:E'; try discriminate.
    + destruct t as [|b t]; [discriminate|].
      cbn [index prefix] in E'. cbn [hasChar] in Ht.
      apply orb_false_iff in Ht. destruct Ht as [Hb _].
      destruct (ascii_dec ";" b) as [<-|N']; [discriminate|].
      destruct (index 0 ";" t) as [k|]; discriminate.
    + now apply (IH Ht m).
Qed.

(** The header of [c.text()]. *)
Lemma contentType_without_parameters_witness :
  contentTypeOf (Some "text/plain; charset=UTF-8") = "text/plain".
Proof.
  exact (proj1 (contentType_without_parameters "text/plain" " charset=UTF-8" eq_refl)).
Defined.

End NamingFacts.

(* ====================================================================== *)
(** * index.ts: the sampling gate *)
(* ====================================================================== *)

Module GateFacts.
Import TypeBox TypeSystem TypeboxUtils OpenApi Examples StoreFacts SamplerFacts.
Import RegistrationFacts ObservationFacts.

Section Gate.
Variable JSON_parse : string -> option JValue.
Variable Check : JValue -> JValue -> bool.
Variable Composite : list JValue -> JValue -> Symbols * Fields.

Local Abbreviation handler := (snoopOnResponseHandler JSON_parse Check Composite).

(** The count the gate reads is the count the document records. *)
Lemma sampledCountOf_recorded (doc : JValue) (path method ct : string)
    (statusCode : nat) (n : Z) :
  isObjectPath (schemaCell path method statusCode ct) doc = true ->
  getProp (getPath (schemaCell path method statusCode ct) doc) countKey = JNum n ->
  sampledCountOf doc path method statusCode ct = JNum n.
Proof. intros Hp Hc. now rewrite (sampledCountOf_cell _ _ _ _ _ Hp), Hc. Qed.

Lemma gateSkips_recorded (n : Z) (maxResponsesToSample sampleInterval random : Num) :
  gateSkips (JNum n) maxResponsesToSample sampleInterval random
  = geN (Fin (inject_Z n)) maxResponsesToSample || gtN random sampleInterval.
Proof. reflexivity. Qed.

(** A matching observation of a response counted [n] times: skipped, the
    document is returned as it is; let through, the count is raised. *)
Lemma gated_matching_observation (h g : option SampleResponseOptions) (c : Context)
    (random : Num) (rootDoc inferredSchema responseData typeboxRefSchema : JValue)
    (refId : string) (n : Z) :
  let contentType := contentTypeOf (contentTypeHeader c) in
  let cell := schemaCell (routePath c) (method c) (status c) contentType in
  let skips :=
    geN (Fin (inject_Z n)) (effective samplingMaxCount h g Infinity)
    || gtN random (effective samplingInterval h g (Fin 1)) in
  readBody JSON_parse c contentType = Ok (Some inferredSchema, responseData) ->
  isObjectPath cell rootDoc = true ->
  getProp (getPath cell rootDoc) "$ref" = JStr ("#/components/schemas/" +++ refId) ->
  getProp (getPath cell rootDoc) countKey = JNum n ->
  jsonSchemaToTypebox (getPath ["components"; "schemas"; refId] rootDoc)
  = Ok typeboxRefSchema ->
  isDeepEqual typeboxRefSchema inferredSchema ["example"] = true
  \/ Check typeboxRefSchema responseData = true ->
  handler h g c random rootDoc
  = (if skips then Returned rootDoc
     else Returned (setPath (cell ++ [countKey]) (plusOne (JNum n)) rootDoc))
  /\ ((Z.abs n < 2 ^ 53)%Z ->
      (handler h g c random rootDoc = Returned rootDoc <-> skips = true)).
Proof.
  cbv zeta. intros Hbody Hpath Href Hcount Hcompile Hmatch.
  set (cell := schemaCell (routePath c) (method c) (status c)
                          (contentTypeOf (contentTypeHeader c))) in *.
  pose proof (sampledCountOf_recorded _ _ _ _ _ _ Hpath Hcount) as Hs.
  assert (Hobj : isObj (getPath cell rootDoc) = true).
  { rewrite <- (app_nil_r cell) in Hpath. apply isObjectPath_app in Hpath.
    destruct Hpath as [_ Hp]. now apply isObjectPath_isObj in Hp. }
  destruct (geN (Fin (inject_Z n)) (effective samplingMaxCount h g Infinity)
            || gtN random (effective samplingInterval h g (Fin 1))) eqn:G.
  - assert (R : handler h g c random rootDoc = Returned rootDoc).
    { apply gate_skip_returns. now rewrite Hs, gateSkips_recorded. }
    split; [exact R | intros _; now split].
  - assert (R : handler h g c random rootDoc
                = Returned (setPath (cell ++ [countKey]) (plusOne (JNum n)) rootDoc)).
    { rewrite (handler_reaches_reference JSON_parse Check Composite h g c random
                 rootDoc inferredSchema responseData).
      - now apply mergeIntoReference_counts
          with (refId := refId) (typeboxRefSchema := typeboxRefSchema).
      - now rewrite Hs, gateSkips_recorded.
      - exact Hbody.
      - exact Hpath.
      - fold cell. apply getProp_defined_hasProp; [assumption|]. now rewrite Href. }
    split; [exact R|]. intros Hbound. split; [|discriminate].
    rewrite R, (plusOne_below n Hbound). intros E. exfalso.
    assert (E' : getPath (cell ++ [countKey])
                         (setPath (cell ++ [countKey]) (JNum (n + 1)) rootDoc)
                 = getPath (cell ++ [countKey]) rootDoc)
      by (now rewrite (f_equal documentOf E : setPath _ _ _ = rootDoc)).
    rewrite (getPath_setPath_same _ _ _ _ Hpath) in E'.
    rewrite getPath_app in E'. cbn [getPath] in E'. rewrite Hcount in E'.
    injection E' as E'. lia.
Qed.

(** C2.  The sampling gate.  The count it reads is the count recorded in
    the document for the (path, method, status, content type) of the
    observation, and none where the status has no entry.  With no count
    the gate lets the observation through; with a count it skips exactly
    when the count has reached the effective [samplingMaxCount] or the
    random draw exceeds the effective [samplingInterval].  A skipped
    observation leaves the document as it was.  One that is let through is
    processed: an error of reading the body leaves the handler, a first
    observation (of a schema that carries no reference yet, as every
    inferred schema) is entered with a count of one whatever the options
    and the draw, and a matching observation of a response counted [n] times
    raises the count, to [n + 1] for [n] below [2^53], so that for these
    the handler returns the document unchanged exactly when the gate
    skips.  Each effective
    option is the per-route value when given, else the per-instance value
    when given, else the built-in default (interval 1, no maximum).  With
    interval 1, a draw in [0, 1) and the count below the maximum, the gate
    does not skip. *)
Theorem sampling_gate (h g : option SampleResponseOptions) (c : Context)
    (random : Num) (rootDoc : JValue) :
  let contentType := contentTypeOf (contentTypeHeader c) in
  let responses := ["paths"; routePath c; method c; "responses"] in
  let cell := schemaCell (routePath c) (method c) (status c) contentType in
  let sampledCount :=
    sampledCountOf rootDoc (routePath c) (method c) (status c) contentType in
  let sampleInterval := effective samplingInterval h g (Fin 1) in
  let maxResponsesToSample := effective samplingMaxCount h g Infinity in
  let skips := gateSkips sampledCount maxResponsesToSample sampleInterval random in
  (forall n : Z,
      isObjectPath cell rootDoc = true ->
      getProp (getPath cell rootDoc) countKey = JNum n ->
      sampledCount = JNum n)
  /\ (isObjectPath responses rootDoc = true ->
      truthy (getPath (responses ++ [string_of_nat (status c)]) rootDoc) = false ->
      sampledCount = JNull)
  /\ (sampledCount = JNull -> skips = false)
  /\ (sampledCount <> JNull ->
      (skips = true <->
       geN (toNum sampledCount) maxResponsesToSample = true
       \/ gtN random sampleInterval = true))
  /\ (skips = true -> handler h g c random rootDoc = Returned rootDoc)
  /\ (skips = false ->
      forall e : Error,
        readBody JSON_parse c contentType = Throw e ->
        handler h g c random rootDoc = Thrown e rootDoc)
  /\ (forall inferredSchema responseData : JValue,
         isObjectPath responses rootDoc = true ->
         truthy (getPath (responses ++ [string_of_nat (status c)]) rootDoc) = false ->
         schemasOk rootDoc = true ->
         readBody JSON_parse c contentType = Ok (Some inferredSchema, responseData) ->
         knownReference inferredSchema "body" = Ok JUndefined ->
         exists doc1 : JValue,
           handler h g c random rootDoc = Returned doc1
           /\ getPath (cell ++ [countKey]) doc1 = JNum 1)
  /\ (forall (inferredSchema responseData typeboxRefSchema : JValue)
            (refId : string) (n : Z),
         readBody JSON_parse c contentType = Ok (Some inferredSchema, responseData) ->
         isObjectPath cell rootDoc = true ->
         getProp (getPath cell rootDoc) "$ref"
         = JStr ("#/components/schemas/" +++ refId) ->
         getProp (getPath cell rootDoc) countKey = JNum n ->
         jsonSchemaToTypebox (getPath ["components"; "schemas"; refId] rootDoc)
         = Ok typeboxRefSchema ->
         isDeepEqual typeboxRefSchema inferredSchema ["example"] = true
         \/ Check typeboxRefSchema responseData = true ->
         handler h g c random rootDoc
         = (if skips then Returned rootDoc
            else Returned (setPath (cell ++ [countKey]) (plusOne (JNum n)) rootDoc))
         /\ ((Z.abs n < 2 ^ 53)%Z ->
             plusOne (JNum n) = JNum (n + 1)
             /\ (handler h g c random rootDoc = Returned rootDoc
                 <-> geN (Fin (inject_Z n)) maxResponsesToSample = true
                     \/ gtN random sampleInterval = true)))
  /\ (forall (ho : SampleResponseOptions) (x : Num),
         h = Some ho -> samplingInterval ho = Some x -> sampleInterval = x)
  /\ (forall (ho : SampleResponseOptions) (x : Num),
         h = Some ho -> samplingMaxCount ho = Some x -> maxResponsesToSample = x)
  /\ (forall (go : SampleResponseOptions) (x : Num),
         match h with Some ho => samplingInterval ho | None => None end = None ->
         g = Some go -> samplingInterval go = Some x -> sampleInterval = x)
  /\ (forall (go : SampleResponseOptions) (x : Num),
         match h with Some ho => samplingMaxCount ho | None => None end = None ->
         g = Some go -> samplingMaxCount go = Some x -> maxResponsesToSample = x)
  /\ (match h with Some ho => samplingInterval ho | None => None end = None ->
      match g with Some go => samplingInterval go | None => None end = None ->
      sampleInterval = Fin 1)
  /\ (match h with Some ho => samplingMaxCount ho | None => None end = None ->
      match g with Some go => samplingMaxCount go | None => None end = None ->
      maxResponsesToSample = Infinity)
  /\ (forall r : Q,
         random = Fin r -> (0 <= r)%Q -> (r < 1)%Q ->
         sampleInterval = Fin 1 ->
         geN (toNum sampledCount) maxResponsesToSample = false ->
         skips = false).
Proof.
  cbv zeta.
  destruct (gate_decides JSON_parse Check Composite h g c random rootDoc)
    as (G1 & G2 & G3 & G4 & G5 & G6 & G7 & G8 & G9 & G10).
  cbv zeta in G1, G2, G3, G4, G5, G6, G7, G8, G9, G10.
  split; [|split; [|split; [|split; [|split; [|split; [|split; [|split]]]]]]].
  - intros n. apply sampledCountOf_recorded.
  - intros Hp Hf. now apply sampledCountOf_unknown_status.
  - exact G1.
  - exact G2.
  - exact G3.
  - intros Hgate e. now apply read_error_propagates.
  - intros inferredSchema responseData Hp Hf Hs Hbody Hv.
    destruct (first_observation_entry JSON_parse Check Composite h g c random rootDoc
                inferredSchema responseData Hp Hf Hs Hbody Hv)
      as (doc1 & R & Hcell & _).
    exists doc1. split; [exact R|].
    rewrite getPath_app, Hcell. reflexivity.
  - intros inferredSchema responseData typeboxRefSchema refId n
           Hbody Hpath Href Hcount Hcompile Hmatch.
    rewrite (sampledCountOf_recorded _ _ _ _ _ _ Hpath Hcount), gateSkips_recorded.
    destruct (gated_matching_observation h g c random rootDoc inferredSchema
                responseData typeboxRefSchema refId n
                Hbody Hpath Href Hcount Hcompile Hmatch) as [R I].
    split; [exact R|]. intros Hbound. split; [now apply plusOne_below|].
    rewrite (I Hbound). apply orb_true_iff.
  - repeat split; assumption.
Qed.
End Gate.

(** A second [c.text('OK')] on [GET /t] at interval 1, a draw of one half:
    the gate lets it through and the count is raised from 1 to 2. *)
Lemma sampling_gate_witness :
  snoopOnResponseHandler parseNothing checkNothing compositeNothing
                         None None textOK (Fin (1 # 2)) sampledOnce
  = Returned (setPath (schemaCell "/t" "get" 200 "text/plain" ++ [countKey])
                      (JNum (1 + 1)) sampledOnce).
Proof.
  refine (proj1 (proj1 (proj2 (proj2 (proj2 (proj2 (proj2 (proj2 (proj2
            (sampling_gate parseNothing checkNothing compositeNothing
                           None None textOK (Fin (1 # 2)) sampledOnce))))))))
            (textStringToTypeboxSchema "OK") (JStr "OK")
            (String_ (obj [("example", JStr "OK")]))
            "TResponse_get_text_plain_200" 1%Z _ _ _ _ _ _)).
  - reflexivity.
  - reflexivity.
  - reflexivity.
  - reflexivity.
  - reflexivity.
  - left. reflexivity.
Defined.

End GateFacts.
